(** * Windowed remote-list renderer of the Camdram rankings pages

    Shallow embedding of the two browser scripts under [static/js]:

    - the people-ranking table (paged fetches, virtual and simple
      rendering, query changes), embedded in [Module PeopleTable] with
      its properties in [Module PeopleTableFacts];
    - the role-organisation page (chunked population of the source
      list guarded by a render token), embedded in
      [Module RoleOrganisation] with its properties in
      [Module RoleOrganisationFacts].

    Both scripts run on one event loop.  A script's [let] variables, the
    part of the document it reads and writes, and the work the browser
    holds for it (requests in flight, promise reactions, animation-frame
    callbacks) are explicit components of a state; every JavaScript
    function becomes a function from state to state. *)

From Stdlib Require Import ZArith Lia.
From Stdlib Require Ascii String.
From stdpp Require Import base list strings gmap pretty sorting.

Local Open Scope Z_scope.

(** ** The people-ranking table *)

Module PeopleTable.

(** One ranked person, as delivered by the rankings endpoint. *)
Record Person := mkPerson {
  p_pid : Z;
  p_name : string;
  p_slug : string;
  p_count : Z;
  p_num_shows : Z;
  p_num_titles : Z;
  p_top_role : string;
  p_top_role_count : Z;
  p_credit_date_range : string
}.

(** A [tr.virtual-row] element; [buildRow] fills it from one person. *)
Inductive Row := VirtualRow (p : Person).

Definition buildRow (p : Person) : Row := VirtualRow p.

Definition ROW_HEIGHT : Z := 40.
Definition VISIBLE_ROWS : Z := 60.
Definition PER_PAGE : Z := 100.

(** The script is shipped with [SIMPLE_SCROLL = true] and copies the
    constant to [window.CAMDRAM_SIMPLE_SCROLL] when it starts.  The
    functions read the window flag, which is the field [simpleScroll]
    of the document below, so both modes can be examined. *)
Definition SIMPLE_SCROLL : bool := true.

(** The query parameters that [fetchPage] puts in the request URL. *)
Record Request := mkRequest {
  rq_page : Z;
  rq_per_page : Z;
  rq_search : string;
  rq_active_only : bool;
  rq_sort_col : string;
  rq_sort_dir : string
}.

(** What a request can settle with.  [RespReject]: [fetch] or
    [r.json()] rejects (network failure, body that is not JSON).
    [RespNull]: the body parses to [null], so reading [res.people]
    throws.  [RespObj people total]: a JSON object; [people] is [None]
    when the field is absent or falsy, [total] is [None] when the field
    is [undefined]. *)
Inductive Response :=
| RespReject
| RespNull
| RespObj (people : option (list Person)) (total : option Z).

(** The [then] callbacks of the script, with the values their closures
    capture. *)
Inductive Cont :=
| KRows (visibleStart visibleEnd : Z) (rangeUnchanged : bool) (bottomHeight : Z)
| KReload
| KMore
| KInit.

(** A request in flight: what was asked, the [append] argument of the
    [fetchPage] call, and the callback attached to the returned promise
    ([None] for a caller that attaches nothing). *)
Record Pending := mkPending {
  pd_request : Request;
  pd_append : bool;
  pd_then : option Cont
}.

(** The script's [let] variables.  [rafId] is [true] while an animation
    frame is requested. *)
Record Vars := mkVars {
  allLoaded : list Person;
  totalCount : Z;
  currentSearch : string;
  currentActiveOnly : bool;
  sortCol : string;
  sortDir : string;
  fetchInFlight : bool;
  theadHeight : Z;
  lastVisibleStart : Z;
  lastVisibleEnd : Z;
  rafId : bool
}.

(** The part of the document the script touches.  [scrollTop],
    [clientHeight] and [scrollHeight] belong to [#people-scroll];
    [theadOffsetHeight] is the laid-out height of the table head;
    [tbodyRows] are the [tr.virtual-row] children of the table body;
    [bottomSpacer] is [#people-spacer-bottom] when it exists, with its
    height and whether it is displayed; [countsShown] is the total
    written by [updateCounts] and whether it is labelled as matching. *)
Record Dom := mkDom {
  simpleScroll : bool;
  scrollTop : Z;
  clientHeight : Z;
  scrollHeight : Z;
  theadOffsetHeight : Z;
  tbodyRows : list Row;
  spacerHeight : Z;
  spacerShown : bool;
  bottomSpacer : option (Z * bool);
  loadingShown : bool;
  innerHeight : Z;
  countsShown : option (Z * bool)
}.

(** What the browser holds for the script: requests in flight, every
    request issued so far (oldest first), and the queue of promise
    reactions waiting to run. *)
Record Sys := mkSys {
  pending : list Pending;
  netlog : list Request;
  microtasks : list Cont
}.

Record State := mkState {
  vars : Vars;
  dom : Dom;
  sys : Sys
}.

Definition on_vars (f : Vars -> Vars) (st : State) : State :=
  mkState (f (vars st)) (dom st) (sys st).
Definition on_dom (f : Dom -> Dom) (st : State) : State :=
  mkState (vars st) (f (dom st)) (sys st).
Definition on_sys (f : Sys -> Sys) (st : State) : State :=
  mkState (vars st) (dom st) (f (sys st)).

Definition set_allLoaded (x : list Person) (v : Vars) : Vars :=
  mkVars x (totalCount v) (currentSearch v) (currentActiveOnly v) (sortCol v)
    (sortDir v) (fetchInFlight v) (theadHeight v) (lastVisibleStart v)
    (lastVisibleEnd v) (rafId v).
Definition set_totalCount (x : Z) (v : Vars) : Vars :=
  mkVars (allLoaded v) x (currentSearch v) (currentActiveOnly v) (sortCol v)
    (sortDir v) (fetchInFlight v) (theadHeight v) (lastVisibleStart v)
    (lastVisibleEnd v) (rafId v).
Definition set_currentSearch (x : string) (v : Vars) : Vars :=
  mkVars (allLoaded v) (totalCount v) x (currentActiveOnly v) (sortCol v)
    (sortDir v) (fetchInFlight v) (theadHeight v) (lastVisibleStart v)
    (lastVisibleEnd v) (rafId v).
Definition set_currentActiveOnly (x : bool) (v : Vars) : Vars :=
  mkVars (allLoaded v) (totalCount v) (currentSearch v) x (sortCol v)
    (sortDir v) (fetchInFlight v) (theadHeight v) (lastVisibleStart v)
    (lastVisibleEnd v) (rafId v).
Definition set_sort (col dir : string) (v : Vars) : Vars :=
  mkVars (allLoaded v) (totalCount v) (currentSearch v) (currentActiveOnly v) col
    dir (fetchInFlight v) (theadHeight v) (lastVisibleStart v)
    (lastVisibleEnd v) (rafId v).
Definition set_fetchInFlight (x : bool) (v : Vars) : Vars :=
  mkVars (allLoaded v) (totalCount v) (currentSearch v) (currentActiveOnly v) (sortCol v)
    (sortDir v) x (theadHeight v) (lastVisibleStart v)
    (lastVisibleEnd v) (rafId v).
Definition set_theadHeight (x : Z) (v : Vars) : Vars :=
  mkVars (allLoaded v) (totalCount v) (currentSearch v) (currentActiveOnly v) (sortCol v)
    (sortDir v) (fetchInFlight v) x (lastVisibleStart v)
    (lastVisibleEnd v) (rafId v).
Definition set_lastVisible (s e : Z) (v : Vars) : Vars :=
  mkVars (allLoaded v) (totalCount v) (currentSearch v) (currentActiveOnly v) (sortCol v)
    (sortDir v) (fetchInFlight v) (theadHeight v) s e (rafId v).
Definition set_rafId (x : bool) (v : Vars) : Vars :=
  mkVars (allLoaded v) (totalCount v) (currentSearch v) (currentActiveOnly v) (sortCol v)
    (sortDir v) (fetchInFlight v) (theadHeight v) (lastVisibleStart v)
    (lastVisibleEnd v) x.

Definition set_scrollTop (x : Z) (d : Dom) : Dom :=
  mkDom (simpleScroll d) x (clientHeight d) (scrollHeight d) (theadOffsetHeight d)
    (tbodyRows d) (spacerHeight d) (spacerShown d) (bottomSpacer d)
    (loadingShown d) (innerHeight d) (countsShown d).
Definition set_scrollHeight (x : Z) (d : Dom) : Dom :=
  mkDom (simpleScroll d) (scrollTop d) (clientHeight d) x (theadOffsetHeight d)
    (tbodyRows d) (spacerHeight d) (spacerShown d) (bottomSpacer d)
    (loadingShown d) (innerHeight d) (countsShown d).
Definition set_tbodyRows (x : list Row) (d : Dom) : Dom :=
  mkDom (simpleScroll d) (scrollTop d) (clientHeight d) (scrollHeight d)
    (theadOffsetHeight d) x (spacerHeight d) (spacerShown d) (bottomSpacer d)
    (loadingShown d) (innerHeight d) (countsShown d).
Definition set_spacer (h : Z) (shown : bool) (d : Dom) : Dom :=
  mkDom (simpleScroll d) (scrollTop d) (clientHeight d) (scrollHeight d)
    (theadOffsetHeight d) (tbodyRows d) h shown (bottomSpacer d)
    (loadingShown d) (innerHeight d) (countsShown d).
Definition set_bottomSpacer (x : option (Z * bool)) (d : Dom) : Dom :=
  mkDom (simpleScroll d) (scrollTop d) (clientHeight d) (scrollHeight d)
    (theadOffsetHeight d) (tbodyRows d) (spacerHeight d) (spacerShown d) x
    (loadingShown d) (innerHeight d) (countsShown d).
Definition set_loadingShown (x : bool) (d : Dom) : Dom :=
  mkDom (simpleScroll d) (scrollTop d) (clientHeight d) (scrollHeight d)
    (theadOffsetHeight d) (tbodyRows d) (spacerHeight d) (spacerShown d)
    (bottomSpacer d) x (innerHeight d) (countsShown d).
Definition set_innerHeight (x : Z) (d : Dom) : Dom :=
  mkDom (simpleScroll d) (scrollTop d) (clientHeight d) (scrollHeight d)
    (theadOffsetHeight d) (tbodyRows d) (spacerHeight d) (spacerShown d)
    (bottomSpacer d) (loadingShown d) x (countsShown d).
Definition set_countsShown (x : option (Z * bool)) (d : Dom) : Dom :=
  mkDom (simpleScroll d) (scrollTop d) (clientHeight d) (scrollHeight d)
    (theadOffsetHeight d) (tbodyRows d) (spacerHeight d) (spacerShown d)
    (bottomSpacer d) (loadingShown d) (innerHeight d) x.

Definition set_pending (x : list Pending) (s : Sys) : Sys :=
  mkSys x (netlog s) (microtasks s).
Definition set_netlog (x : list Request) (s : Sys) : Sys :=
  mkSys (pending s) x (microtasks s).
Definition set_microtasks (x : list Cont) (s : Sys) : Sys :=
  mkSys (pending s) (netlog s) x.

(** Registering a [then] callback on a promise that is already
    resolved queues the callback as a promise reaction. *)
Definition queue_then (k : option Cont) (st : State) : State :=
  match k with
  | Some c => on_sys (fun s => set_microtasks (microtasks s ++ [c]) s) st
  | None => st
  end.

(** *** The window computed at the head of [renderVirtual] *)

Record Window := mkWindow {
  visibleStart : Z;
  visibleEnd : Z;
  topHeight : Z;
  bottomHeight : Z
}.

Definition renderVirtual_window (scrollTop_ theadHeight_ totalCount_ : Z) : Window :=
  let bodyScrollTop := Z.max 0 (scrollTop_ - theadHeight_) in
  let visibleStart0 := Z.max 0 (bodyScrollTop / ROW_HEIGHT) in
  let visibleEnd0 := Z.min totalCount_ (visibleStart0 + VISIBLE_ROWS) in
  let visibleStart1 :=
    if visibleStart0 >=? totalCount_ then Z.max 0 (totalCount_ - VISIBLE_ROWS)
    else visibleStart0 in
  let visibleEnd1 :=
    if visibleEnd0 <=? visibleStart1 then Z.min totalCount_ (visibleStart1 + VISIBLE_ROWS)
    else visibleEnd0 in
  mkWindow visibleStart1 visibleEnd1
    (visibleStart1 * ROW_HEIGHT)
    (Z.max 0 ((totalCount_ - visibleEnd1) * ROW_HEIGHT)).

(** *** Fetching *)

Definition loaded (st : State) : Z := Z.of_nat (length (allLoaded (vars st))).

(** [fetchPage(page, search, append)] up to the point where the request
    is sent.  With a request in flight it returns a resolved promise
    and does nothing else; [k] is what the caller chains on the
    returned promise. *)
Definition fetchPage (page : Z) (search : string) (append : bool)
    (k : option Cont) (st : State) : State :=
  if fetchInFlight (vars st) then queue_then k st
  else
    let st1 := on_vars (set_fetchInFlight true) st in
    let st2 := if append then st1 else on_dom (set_loadingShown true) st1 in
    let rq := mkRequest page PER_PAGE search (currentActiveOnly (vars st))
                (sortCol (vars st)) (sortDir (vars st)) in
    on_sys (fun s => set_netlog (netlog s ++ [rq])
                       (set_pending (pending s ++ [mkPending rq append k]) s)) st2.

Definition ensureDataForRange (start end_ : Z) (k : option Cont) (st : State) : State :=
  let needEnd := Z.min (end_ + 1) (totalCount (vars st)) in
  if (needEnd <=? loaded st) || (totalCount (vars st) =? 0) then queue_then k st
  else
    let nextPage := loaded st / PER_PAGE + 1 in
    fetchPage nextPage (currentSearch (vars st)) true k st.

(** *** Rendering *)

Definition renderVirtual (st : State) : State :=
  if totalCount (vars st) <=? 0 then st
  else
    let st1 :=
      if theadHeight (vars st) =? 0
      then on_vars (set_theadHeight (theadOffsetHeight (dom st))) st
      else st in
    let w := renderVirtual_window (scrollTop (dom st1)) (theadHeight (vars st1))
               (totalCount (vars st1)) in
    let st2 := on_dom (set_spacer (topHeight w) (0 <? topHeight w)) st1 in
    let rangeUnchanged :=
      (lastVisibleStart (vars st2) =? visibleStart w)
      && (lastVisibleEnd (vars st2) =? visibleEnd w) in
    let st3 := on_vars (set_lastVisible (visibleStart w) (visibleEnd w)) st2 in
    ensureDataForRange (visibleStart w) (visibleEnd w)
      (Some (KRows (visibleStart w) (visibleEnd w) rangeUnchanged (bottomHeight w))) st3.

(** The rows built by the loop
    [for (i = visibleStart; i < visibleEnd && i < allLoaded.length; i++)]. *)
Definition window_rows (vs ve : Z) (l : list Person) : list Row :=
  map buildRow
    (take (Z.to_nat (Z.min ve (Z.of_nat (length l)) - vs)) (drop (Z.to_nat vs) l)).

(** The callback that [renderVirtual] chains on [ensureDataForRange]. *)
Definition renderVirtual_then (vs ve : Z) (rangeUnchanged : bool) (bh : Z)
    (st : State) : State :=
  let rowCount := Z.min (ve - vs) (loaded st - vs) in
  if (rowCount <=? 0) && (0 <? totalCount (vars st)) then st
  else if rangeUnchanged && (0 <? rowCount)
          && (Z.of_nat (length (tbodyRows (dom st))) =? rowCount) then st
  else
    let st1 := on_dom (set_tbodyRows (window_rows vs ve (allLoaded (vars st)))) st in
    if 0 <? bh then on_dom (set_bottomSpacer (Some (bh, true))) st1
    else
      match bottomSpacer (dom st1) with
      | Some (h, _) => on_dom (set_bottomSpacer (Some (h, false))) st1
      | None => st1
      end.

Definition updateCounts (st : State) : State :=
  on_dom (set_countsShown
            (Some (totalCount (vars st),
                   negb (String.eqb (currentSearch (vars st)) "")))) st.

(** [window.CAMDRAM_renderSimple].  The geometry of the scroll container
    after the rows have changed is the browser's to compute: see
    [relayout]. *)
Definition renderSimple (st : State) : State :=
  let st1 := on_dom (fun d => set_bottomSpacer None (set_spacer 0 false d)) st in
  let st2 := on_dom (set_tbodyRows (map buildRow (allLoaded (vars st1)))) st1 in
  let st3 := on_vars (set_theadHeight (theadOffsetHeight (dom st2))) st2 in
  on_dom (set_innerHeight (theadHeight (vars st3) + loaded st3 * ROW_HEIGHT)) st3.

Definition maybeLoadMoreSimple (st : State) : State :=
  if fetchInFlight (vars st) then st
  else if totalCount (vars st) <=? loaded st then st
  else
    let thresholdPx := 320 in
    let nearBottom :=
      scrollHeight (dom st) - thresholdPx <=? scrollTop (dom st) + clientHeight (dom st) in
    if negb nearBottom then st
    else fetchPage (loaded st / PER_PAGE + 1) (currentSearch (vars st)) true (Some KMore) st.

(** *** Settlement of a request *)

(** The [catch] handler at the end of the chain in [fetchPage]. *)
Definition fetchPage_catch (st : State) : State :=
  on_dom (set_loadingShown false) (on_vars (set_fetchInFlight false) st).

(** The handler that receives the parsed body [res], in three parts:
    it stores the page, draws the table in the current mode, and
    updates the counts. *)
Definition fetchPage_then_store (append : bool) (people : option (list Person))
    (total : option Z) (st : State) : State :=
  let st1 := if append then st else on_vars (set_allLoaded []) st in
  let st2 := on_vars (fun v => set_allLoaded (allLoaded v ++ default [] people) v) st1 in
  let st3 := on_vars (set_totalCount (default (loaded st2) total)) st2 in
  let st4 :=
    if 0 <? totalCount (vars st3) then
      let st' := on_vars (set_theadHeight (theadOffsetHeight (dom st3))) st3 in
      on_dom (set_innerHeight
                (theadHeight (vars st') + totalCount (vars st') * ROW_HEIGHT)) st'
    else st3 in
  on_vars (fun v => set_lastVisible (-1) (-1) (set_fetchInFlight false v))
    (on_dom (set_loadingShown false) st4).

Definition draw (st : State) : State :=
  if simpleScroll (dom st) then renderSimple st else renderVirtual st.

Definition fetchPage_then (append : bool) (people : option (list Person))
    (total : option Z) (st : State) : State :=
  updateCounts (draw (fetchPage_then_store append people total st)).

(** The oldest request in flight settles with [resp]; afterwards the
    promise returned by [fetchPage] resolves and its callback is
    queued. *)
Definition settle (resp : Response) (st : State) : State :=
  match pending (sys st) with
  | [] => st
  | p :: rest =>
      let st0 := on_sys (set_pending rest) st in
      let st1 :=
        match resp with
        | RespReject => fetchPage_catch st0
        | RespNull =>
            fetchPage_catch
              (if pd_append p then st0 else on_vars (set_allLoaded []) st0)
        | RespObj people total => fetchPage_then (pd_append p) people total st0
        end in
      queue_then (pd_then p) st1
  end.

(** *** Query changes and scrolling *)

Definition reloadPeopleAndResetScroll (st : State) : State :=
  fetchPage 1 (currentSearch (vars st)) false (Some KReload) st.

Definition reloadPeopleAndResetScroll_then (st : State) : State :=
  let st1 := on_dom (set_scrollTop 0) st in
  if simpleScroll (dom st1) then maybeLoadMoreSimple st1 else renderVirtual st1.

Definition onScroll (st : State) : State := on_vars (set_rafId true) st.

Definition run_cont (k : Cont) (st : State) : State :=
  match k with
  | KRows vs ve ru bh => renderVirtual_then vs ve ru bh st
  | KReload => reloadPeopleAndResetScroll_then st
  | KMore => maybeLoadMoreSimple st
  | KInit => if simpleScroll (dom st) then maybeLoadMoreSimple st else st
  end.


(** The browser lays the scroll container out again after its content
    has changed; [h] is the [scrollHeight] it then reports. *)
Definition relayout (h : Z) (st : State) : State := on_dom (set_scrollHeight h) st.

(** The first page requested when the script starts. *)
Definition initial_load (st : State) : State := fetchPage 1 "" false (Some KInit) st.

(** The click handler of a column header; [clickedCol] and [type] are
    the header's [data-col] and [data-type]. *)
Definition sort_click (clickedCol type : string) (st : State) : State :=
  if String.eqb clickedCol "" then st
  else
    let v := vars st in
    let st1 :=
      if String.eqb clickedCol (sortCol v)
      then on_vars (set_sort (sortCol v)
                      (if String.eqb (sortDir v) "asc" then "desc" else "asc")) st
      else on_vars (set_sort clickedCol
                      (if String.eqb type "string" then "asc" else "desc")) st in
    reloadPeopleAndResetScroll st1.

(** What the event loop delivers to the script.  [ESearch s]: the
    debounce timer fires and the trimmed input value is [s].
    [EScroll top]: the container is scrolled to [top].  [EFrame]: an
    animation frame.  [ESettle r]: the oldest request settles.
    [EMicro]: the next promise reaction runs. *)
Inductive Event :=
| ESearch (s : string)
| EActiveOnly (checked : bool)
| ESortClick (clickedCol type : string)
| EScroll (top : Z)
| EFrame
| ESettle (r : Response)
| EMicro.

Definition handle (ev : Event) (st : State) : State :=
  match ev with
  | ESearch s => reloadPeopleAndResetScroll (on_vars (set_currentSearch s) st)
  | EActiveOnly b => reloadPeopleAndResetScroll (on_vars (set_currentActiveOnly b) st)
  | ESortClick c t => sort_click c t st
  | EScroll top =>
      let st1 := on_dom (set_scrollTop top) st in
      if simpleScroll (dom st1) then maybeLoadMoreSimple st1 else onScroll st1
  | EFrame =>
      if rafId (vars st) then renderVirtual (on_vars (set_rafId false) st) else st
  | ESettle r => settle r st
  | EMicro =>
      match microtasks (sys st) with
      | [] => st
      | k :: rest => run_cont k (on_sys (set_microtasks rest) st)
      end
  end.

Definition run (evs : list Event) (st : State) : State :=
  fold_left (fun s ev => handle ev s) evs st.

(** Promise reactions run to completion before the event loop delivers
    the next event.  [KReload] can queue one further reaction, the other
    callbacks queue none, so [weight] bounds the number of steps. *)
Definition weight (k : Cont) : nat :=
  match k with
  | KReload => 2%nat
  | _ => 1%nat
  end.

Definition weights (l : list Cont) : nat := foldr (fun k n => (weight k + n)%nat) 0%nat l.

Definition queue_weight (st : State) : nat := weights (microtasks (sys st)).

Fixpoint drain_fuel (fuel : nat) (st : State) : State :=
  match fuel with
  | O => st
  | S n =>
      match microtasks (sys st) with
      | [] => st
      | _ :: _ => drain_fuel n (handle EMicro st)
      end
  end.

Definition drain (st : State) : State := drain_fuel (queue_weight st) st.

(** One turn of the event loop: the event, then every promise reaction
    it leaves behind. *)
Definition dispatch (ev : Event) (st : State) : State := drain (handle ev st).

Definition dispatch_all (evs : list Event) (st : State) : State :=
  fold_left (fun s ev => dispatch ev s) evs st.

(** The state in which the script leaves its variables before the first
    request, for a host page that reports [totalPeople] and the table's
    sort attributes.  [d] is the document with the window flag as the
    script has set it: [simpleScroll d] is [SIMPLE_SCROLL] for the script
    as it is shipped. *)
Definition start_vars (totalPeople : Z) (col dir : string) : Vars :=
  mkVars [] totalPeople "" false col dir false 0 (-1) (-1) false.

Definition start (totalPeople : Z) (col dir : string) (d : Dom) : State :=
  initial_load (mkState (start_vars totalPeople col dir) d (mkSys [] [] [])).

(** *** Links to a person *)

(** The character "0". *)
Definition zero_char : Ascii.ascii := Ascii.ascii_of_nat 48.

(** [template.replace(/0$/, replacement)]: a final "0" of the template
    is replaced, and a template that does not end in "0" is returned as
    it is. *)
Fixpoint replace_final_zero (template replacement : string) : string :=
  match template with
  | String.EmptyString => String.EmptyString
  | String.String c rest =>
      match rest with
      | String.EmptyString =>
          if Ascii.eqb c zero_char then replacement else template
      | String.String _ _ => String.String c (replace_final_zero rest replacement)
      end
  end.

(** [personStatsUrl(pid)], for the template the host page gives and an
    integer [pid]; [pretty] writes an integer as [String] does. *)
Definition personStatsUrl (personUrlTemplate : string) (pid : Z) : string :=
  replace_final_zero personUrlTemplate (pretty pid).

(** *** The ranking of one role *)

(** An entry of [roleDataByRole[roleName]]. *)
Record Ranked := mkRanked {
  rk_pid : Z;
  rk_name : string;
  rk_count : Z
}.

(** The text of [#role-meta]. *)
Inductive RoleMeta :=
| MetaChoose
| MetaNoData
| MetaPeople (n : nat).

(** The "By role" panel: the data by role, the title, the text under
    it, and the rows of the ranking table, each with its rank. *)
Record RoleTab := mkRoleTab {
  roleDataByRole : gmap string (list Ranked);
  roleRankTitle : string;
  roleMeta : RoleMeta;
  roleRankRows : list (nat * Ranked)
}.

(** The loop of [selectRole] over [ranked]: [i] is the index, [rank] and
    [prevCount] are the loop's variables. *)
Fixpoint rank_rows (i rank : nat) (prevCount : option Z) (ranked : list Ranked)
    : list (nat * Ranked) :=
  match ranked with
  | [] => []
  | p :: rest =>
      let rank' :=
        match prevCount with
        | None => S i
        | Some c => if negb (rk_count p =? c) then S i else rank
        end in
      (rank', p) :: rank_rows (S i) rank' (Some (rk_count p)) rest
  end.

(** [roleDataByRole] is a plain object, and [roleDataByRole tab] holds
    its own entries.  Under a name that it does not hold itself the
    object finds what every object inherits: a function, whose [length]
    is its number of parameters, and under [__proto__] an object
    without [length], counted as 0 here. *)
Definition inherited_lengths : list (string * nat) :=
  [("constructor", 1); ("hasOwnProperty", 1); ("isPrototypeOf", 1);
   ("propertyIsEnumerable", 1); ("toLocaleString", 0); ("toString", 0);
   ("valueOf", 0); ("__defineGetter__", 2); ("__defineSetter__", 2);
   ("__lookupGetter__", 1); ("__lookupSetter__", 1); ("__proto__", 0)]%nat.

Definition inherited_length (name : string) : option nat :=
  (list_to_map inherited_lengths : gmap string nat) !! name.

(** [selectRole(roleName)].  When the value found is inherited and has
    a positive [length], the title and the text are written and
    [ranked.forEach] throws, which leaves the rows as they were. *)
Definition selectRole (roleName : string) (tab : RoleTab) : RoleTab :=
  if String.eqb roleName "" then tab
  else
    let no_data := mkRoleTab (roleDataByRole tab) roleName MetaNoData [] in
    match roleDataByRole tab !! roleName with
    | Some [] => no_data
    | Some ranked =>
        mkRoleTab (roleDataByRole tab) roleName (MetaPeople (length ranked))
          (rank_rows 0 0 None ranked)
    | None =>
        match inherited_length roleName with
        | Some (S n) =>
            mkRoleTab (roleDataByRole tab) roleName (MetaPeople (S n)) (roleRankRows tab)
        | _ => no_data
        end
    end.

(** The number of entries with a count above [c]. *)
Fixpoint count_above (c : Z) (l : list Ranked) : nat :=
  match l with
  | [] => 0%nat
  | q :: l' => ((if (c <? rk_count q)%Z then 1 else 0) + count_above c l')%nat
  end.

(** *** The list of roles *)

(** An entry of [roleDataRoles]. *)
Record RoleInfo := mkRoleInfo {
  ri_name : string;
  ri_main_group : option string;
  ri_category : option string;
  ri_num_people : Z
}.

(** An [li] of [#role-list]: the header of a main group, the header of
    a category, or a role with its [data-role] and its number. *)
Inductive RoleLi :=
| MainHeader (text : string)
| SubHeader (text : string)
| RoleItem (data_role : string) (num_people : Z).

Definition mainOrder : list string := ["Tech"; "Prod"; "Cast"; "Band"].

(** [x || d] for a string that may be missing. *)
Definition text_or (x : option string) (d : string) : string :=
  match x with
  | Some s => if String.eqb s "" then d else s
  | None => d
  end.

Definition main_of (r : RoleInfo) : string := text_or (ri_main_group r) "Prod".
Definition sub_of (r : RoleInfo) : string :=
  text_or (ri_category r) "Unknown / Unclassified".

(** The names under which [bySub = {}] finds an inherited value before
    anything is stored in it. *)
Definition inherited_keys : list string :=
  ["constructor"; "hasOwnProperty"; "isPrototypeOf"; "propertyIsEnumerable";
   "toLocaleString"; "toString"; "valueOf"; "__defineGetter__";
   "__defineSetter__"; "__lookupGetter__"; "__lookupSetter__"; "__proto__"].

(** The loop that fills [bySub].  Under an inherited name the value
    found is not an array, so [push] throws: [None]. *)
Fixpoint fill_bySub (inMain : list RoleInfo) (bySub : gmap string (list RoleInfo))
    : option (gmap string (list RoleInfo)) :=
  match inMain with
  | [] => Some bySub
  | r :: rest =>
      let sub := sub_of r in
      match bySub !! sub with
      | Some rs => fill_bySub rest (<[sub := rs ++ [r]]> bySub)
      | None =>
          if bool_decide (sub ∈ inherited_keys) then None
          else fill_bySub rest (<[sub := [r]]> bySub)
      end
  end.

(** [Object.keys(bySub).sort()]: the keys in the order of their code
    units. *)
Definition sorted_keys (bySub : gmap string (list RoleInfo)) : list string :=
  merge_sort String.le (elements (base.dom bySub)).

Definition role_li (r : RoleInfo) : RoleLi := RoleItem (ri_name r) (ri_num_people r).

Section RoleList.

(** [a.localeCompare(b)], which depends on the locale of the browser. *)
Variable localeCompare : string -> string -> Z.

(** The function given to [sort]. *)
Definition compare_roles (a b : RoleInfo) : Z :=
  if negb (ri_num_people b =? ri_num_people a)
  then ri_num_people b - ri_num_people a
  else localeCompare (ri_name a) (ri_name b).

(** [Array.prototype.sort] is stable: a role is put before the first
    role that it does not come after, from the last role to the
    first. *)
Fixpoint insert_role (r : RoleInfo) (l : list RoleInfo) : list RoleInfo :=
  match l with
  | [] => [r]
  | x :: l' => if compare_roles r x <=? 0 then r :: l else x :: insert_role r l'
  end.

Definition sort_roles (l : list RoleInfo) : list RoleInfo := foldr insert_role [] l.

Definition render_sub (bySub : gmap string (list RoleInfo)) (sub : string) : list RoleLi :=
  SubHeader sub :: map role_li (sort_roles (default [] (bySub !! sub))).

(** One round of [mainOrder.forEach]. *)
Definition render_main (roles : list RoleInfo) (main : string) : option (list RoleLi) :=
  let inMain := filter (fun r => main_of r = main) roles in
  if (length inMain =? 0)%nat then Some []
  else
    match fill_bySub inMain ∅ with
    | None => None
    | Some bySub =>
        Some (MainHeader main :: concat (map (render_sub bySub) (sorted_keys bySub)))
    end.

Fixpoint render_mains (roles : list RoleInfo) (mains : list string)
    : option (list RoleLi) :=
  match mains with
  | [] => Some []
  | main :: rest =>
      match render_main roles main with
      | None => None
      | Some frag =>
          match render_mains roles rest with
          | None => None
          | Some frags => Some (frag ++ frags)
          end
      end
  end.

(** [renderRoleList]: the new content of [#role-list], or [None] when
    the function throws, which leaves the list as it was. *)
Definition renderRoleList (roles : list RoleInfo) : option (list RoleLi) :=
  render_mains roles mainOrder.

End RoleList.

(** The roles of a list, without the headers. *)
Fixpoint role_items (items : list RoleLi) : list (string * Z) :=
  match items with
  | [] => []
  | RoleItem name n :: rest => (name, n) :: role_items rest
  | _ :: rest => role_items rest
  end.

(** The texts of the main headers of a list. *)
Fixpoint main_headers (items : list RoleLi) : list string :=
  match items with
  | [] => []
  | MainHeader text :: rest => text :: main_headers rest
  | _ :: rest => main_headers rest
  end.

Definition is_main (x : RoleLi) : bool :=
  match x with MainHeader _ => true | _ => false end.

Definition is_header (x : RoleLi) : bool :=
  match x with RoleItem _ _ => false | _ => true end.

Definition pick_role (x : RoleLi) : option (string * Z) :=
  match x with RoleItem name n => Some (name, n) | _ => None end.

Definition pick_sub (x : RoleLi) : option string :=
  match x with SubHeader text => Some text | _ => None end.

Definition cons_head {A} (a : A) (ls : list (list A)) : list (list A) :=
  match ls with
  | s :: ss => (a :: s) :: ss
  | [] => [[a]]
  end.

(** The list cut at the elements that [sep] holds of: what [pick]
    finds before the first of them, and after each up to the next. *)
Fixpoint runs {A} (pick : RoleLi -> option A) (sep : RoleLi -> bool)
    (items : list RoleLi) : list (list A) :=
  match items with
  | [] => [[]]
  | x :: rest =>
      if sep x then [] :: runs pick sep rest
      else
        match pick x with
        | Some a => cons_head a (runs pick sep rest)
        | None => runs pick sep rest
        end
  end.

(** The roles between one header and the next. *)
Definition sections (items : list RoleLi) : list (list (string * Z)) :=
  runs pick_role is_header items.

(** The category headers between one main header and the next. *)
Definition sub_headers (items : list RoleLi) : list (list string) :=
  runs pick_sub is_main items.

(** The list is empty or begins with an element that [sep] holds of. *)
Definition starts_with (sep : RoleLi -> bool) (items : list RoleLi) : Prop :=
  match items with
  | [] => True
  | x :: _ => sep x = true
  end.

(** What a role shows in the list. *)
Definition role_data (r : RoleInfo) : string * Z := (ri_name r, ri_num_people r).

Definition more_people_first (a b : string * Z) : Prop := b.2 <= a.2.

Definition keys_in_order (s : list string) : Prop := Sorted String.le s /\ NoDup s.

(** *** Predicates used in the statements *)

(** The head height that [renderVirtual] works with. *)
Definition head_height (st : State) : Z :=
  if theadHeight (vars st) =? 0 then theadOffsetHeight (dom st) else theadHeight (vars st).

(** [covered end_ st]: the test by which [ensureDataForRange] decides
    that rows up to [end_] need no request. *)
Definition covered (end_ : Z) (st : State) : Prop :=
  Z.min (end_ + 1) (totalCount (vars st)) <= loaded st \/ totalCount (vars st) = 0.

(** The request that [fetchPage] sends from state [st]. *)
Definition request_of (page : Z) (search : string) (st : State) : Request :=
  mkRequest page PER_PAGE search (currentActiveOnly (vars st))
    (sortCol (vars st)) (sortDir (vars st)).

(** [quiet st st']: between [st] and [st'] either nothing happened on
    the network, or nothing was in flight in [st] and exactly one
    request was sent, which is in flight in [st']. *)
Inductive quiet (st st' : State) : Prop :=
| quiet_same :
    fetchInFlight (vars st') = fetchInFlight (vars st) ->
    pending (sys st') = pending (sys st) ->
    netlog (sys st') = netlog (sys st) ->
    quiet st st'
| quiet_sent (rq : Request) (ap : bool) (k : option Cont) :
    fetchInFlight (vars st) = false ->
    fetchInFlight (vars st') = true ->
    pending (sys st') = pending (sys st) ++ [mkPending rq ap k] ->
    netlog (sys st') = netlog (sys st) ++ [rq] ->
    quiet st st'.

(** The events that settle a request, and those that change the
    query. *)
Definition is_settle (ev : Event) : bool :=
  match ev with ESettle _ => true | _ => false end.

(** [coherent st]: the flag [fetchInFlight] tells the truth about the
    network, and at most one request is in flight. *)
Definition coherent (st : State) : Prop :=
  (fetchInFlight (vars st) = false /\ pending (sys st) = [])
  \/ (fetchInFlight (vars st) = true /\ exists p, pending (sys st) = [p]).

(** A sequence of [ensureDataForRange] calls, each with its range and
    the callback chained on it. *)
Definition ensure_calls (calls : list (Z * Z * option Cont)) (st : State) : State :=
  fold_left (fun s c => ensureDataForRange c.1.1 c.1.2 c.2 s) calls st.

Definition vars_data (v : Vars) :=
  (allLoaded v, totalCount v, currentSearch v, currentActiveOnly v, sortCol v, sortDir v).

Definition dom_data (d : Dom) :=
  (simpleScroll d, scrollTop d, clientHeight d, scrollHeight d, theadOffsetHeight d,
   tbodyRows d, bottomSpacer d).

Definition same_data (st st' : State) : Prop :=
  vars_data (vars st') = vars_data (vars st) /\ dom_data (dom st') = dom_data (dom st).

Definition stored (append : bool) (people : option (list Person)) (st : State) : list Person :=
  (if append then allLoaded (vars st) else []) ++ default [] people.

(** The events that change the query: a search, the active-only box,
    and a click on a header that names a column. *)
Definition is_query_change (ev : Event) : bool :=
  match ev with
  | ESearch _ | EActiveOnly _ => true
  | ESortClick clickedCol _ => negb (String.eqb clickedCol "")
  | _ => false
  end.

(** [asks_for ev st rq]: [rq] asks for page 1 of the query that the
    event [ev] makes of the query of [st]: the search text or the
    active-only flag of the event, or the column clicked with its
    direction, and the rest as in [st]. *)
Definition asks_for (ev : Event) (st : State) (rq : Request) : Prop :=
  let v := vars st in
  rq_page rq = 1
  /\ rq_per_page rq = PER_PAGE
  /\ match ev with
     | ESearch s =>
         rq_search rq = s
         /\ rq_active_only rq = currentActiveOnly v
         /\ rq_sort_col rq = sortCol v
         /\ rq_sort_dir rq = sortDir v
     | EActiveOnly checked =>
         rq_search rq = currentSearch v
         /\ rq_active_only rq = checked
         /\ rq_sort_col rq = sortCol v
         /\ rq_sort_dir rq = sortDir v
     | ESortClick clickedCol type =>
         rq_search rq = currentSearch v
         /\ rq_active_only rq = currentActiveOnly v
         /\ rq_sort_col rq = clickedCol
         /\ rq_sort_dir rq
            = (if String.eqb clickedCol (sortCol v)
               then (if String.eqb (sortDir v) "asc" then "desc" else "asc")
               else (if String.eqb type "string" then "asc" else "desc"))
     | _ => False
     end.

(** The callbacks chained on a sequence of [ensureDataForRange] calls. *)
Definition chained (calls : list (Z * Z * option Cont)) : list Cont :=
  omap (fun c => c.2) calls.

(** A request as the script means to send it: [PER_PAGE] records of a
    page numbered from 1. *)
Definition request_ok (rq : Request) : Prop :=
  rq_per_page rq = PER_PAGE /\ 1 <= rq_page rq.

(** [tidy st]: every request sent so far is well formed, and the loading
    indicator is shown only while a request is in flight. *)
Definition tidy (st : State) : Prop :=
  Forall request_ok (netlog (sys st))
  /\ (loadingShown (dom st) = true -> fetchInFlight (vars st) = true).

(** The callback of [renderVirtual], as opposed to the others. *)
Definition is_rows (k : Cont) : bool :=
  match k with
  | KRows _ _ _ _ => true
  | _ => false
  end.

(** [simple_view st]: the page is in simple mode, nothing of the virtual
    renderer is scheduled, and the rows of the table are the loaded
    records. *)
Definition simple_view (st : State) : Prop :=
  simpleScroll (dom st) = true
  /\ rafId (vars st) = false
  /\ Forall (fun k => is_rows k = false) (microtasks (sys st))
  /\ Forall (fun p => forall k, pd_then p = Some k -> is_rows k = false) (pending (sys st))
  /\ tbodyRows (dom st) = map buildRow (allLoaded (vars st)).

(** Every event but the settlement of a request with a null body. *)
Definition no_null_body (ev : Event) : bool :=
  match ev with
  | ESettle RespNull => false
  | _ => true
  end.

(** *** Sample data for the concrete runs *)

Definition person (i : Z) (nm : string) : Person := mkPerson i nm "" 1 1 1 "" 0 "".

Definition page_of (nm : string) (from : Z) (n : nat) : list Person :=
  map (fun i => person (from + Z.of_nat i) nm) (seq 0 n).

(** A document whose scroll container is 700px high over 4030px of
    content, with a 30px table head. *)
Definition table_dom (simple : bool) : Dom :=
  mkDom simple 0 700 4030 30 [] 0 false None false 0 None.

(** Page 1 of 250 people is loaded, nothing is in flight. *)
Definition one_page_loaded (simple : bool) : State :=
  mkState (mkVars (page_of "ann" 0 100) 250 "" false "count" "desc" false 30 (-1) (-1) false)
    (table_dom simple) (mkSys [] [] []).

(** Rows 0 to 59 are drawn from page 1, the window is scrolled to row
    120, and page 2 has not arrived. *)
Definition scrolled_ahead : State :=
  on_dom (fun d => set_scrollTop 4830
                     (set_tbodyRows (window_rows 0 60 (page_of "ann" 0 100)) d))
    (one_page_loaded false).

(** A request is in flight, for page 2. *)
Definition page2_in_flight : State :=
  ensureDataForRange 120 180 None (one_page_loaded false).

Definition arrives (people : list Person) (total : Z) : Event :=
  ESettle (RespObj (Some people) (Some total)).

Definition started (simple : bool) : State := start 250 "count" "desc" (table_dom simple).

(** Simple mode: page 1 has arrived and the user has scrolled a little. *)
Definition browsing : State :=
  dispatch_all [arrives (page_of "ann" 0 100) 250; EScroll 500] (started true).


(** Simple mode: the user has scrolled near the bottom and page 2 is in
    flight. *)
Definition near_bottom : State :=
  dispatch_all [arrives (page_of "ann" 0 100) 250; EScroll 3100] (started true).

(** Simple mode: the user has scrolled to 3300px, 30px above the end
    of the 4030px of content, and page 2 is in flight.  With five more
    rows the content is 4230px high. *)
Definition at_bottom : State :=
  dispatch_all [arrives (page_of "ann" 0 100) 250; EScroll 3300] (started true).

(** Virtual mode: scrolled to row 120 with page 1 loaded, before and
    after the animation frame that redraws. *)
Definition awaiting_page2 : State :=
  dispatch_all [arrives (page_of "ann" 0 100) 250; EScroll 4830; EFrame] (started false).

Definition row120_drawn : State :=
  dispatch (arrives (page_of "ann" 100 100) 250) awaiting_page2.

(** Virtual mode: from there, a search that matches nobody. *)
Definition searched_nobody : State :=
  dispatch_all [ESearch "zzz"; arrives [] 0] row120_drawn.

(** A sample of roles, and the comparison of names by code units. *)
Definition code_unit_compare (a b : string) : Z :=
  if String.eqb a b then 0 else if String.leb a b then -1 else 1.

Definition sample_roles : list RoleInfo :=
  [mkRoleInfo "Director" None (Some "Direction") 12;
   mkRoleInfo "Lighting Designer" (Some "Tech") (Some "Lighting") 30;
   mkRoleInfo "Hamlet" (Some "Cast") None 1;
   mkRoleInfo "Chief Electrician" (Some "Tech") (Some "Lighting") 41;
   mkRoleInfo "Usher" (Some "Front of House") None 5;
   mkRoleInfo "Sound Designer" (Some "Tech") (Some "Audio") 30;
   mkRoleInfo "Producer" (Some "") (Some "") 12].

End PeopleTable.

(** ** The role-organisation page *)

Module RoleOrganisation.

Definition SOURCE_RENDER_CHUNK : nat := 220.

(** An entry of [roleOptions]; [r_count] is [None] when the entry has no
    numeric [count]. *)
Record Role := mkRole {
  r_name : string;
  r_count : option Z
}.

(** A [li.role-org-source-item]: the role its checkbox stands for, the
    count in its label, and whether the checkbox was created checked. *)
Record Item := mkItem {
  it_name : string;
  it_count : option Z;
  it_checked : bool
}.

(** A callback handed to [requestAnimationFrame] by [appendChunk]: the
    closure holds the token and the filtered list of its
    [renderSourceList] call, and the index to go on from. *)
Record Chunk := mkChunk {
  ck_token : Z;
  ck_filtered : list Role;
  ck_start : nat
}.

(** The script's variables and the elements it writes.  [sourceList]
    holds the children of [#role-org-source-list]; [selectedMeta] is the
    text of [#role-org-selected-meta] as the number of selected roles
    and, when shown, the filtered count and the number of options;
    [frames] are the callbacks waiting for the next animation frame. *)
Record State := mkState {
  roleOptions : list Role;
  selected : gset string;
  query : string;
  renderToken : Z;
  sourceList : list Item;
  selectedMeta : nat * option (nat * nat);
  frames : list Chunk
}.

Definition set_roleOptions (x : list Role) (st : State) : State :=
  mkState x (selected st) (query st) (renderToken st) (sourceList st)
    (selectedMeta st) (frames st).
Definition set_selected (x : gset string) (st : State) : State :=
  mkState (roleOptions st) x (query st) (renderToken st) (sourceList st)
    (selectedMeta st) (frames st).
Definition set_query (x : string) (st : State) : State :=
  mkState (roleOptions st) (selected st) x (renderToken st) (sourceList st)
    (selectedMeta st) (frames st).
Definition set_renderToken (x : Z) (st : State) : State :=
  mkState (roleOptions st) (selected st) (query st) x (sourceList st)
    (selectedMeta st) (frames st).
Definition set_sourceList (x : list Item) (st : State) : State :=
  mkState (roleOptions st) (selected st) (query st) (renderToken st) x
    (selectedMeta st) (frames st).
Definition set_selectedMeta (x : nat * option (nat * nat)) (st : State) : State :=
  mkState (roleOptions st) (selected st) (query st) (renderToken st) (sourceList st)
    x (frames st).
Definition set_frames (x : list Chunk) (st : State) : State :=
  mkState (roleOptions st) (selected st) (query st) (renderToken st) (sourceList st)
    (selectedMeta st) x.

(** *** Strings.  Letters outside ASCII are left as they are by
    [toLowerCase], and [trim] strips the ASCII white space: on strings
    of ASCII characters these are [String.prototype.toLowerCase] and
    [String.prototype.trim], and the statements that depend on them are
    made for such strings. *)

Fixpoint is_ascii (s : string) : bool :=
  match s with
  | String.EmptyString => true
  | String.String c s' => (Ascii.nat_of_ascii c <? 128)%nat && is_ascii s'
  end.

Definition lower_ascii (c : Ascii.ascii) : Ascii.ascii :=
  let n := Ascii.nat_of_ascii c in
  if (65 <=? n)%nat && (n <=? 90)%nat then Ascii.ascii_of_nat (n + 32) else c.

Fixpoint toLowerCase (s : string) : string :=
  match s with
  | String.EmptyString => String.EmptyString
  | String.String c s' => String.String (lower_ascii c) (toLowerCase s')
  end.

Definition is_space (c : Ascii.ascii) : bool :=
  let n := Ascii.nat_of_ascii c in
  ((9 <=? n)%nat && (n <=? 13)%nat) || (n =? 32)%nat.

Fixpoint trim_start (s : string) : string :=
  match s with
  | String.EmptyString => String.EmptyString
  | String.String c s' => if is_space c then trim_start s' else s
  end.

Definition trim (s : string) : string :=
  String.rev (trim_start (String.rev (trim_start s))).

(** [s.indexOf(q) >= 0]. *)
Fixpoint includes (q s : string) : bool :=
  String.prefix q s
  || match s with
     | String.EmptyString => false
     | String.String _ s' => includes q s'
     end.

Definition roleMatchesQuery (role : Role) (q : string) : bool :=
  if String.eqb q "" then true
  else includes q (toLowerCase (r_name role)).

(** *** Rendering the source list *)

Definition updateSelectedMeta (filteredCount : option nat) (st : State) : State :=
  match filteredCount with
  | Some n =>
      set_selectedMeta (size (selected st), Some (n, length (roleOptions st))) st
  | None => set_selectedMeta (size (selected st), None) st
  end.

Definition createSourceItem (st : State) (role : Role) : Item :=
  mkItem (r_name role) (r_count role) (bool_decide (r_name role ∈ selected st)).

(** One run of [appendChunk(startIdx)] inside the [renderSourceList]
    call that took [token] and computed [filtered]. *)
Definition appendChunk (token : Z) (filtered : list Role) (startIdx : nat)
    (st : State) : State :=
  if negb (token =? renderToken st) then st
  else
    let endIdx := Nat.min (length filtered) (startIdx + SOURCE_RENDER_CHUNK) in
    let frag := map (createSourceItem st) (take (endIdx - startIdx) (drop startIdx filtered)) in
    let st1 := set_sourceList (sourceList st ++ frag) st in
    if (endIdx <? length filtered)%nat
    then set_frames (frames st1 ++ [mkChunk token filtered endIdx]) st1
    else st1.

Definition filtered_roles (st : State) : list Role :=
  let q := toLowerCase (trim (query st)) in
  filter (fun r => roleMatchesQuery r q = true) (roleOptions st).

Definition renderSourceList (st : State) : State :=
  let filtered := filtered_roles st in
  let token := renderToken st + 1 in
  let st1 := set_renderToken token st in
  let st2 := set_sourceList [] st1 in
  let st3 := updateSelectedMeta (Some (length filtered)) st2 in
  appendChunk token filtered 0 st3.

(** [applyPayload], as far as the source list is concerned. *)
Definition applyPayload (available_roles : list Role) (st : State) : State :=
  renderSourceList (set_roleOptions available_roles st).

(** What the event loop delivers.  [EInput v]: the debounce timer of
    the search box fires and the box holds [v].  [EFrame]: an animation
    frame runs the callbacks queued for it.  [EChange role checked]: a
    checkbox of the list, whose [data-role] is [role], changes.  [EPayload roles]: a payload with
    these roles is applied.  [ESaved roles]: a consolidation was saved,
    which also empties the selection. *)
Inductive Event :=
| EInput (value : string)
| EFrame
| EChange (role : string) (checked : bool)
| EPayload (available_roles : list Role)
| ESaved (available_roles : list Role).

Definition run_chunk (st : State) (c : Chunk) : State :=
  appendChunk (ck_token c) (ck_filtered c) (ck_start c) st.

Definition handle (ev : Event) (st : State) : State :=
  match ev with
  | EInput v => renderSourceList (set_query v st)
  | EFrame => fold_left run_chunk (frames st) (set_frames [] st)
  | EChange role checked =>
      if String.eqb role "" then st
      else
        updateSelectedMeta None
          (set_selected (if checked then {[role]} ∪ selected st
                         else selected st ∖ {[role]}) st)
  | EPayload roles => applyPayload roles st
  | ESaved roles => applyPayload roles (set_selected ∅ st)
  end.

Definition run (evs : list Event) (st : State) : State :=
  fold_left (fun s ev => handle ev s) evs st.

(** The page as the script leaves it before the first payload. *)
Definition initial : State := mkState [] ∅ "" 0 [] (0%nat, None) [].

(** *** Predicates used in the statements *)

(** [endIdx] in [appendChunk]. *)
Definition chunk_end (filtered : list Role) (startIdx : nat) : nat :=
  Nat.min (length filtered) (startIdx + SOURCE_RENDER_CHUNK).

(** [jobs_ok F tok shown js]: with [tok] the current token, [F] the
    filtered list of the render that took it and [shown] the names in
    the list, the queued callbacks [js] hold at most one callback of
    that render, which goes on exactly where [shown] ends. *)
Fixpoint jobs_ok (F : list Role) (tok : Z) (shown : list string) (js : list Chunk) : Prop :=
  match js with
  | [] => exists n, shown = take n (map r_name F)
  | c :: js' =>
      if ck_token c =? tok
      then ck_filtered c = F
           /\ shown = take (ck_start c) (map r_name F)
           /\ Forall (fun c' => ck_token c' <> tok) js'
      else jobs_ok F tok shown js'
  end.

(** The events that call [renderSourceList]. *)
Definition is_render (ev : Event) : bool :=
  match ev with
  | EInput _ | EPayload _ | ESaved _ => true
  | EFrame | EChange _ _ => false
  end.

(** No queued callback carries a token above the current one. *)
Definition tokens_bounded (st : State) : Prop :=
  Forall (fun c => ck_token c <= renderToken st) (frames st).

(** *** Saving a consolidation *)

(** [selectedValues()]. *)
Definition selectedValues (st : State) : list string :=
  map r_name (filter (fun r => r_name r ∈ selected st) (roleOptions st)).

(** The body of a POST to [cfg.updateUrl]. *)
Record Post := mkPost { targetRole : string; sourceRoles : list string }.

(** The parsed body of an answer, as far as the script reads it. *)
Record Payload := mkPayload {
  p_ok : bool;
  p_error : option string;
  p_changed : option Z;
  p_available_roles : list Role
}.

(** How a POST settles: it is rejected or its body does not parse to
    an object ([Failed]), or the body is an object. *)
Inductive Answer :=
| Failed
| Body (p : Payload).

(** The page together with the form under the list: the text of the
    target box, [consolidateBtn.disabled], the feedback line with its
    error class, and the bodies posted so far. *)
Record Form := mkForm {
  page : State;
  targetInput : string;
  disabled : bool;
  feedback : string * bool;
  posted : list Post
}.

Definition set_page (x : State) (f : Form) : Form :=
  mkForm x (targetInput f) (disabled f) (feedback f) (posted f).
Definition set_targetInput (x : string) (f : Form) : Form :=
  mkForm (page f) x (disabled f) (feedback f) (posted f).
Definition set_disabled (x : bool) (f : Form) : Form :=
  mkForm (page f) (targetInput f) x (feedback f) (posted f).
Definition set_posted (x : list Post) (f : Form) : Form :=
  mkForm (page f) (targetInput f) (disabled f) (feedback f) x.

Definition setFeedback (message : string) (isError : bool) (f : Form) : Form :=
  mkForm (page f) (targetInput f) (disabled f) (message, isError) (posted f).

(** [consolidate], up to the call of [fetch]. *)
Definition consolidate (f : Form) : Form :=
  let sourceRoles := selectedValues (page f) in
  let targetRole := trim (targetInput f) in
  if (length sourceRoles =? 0)%nat
  then setFeedback "Select at least one source role." true f
  else if String.eqb targetRole ""
  then setFeedback "Enter a target role." true f
  else set_posted (posted f ++ [mkPost targetRole sourceRoles]) (set_disabled true f).

(** [x || d] for a string that may be missing. *)
Definition or_text (x : option string) (d : string) : string :=
  match x with
  | Some s => if String.eqb s "" then d else s
  | None => d
  end.

(** The [then], [catch] and [finally] callbacks of [consolidate].  The
    lists of a payload are taken to be well formed, so that
    [applyPayload] does not throw. *)
Definition consolidate_settle (a : Answer) (f : Form) : Form :=
  let f1 :=
    match a with
    | Failed => setFeedback "Could not save consolidation." true f
    | Body p =>
        if negb (p_ok p)
        then setFeedback (or_text (p_error p) "Could not save consolidation.") true f
        else
          let f1 := set_page (set_selected ∅ (page f)) f in
          let f2 := set_targetInput "" f1 in
          let f3 := set_page (applyPayload (p_available_roles p) (page f2)) f2 in
          setFeedback
            ("Saved " +:+ pretty (default 0 (p_changed p)) +:+ " consolidation mapping(s).")
            false f3
    end in
  set_disabled false f1.

(** A string made of white space only. *)
Fixpoint all_space (s : string) : bool :=
  match s with
  | String.EmptyString => true
  | String.String c s' => is_space c && all_space s'
  end.

(** [progress st0 k s]: [s] is what [k] animation frames make of the
    render started from [st0]: the list holds the first
    [SOURCE_RENDER_CHUNK * (k + 1)] filtered roles, and the callback for
    the rest, if there is a rest, is the only one queued that carries
    the current token. *)
Definition progress (st0 : State) (k : nat) (s : State) : Prop :=
  renderToken s = renderToken st0 + 1
  /\ selected s = selected st0
  /\ sourceList s
     = map (createSourceItem st0)
         (take (SOURCE_RENDER_CHUNK * (k + 1)) (filtered_roles st0))
  /\ exists stale,
       Forall (fun c => ck_token c <> renderToken st0 + 1) stale
       /\ ((0 < k)%nat -> stale = [])
       /\ frames s
          = stale
            ++ (if (SOURCE_RENDER_CHUNK * (k + 1) <? length (filtered_roles st0))%nat
                then [mkChunk (renderToken st0 + 1) (filtered_roles st0)
                        (SOURCE_RENDER_CHUNK * (k + 1))]
                else []).

(** *** Sample data for the concrete runs *)

(** Three hundred lighting roles followed by three hundred sound
    roles. *)
Definition many_roles : list Role :=
  replicate 300 (mkRole "Lighting" None) ++ replicate 300 (mkRole "Sound" (Some 2)).

(** The payload has been applied: the first chunk is in the list and
    the callback for the second is queued. *)
Definition first_chunk_shown : State := handle (EPayload many_roles) initial.

(** The form with two hundred and fifty-one lighting roles selected by
    one name and a target typed in. *)
Definition ready_to_save : Form :=
  mkForm (handle (EChange "Lighting" true) first_chunk_shown)
    "  Lighting Designer " false ("", false) [].

(** A role was selected, and a later payload no longer lists it. *)
Definition stale_selection : State :=
  handle (EPayload [mkRole "Sound" (Some 2)])
    (handle (EChange "Lighting" true)
       (handle (EPayload [mkRole "Lighting" None; mkRole "Sound" (Some 2)]) initial)).

End RoleOrganisation.

(** ** Properties of the people table *)

Module PeopleTableFacts.
Import PeopleTable.

Arguments renderVirtual_window : simpl never.

Ltac case_ifs :=
  repeat match goal with
  | |- context [if ?b then _ else _] => destruct b
  end.

(** *** The window *)

Lemma window_start_nonneg (scrollTop_ thead total : Z) :
  0 <= visibleStart (renderVirtual_window scrollTop_ thead total).
Proof.
  unfold renderVirtual_window; cbn [visibleStart].
  destruct (Z.geb_spec (Z.max 0 (Z.max 0 (scrollTop_ - thead) / ROW_HEIGHT)) total); lia.
Qed.

Lemma window_end_le_total (scrollTop_ thead total : Z) :
  visibleEnd (renderVirtual_window scrollTop_ thead total) <= total.
Proof.
  unfold renderVirtual_window; cbn [visibleEnd].
  repeat match goal with
  | |- context [if ?b then _ else _] => destruct b
  end; lia.
Qed.

Lemma renderVirtual_lastVisible (st : State) :
  0 < totalCount (vars st) ->
  lastVisibleStart (vars (renderVirtual st))
  = visibleStart (renderVirtual_window (scrollTop (dom st)) (head_height st)
                    (totalCount (vars st)))
  /\ lastVisibleEnd (vars (renderVirtual st))
     = visibleEnd (renderVirtual_window (scrollTop (dom st)) (head_height st)
                     (totalCount (vars st))).
Proof.
  intros Ht. apply Z.leb_gt in Ht.
  unfold renderVirtual, head_height. rewrite Ht.
  unfold ensureDataForRange, fetchPage, queue_then.
  destruct (theadHeight (vars st) =? 0); case_ifs; split; reflexivity.
Qed.

(** C3. Window clamp: for a positive total and any scroll offset, the
    window computed by the virtual renderer is not empty and holds at
    most [VISIBLE_ROWS] rows; this is the range that [renderVirtual]
    records and asks [ensureDataForRange] to cover. *)
Theorem window_clamp (scrollTop_ thead total : Z) :
  0 < total ->
  (visibleStart (renderVirtual_window scrollTop_ thead total)
     < visibleEnd (renderVirtual_window scrollTop_ thead total)
   /\ visibleEnd (renderVirtual_window scrollTop_ thead total)
      - visibleStart (renderVirtual_window scrollTop_ thead total) <= VISIBLE_ROWS)
  /\ (forall st,
        totalCount (vars st) = total ->
        lastVisibleStart (vars (renderVirtual st)) < lastVisibleEnd (vars (renderVirtual st))
        /\ lastVisibleEnd (vars (renderVirtual st))
           - lastVisibleStart (vars (renderVirtual st)) <= VISIBLE_ROWS).
Proof.
  intros Htotal.
  assert (Hw : forall s t,
             visibleStart (renderVirtual_window s t total)
               < visibleEnd (renderVirtual_window s t total)
             /\ visibleEnd (renderVirtual_window s t total)
                - visibleStart (renderVirtual_window s t total) <= VISIBLE_ROWS).
  { intros s t. unfold renderVirtual_window; cbn [visibleStart visibleEnd].
    set (s0 := Z.max 0 (Z.max 0 (s - t) / ROW_HEIGHT)).
    unfold VISIBLE_ROWS.
    destruct (Z.geb_spec s0 total) as [Hge | Hlt].
    - destruct (Z.leb_spec (Z.min total (s0 + 60)) (Z.max 0 (total - 60))); lia.
    - destruct (Z.leb_spec (Z.min total (s0 + 60)) s0); lia. }
  split; [apply Hw |].
  intros st Hst.
  destruct (renderVirtual_lastVisible st) as [Hs He]; [lia |].
  rewrite Hs, He, Hst. apply Hw.
Qed.

Lemma window_clamp_witness :
  visibleStart (renderVirtual_window 999999 30 250)
    < visibleEnd (renderVirtual_window 999999 30 250)
  /\ visibleEnd (renderVirtual_window 999999 30 250)
     - visibleStart (renderVirtual_window 999999 30 250) <= VISIBLE_ROWS.
Proof.
  assert (H : 0 < 250) by lia.
  exact (proj1 (window_clamp 999999 30 250 H)).
Defined.

(** *** [ensureDataForRange] *)

Lemma covered_test (end_ : Z) (st : State) :
  (Z.min (end_ + 1) (totalCount (vars st)) <=? loaded st)
  || (totalCount (vars st) =? 0) = true <-> covered end_ st.
Proof. unfold covered. rewrite orb_true_iff, Z.leb_le, Z.eqb_eq. tauto. Qed.

Lemma covered_test_false (end_ : Z) (st : State) :
  (Z.min (end_ + 1) (totalCount (vars st)) <=? loaded st)
  || (totalCount (vars st) =? 0) = false <-> ~ covered end_ st.
Proof. rewrite <- covered_test. destruct (_ || _); split; congruence. Qed.

Lemma queue_then_vars k st : vars (queue_then k st) = vars st.
Proof. destruct k; reflexivity. Qed.

Lemma queue_then_dom k st : dom (queue_then k st) = dom st.
Proof. destruct k; reflexivity. Qed.

Lemma queue_then_pending k st : pending (sys (queue_then k st)) = pending (sys st).
Proof. destruct k; reflexivity. Qed.

Lemma queue_then_netlog k st : netlog (sys (queue_then k st)) = netlog (sys st).
Proof. destruct k; reflexivity. Qed.

Lemma queue_then_microtasks k st :
  microtasks (sys (queue_then k st)) = microtasks (sys st) ++ option_list k.
Proof. destruct k; simpl; [reflexivity | now rewrite app_nil_r]. Qed.

Lemma ensureDataForRange_covered (start end_ : Z) (k : option Cont) (st : State) :
  covered end_ st -> ensureDataForRange start end_ k st = queue_then k st.
Proof.
  intros Hc. apply covered_test in Hc. unfold ensureDataForRange. now rewrite Hc.
Qed.

Lemma ensureDataForRange_sends (start end_ : Z) (k : option Cont) (st : State) :
  ~ covered end_ st -> fetchInFlight (vars st) = false ->
  netlog (sys (ensureDataForRange start end_ k st))
  = netlog (sys st)
    ++ [request_of (loaded st / PER_PAGE + 1) (currentSearch (vars st)) st]
  /\ pending (sys (ensureDataForRange start end_ k st))
     = pending (sys st)
       ++ [mkPending (request_of (loaded st / PER_PAGE + 1) (currentSearch (vars st)) st)
             true k].
Proof.
  intros Hc Hfl. apply covered_test_false in Hc.
  unfold ensureDataForRange. rewrite Hc.
  unfold fetchPage. rewrite Hfl. simpl. auto.
Qed.

(** C7. [ensureDataForRange(start, end)] takes
    [needEnd = min(end + 1, totalCount)].  When [needEnd] is within the
    loaded prefix, or the total is 0, it resolves at once: no request is
    sent, nothing is in flight that was not before, variables and
    document are untouched and the caller's callback is queued.
    Otherwise, the request it sends (none is in flight) is for page
    [floor(length / PER_PAGE) + 1] of the current search, in append
    mode. *)
Theorem ensureDataForRange_spec (start end_ : Z) (k : option Cont) (st : State) :
  let needEnd := Z.min (end_ + 1) (totalCount (vars st)) in
  let len := Z.of_nat (length (allLoaded (vars st))) in
  (needEnd <= len \/ totalCount (vars st) = 0 ->
     netlog (sys (ensureDataForRange start end_ k st)) = netlog (sys st)
     /\ pending (sys (ensureDataForRange start end_ k st)) = pending (sys st)
     /\ vars (ensureDataForRange start end_ k st) = vars st
     /\ dom (ensureDataForRange start end_ k st) = dom st
     /\ microtasks (sys (ensureDataForRange start end_ k st))
        = microtasks (sys st) ++ option_list k)
  /\ (~ (needEnd <= len \/ totalCount (vars st) = 0) ->
      fetchInFlight (vars st) = false ->
      exists rq,
        netlog (sys (ensureDataForRange start end_ k st)) = netlog (sys st) ++ [rq]
        /\ pending (sys (ensureDataForRange start end_ k st))
           = pending (sys st) ++ [mkPending rq true k]
        /\ rq_page rq = len / PER_PAGE + 1
        /\ rq_search rq = currentSearch (vars st)).
Proof.
  cbv zeta. split.
  - intros Hc. change (covered end_ st) in Hc.
    rewrite (ensureDataForRange_covered _ _ _ _ Hc).
    rewrite queue_then_vars, queue_then_dom, queue_then_pending,
      queue_then_netlog, queue_then_microtasks. auto.
  - intros Hc Hfl. change (~ covered end_ st) in Hc.
    destruct (ensureDataForRange_sends start end_ k st Hc Hfl) as [Hn Hp].
    eexists. split; [exact Hn | split; [exact Hp | split; reflexivity]].
Qed.

Lemma ensureDataForRange_spec_witness :
  netlog (sys (ensureDataForRange 0 59 None (one_page_loaded false))) = []
  /\ exists rq,
       netlog (sys (ensureDataForRange 120 180 None (one_page_loaded false))) = [] ++ [rq]
       /\ pending (sys (ensureDataForRange 120 180 None (one_page_loaded false)))
          = [] ++ [mkPending rq true None]
       /\ rq_page rq = 100 / PER_PAGE + 1
       /\ rq_search rq = "".
Proof.
  split.
  - apply (ensureDataForRange_spec 0 59 None (one_page_loaded false)).
    simpl; lia.
  - apply (ensureDataForRange_spec 120 180 None (one_page_loaded false)).
    + simpl; lia.
    + reflexivity.
Defined.

(** *** The callback that draws the rows *)

Lemma window_rows_length (vs ve : Z) (l : list Person) :
  0 <= vs ->
  Z.of_nat (length (window_rows vs ve l))
  = Z.max 0 (Z.min (ve - vs) (Z.of_nat (length l) - vs)).
Proof.
  intros Hvs. unfold window_rows.
  rewrite length_map, length_take, length_drop. lia.
Qed.

(** C10. In virtual mode, when the callback that draws the rows finds
    that the computed row count is not positive while the total is
    positive, it returns with the state as it was: rows and spacers stay
    in place.  With a positive total a set of rows that is not empty is
    never replaced by an empty one. *)
Theorem renderVirtual_then_keeps_rows (vs ve : Z) (ru : bool) (bh : Z) (st : State) :
  0 < totalCount (vars st) ->
  (Z.min (ve - vs) (loaded st - vs) <= 0 -> renderVirtual_then vs ve ru bh st = st)
  /\ (0 <= vs -> tbodyRows (dom st) <> [] ->
      tbodyRows (dom (renderVirtual_then vs ve ru bh st)) <> []).
Proof.
  intros Htot. split.
  - intros Hrc. unfold renderVirtual_then.
    apply Z.leb_le in Hrc. apply Z.ltb_lt in Htot. now rewrite Hrc, Htot.
  - intros Hvs Hrows. unfold renderVirtual_then.
    destruct (Z.leb_spec (Z.min (ve - vs) (loaded st - vs)) 0) as [Hle | Hgt].
    + apply Z.ltb_lt in Htot. now rewrite Htot.
    + cbn [andb].
      destruct (ru && _ && _); [assumption |].
      assert (Hlen : tbodyRows (dom (on_dom (set_tbodyRows
                (window_rows vs ve (allLoaded (vars st)))) st)) <> []).
      { simpl. intros Hnil.
        pose proof (window_rows_length vs ve (allLoaded (vars st)) Hvs) as Hl.
        rewrite Hnil in Hl. unfold loaded in Hgt. simpl in Hl. lia. }
      destruct (0 <? bh); [exact Hlen |].
      destruct (bottomSpacer _) as [[h b] |]; exact Hlen.
Qed.

Lemma renderVirtual_then_keeps_rows_witness :
  renderVirtual_then 120 180 false 2800 scrolled_ahead = scrolled_ahead
  /\ tbodyRows (dom (renderVirtual_then 120 180 false 2800 scrolled_ahead)) <> [].
Proof.
  assert (Htot : 0 < totalCount (vars scrolled_ahead)) by (simpl; lia).
  split.
  - apply (renderVirtual_then_keeps_rows 120 180 false 2800 scrolled_ahead Htot).
    unfold loaded; simpl; lia.
  - apply (renderVirtual_then_keeps_rows 120 180 false 2800 scrolled_ahead Htot).
    + lia.
    + simpl. discriminate.
Defined.

(** *** Single flight *)

Lemma quiet_refl st : quiet st st.
Proof. now apply quiet_same. Qed.

Lemma quiet_trans st1 st2 st3 : quiet st1 st2 -> quiet st2 st3 -> quiet st1 st3.
Proof.
  intros [Hf Hp Hn | rq ap k Hf Hf' Hp Hn] [Gf Gp Gn | rq' ap' k' Gf Gf' Gp Gn].
  - apply quiet_same; congruence.
  - apply (quiet_sent _ _ rq' ap' k'); congruence.
  - apply (quiet_sent _ _ rq ap k); congruence.
  - congruence.
Qed.

Lemma quiet_in_flight st st' :
  quiet st st' -> fetchInFlight (vars st) = true ->
  fetchInFlight (vars st') = true
  /\ pending (sys st') = pending (sys st) /\ netlog (sys st') = netlog (sys st).
Proof.
  intros [Hf Hp Hn | rq ap k Hf Hf' Hp Hn] Ht.
  - repeat split; congruence.
  - congruence.
Qed.

Lemma quiet_netlog_length st st' :
  quiet st st' -> (length (netlog (sys st')) <= S (length (netlog (sys st))))%nat.
Proof.
  intros [Hf Hp Hn | rq ap k Hf Hf' Hp Hn]; rewrite Hn; [lia |].
  rewrite length_app; simpl; lia.
Qed.

Lemma quiet_queue_then k st : quiet st (queue_then k st).
Proof. destruct k; now apply quiet_same. Qed.

Lemma quiet_fetchPage page search append k st : quiet st (fetchPage page search append k st).
Proof.
  unfold fetchPage. destruct (fetchInFlight (vars st)) eqn:Hf.
  - apply quiet_queue_then.
  - apply (quiet_sent _ _ (request_of page search st) append k); auto;
      destruct append; reflexivity.
Qed.

Lemma quiet_ensureDataForRange s e k st : quiet st (ensureDataForRange s e k st).
Proof.
  unfold ensureDataForRange. destruct (_ || _).
  - apply quiet_queue_then.
  - apply quiet_fetchPage.
Qed.

Lemma quiet_renderVirtual st : quiet st (renderVirtual st).
Proof.
  unfold renderVirtual. destruct (totalCount (vars st) <=? 0); [apply quiet_refl |].
  eapply quiet_trans; [| apply quiet_ensureDataForRange].
  destruct (theadHeight (vars st) =? 0); now apply quiet_same.
Qed.

Lemma quiet_renderVirtual_then vs ve ru bh st : quiet st (renderVirtual_then vs ve ru bh st).
Proof.
  unfold renderVirtual_then.
  destruct (_ && _); [apply quiet_refl |].
  destruct (_ && _); [apply quiet_refl |].
  destruct (0 <? bh); [now apply quiet_same |].
  simpl. destruct (bottomSpacer (dom st)) as [[h b] |]; now apply quiet_same.
Qed.

Lemma quiet_maybeLoadMoreSimple st : quiet st (maybeLoadMoreSimple st).
Proof.
  unfold maybeLoadMoreSimple.
  destruct (fetchInFlight (vars st)); [apply quiet_refl |].
  destruct (_ <=? _); [apply quiet_refl |].
  destruct (negb _); [apply quiet_refl | apply quiet_fetchPage].
Qed.

Lemma quiet_reloadPeopleAndResetScroll st : quiet st (reloadPeopleAndResetScroll st).
Proof. apply quiet_fetchPage. Qed.

Lemma quiet_run_cont k st : quiet st (run_cont k st).
Proof.
  destruct k; simpl.
  - apply quiet_renderVirtual_then.
  - unfold reloadPeopleAndResetScroll_then.
    eapply quiet_trans with (st2 := on_dom (set_scrollTop 0) st); [now apply quiet_same |].
    destruct (simpleScroll _); [apply quiet_maybeLoadMoreSimple | apply quiet_renderVirtual].
  - apply quiet_maybeLoadMoreSimple.
  - destruct (simpleScroll _); [apply quiet_maybeLoadMoreSimple | apply quiet_refl].
Qed.

Lemma quiet_handle ev st : is_settle ev = false -> quiet st (handle ev st).
Proof.
  destruct ev; simpl; try discriminate; intros _.
  - eapply quiet_trans; [| apply quiet_reloadPeopleAndResetScroll]. now apply quiet_same.
  - eapply quiet_trans; [| apply quiet_reloadPeopleAndResetScroll]. now apply quiet_same.
  - unfold sort_click. destruct (String.eqb clickedCol ""); [apply quiet_refl |].
    eapply quiet_trans; [| apply quiet_reloadPeopleAndResetScroll].
    destruct (String.eqb clickedCol _); apply quiet_same; reflexivity.
  - eapply quiet_trans with (st2 := on_dom (set_scrollTop top) st); [now apply quiet_same |].
    destruct (simpleScroll _); [apply quiet_maybeLoadMoreSimple | now apply quiet_same].
  - destruct (rafId (vars st)); [| apply quiet_refl].
    eapply quiet_trans; [| apply quiet_renderVirtual]. now apply quiet_same.
  - destruct (microtasks (sys st)) as [| k rest]; [apply quiet_refl |].
    eapply quiet_trans; [| apply quiet_run_cont]. now apply quiet_same.
Qed.

Lemma quiet_run evs st : forallb (fun ev => negb (is_settle ev)) evs = true -> quiet st (run evs st).
Proof.
  revert st. induction evs as [| ev evs IH]; intros st Hall; simpl in *.
  - apply quiet_refl.
  - apply andb_true_iff in Hall as [Hev Hrest].
    eapply quiet_trans; [apply quiet_handle | apply IH, Hrest].
    destruct (is_settle ev); simpl in Hev; congruence.
Qed.

Lemma coherent_quiet st st' : quiet st st' -> coherent st -> coherent st'.
Proof.
  intros [Hf Hp Hn | rq ap k Hf Hf' Hp Hn] [[Cf Cp] | [Cf [p Cp]]].
  - left. split; congruence.
  - right. split; [congruence | exists p; congruence].
  - right. split; [assumption |]. exists (mkPending rq ap k). now rewrite Hp, Cp.
  - congruence.
Qed.

Lemma quiet_ensure_calls calls st : quiet st (ensure_calls calls st).
Proof.
  revert st. induction calls as [| c calls IH]; intros st; simpl.
  - apply quiet_refl.
  - eapply quiet_trans; [apply quiet_ensureDataForRange | apply IH].
Qed.

Lemma ensure_calls_in_flight calls st :
  fetchInFlight (vars st) = true ->
  vars (ensure_calls calls st) = vars st /\ dom (ensure_calls calls st) = dom st.
Proof.
  revert st. induction calls as [| c calls IH]; intros st Hf; simpl; [auto |].
  assert (Hq : ensureDataForRange c.1.1 c.1.2 c.2 st = queue_then c.2 st).
  { unfold ensureDataForRange, fetchPage. rewrite Hf. now destruct (_ || _). }
  rewrite Hq.
  destruct (IH (queue_then c.2 st)) as [Hv Hd].
  - now rewrite queue_then_vars.
  - rewrite Hv, Hd, queue_then_vars, queue_then_dom. auto.
Qed.

Lemma ensure_calls_in_flight_microtasks calls st :
  fetchInFlight (vars st) = true ->
  microtasks (sys (ensure_calls calls st)) = microtasks (sys st) ++ chained calls.
Proof.
  revert st. induction calls as [| c calls IH]; intros st Hf; simpl.
  { now rewrite app_nil_r. }
  assert (Hq : ensureDataForRange c.1.1 c.1.2 c.2 st = queue_then c.2 st).
  { unfold ensureDataForRange, fetchPage. rewrite Hf. now destruct (_ || _). }
  rewrite Hq, IH by (now rewrite queue_then_vars).
  rewrite queue_then_microtasks. unfold chained. cbn [omap].
  destruct c.2; cbn; [now rewrite <- app_assoc | now rewrite app_nil_r].
Qed.

(** C2. Single flight: over any sequence of [ensureDataForRange] calls
    with no settlement in between, at most one request is sent.  A call
    made while a request is outstanding sends nothing and resolves: the
    log of requests, the requests in flight, the variables and the
    document stay as they were, and the callbacks chained on the calls
    are queued as promise reactions, each once and in the order of the
    calls.  The same bound holds for every sequence of events without a
    settlement. *)
Theorem single_flight (calls : list (Z * Z * option Cont)) (st : State) :
  (length (netlog (sys (ensure_calls calls st))) <= S (length (netlog (sys st))))%nat
  /\ (fetchInFlight (vars st) = true ->
      netlog (sys (ensure_calls calls st)) = netlog (sys st)
      /\ pending (sys (ensure_calls calls st)) = pending (sys st)
      /\ vars (ensure_calls calls st) = vars st
      /\ dom (ensure_calls calls st) = dom st
      /\ microtasks (sys (ensure_calls calls st)) = microtasks (sys st) ++ chained calls)
  /\ (forall evs, forallb (fun ev => negb (is_settle ev)) evs = true ->
      (length (netlog (sys (run evs st))) <= S (length (netlog (sys st))))%nat)
  /\ (coherent st ->
      (length (pending (sys (ensure_calls calls st))) <= 1)%nat
      /\ (pending (sys st) <> [] ->
          netlog (sys (ensure_calls calls st)) = netlog (sys st))).
Proof.
  split; [| split; [| split]].
  - apply quiet_netlog_length, quiet_ensure_calls.
  - intros Hf.
    destruct (quiet_in_flight _ _ (quiet_ensure_calls calls st) Hf) as (_ & Hp & Hn).
    destruct (ensure_calls_in_flight calls st Hf) as [Hv Hd].
    pose proof (ensure_calls_in_flight_microtasks calls st Hf) as Hm. auto.
  - intros evs Hall. apply quiet_netlog_length, quiet_run, Hall.
  - intros Hc. split.
    + destruct (coherent_quiet _ _ (quiet_ensure_calls calls st) Hc)
        as [[_ Hp] | [_ [p Hp]]]; rewrite Hp; simpl; lia.
    + intros Hne. destruct Hc as [[_ Hp] | [Hf _]]; [contradiction |].
      apply (quiet_in_flight _ _ (quiet_ensure_calls calls st) Hf).
Qed.

Lemma single_flight_witness :
  netlog (sys (ensure_calls [(0, 300, Some KMore); (120, 180, None); (0, 60, Some KInit)]
                 page2_in_flight))
  = netlog (sys page2_in_flight)
  /\ microtasks (sys (ensure_calls
                        [(0, 300, Some KMore); (120, 180, None); (0, 60, Some KInit)]
                        page2_in_flight))
     = microtasks (sys page2_in_flight) ++ [KMore; KInit].
Proof.
  destruct (single_flight [(0, 300, Some KMore); (120, 180, None); (0, 60, Some KInit)]
              page2_in_flight)
    as (_ & H & _).
  destruct (H eq_refl) as (Hn & _ & _ & _ & Hm).
  exact (conj Hn Hm).
Defined.

(** *** Frame properties: what the fetching and rendering functions
    leave alone *)

Lemma same_data_refl st : same_data st st.
Proof. now split. Qed.

Lemma same_data_trans st1 st2 st3 : same_data st1 st2 -> same_data st2 st3 -> same_data st1 st3.
Proof. intros [H1 H2] [H3 H4]. split; congruence. Qed.

Lemma same_allLoaded st st' : same_data st st' -> allLoaded (vars st') = allLoaded (vars st).
Proof. intros [H _]. unfold vars_data in H. congruence. Qed.

Lemma same_totalCount st st' : same_data st st' -> totalCount (vars st') = totalCount (vars st).
Proof. intros [H _]. unfold vars_data in H. congruence. Qed.

Lemma same_currentSearch st st' :
  same_data st st' -> currentSearch (vars st') = currentSearch (vars st).
Proof. intros [H _]. unfold vars_data in H. congruence. Qed.

Lemma same_scrollTop st st' : same_data st st' -> scrollTop (dom st') = scrollTop (dom st).
Proof. intros [_ H]. unfold dom_data in H. congruence. Qed.

Lemma same_tbodyRows st st' : same_data st st' -> tbodyRows (dom st') = tbodyRows (dom st).
Proof. intros [_ H]. unfold dom_data in H. congruence. Qed.

Lemma same_bottomSpacer st st' :
  same_data st st' -> bottomSpacer (dom st') = bottomSpacer (dom st).
Proof. intros [_ H]. unfold dom_data in H. congruence. Qed.

Lemma same_simpleScroll st st' :
  same_data st st' -> simpleScroll (dom st') = simpleScroll (dom st).
Proof. intros [_ H]. unfold dom_data in H. congruence. Qed.

Lemma same_loaded st st' : same_data st st' -> loaded st' = loaded st.
Proof. intros H. unfold loaded. now rewrite (same_allLoaded _ _ H). Qed.

Lemma same_data_queue_then k st : same_data st (queue_then k st).
Proof. destruct k; now split. Qed.

Lemma same_data_fetchPage page search ap k st : same_data st (fetchPage page search ap k st).
Proof.
  unfold fetchPage. destruct (fetchInFlight (vars st)); [apply same_data_queue_then |].
  destruct ap; now split.
Qed.

Lemma same_data_ensureDataForRange s e k st : same_data st (ensureDataForRange s e k st).
Proof.
  unfold ensureDataForRange.
  destruct (_ || _); [apply same_data_queue_then | apply same_data_fetchPage].
Qed.

Lemma same_data_renderVirtual st : same_data st (renderVirtual st).
Proof.
  unfold renderVirtual. destruct (totalCount (vars st) <=? 0); [apply same_data_refl |].
  eapply same_data_trans; [| apply same_data_ensureDataForRange].
  destruct (theadHeight (vars st) =? 0); now split.
Qed.

Lemma same_data_maybeLoadMoreSimple st : same_data st (maybeLoadMoreSimple st).
Proof.
  unfold maybeLoadMoreSimple.
  destruct (fetchInFlight (vars st)); [apply same_data_refl |].
  destruct (_ <=? _); [apply same_data_refl |].
  destruct (negb _); [apply same_data_refl | apply same_data_fetchPage].
Qed.

(** *** Settlement *)

Lemma fetchPage_then_eq append people total st :
  fetchPage_then append people total st
  = updateCounts (draw (fetchPage_then_store append people total st)).
Proof. reflexivity. Qed.

Lemma store_allLoaded append people total st :
  allLoaded (vars (fetchPage_then_store append people total st)) = stored append people st.
Proof.
  unfold fetchPage_then_store, stored.
  destruct append; case_ifs; reflexivity.
Qed.

Lemma store_totalCount append people total st :
  totalCount (vars (fetchPage_then_store append people total st))
  = default (Z.of_nat (length (stored append people st))) total.
Proof.
  unfold fetchPage_then_store, stored, loaded.
  destruct append; case_ifs; reflexivity.
Qed.

Lemma store_fetchInFlight append people total st :
  fetchInFlight (vars (fetchPage_then_store append people total st)) = false.
Proof.
  unfold fetchPage_then_store.
  destruct append; case_ifs; reflexivity.
Qed.

Lemma store_sys append people total st :
  sys (fetchPage_then_store append people total st) = sys st.
Proof.
  unfold fetchPage_then_store.
  destruct append; case_ifs; reflexivity.
Qed.

Lemma store_dom_data append people total st :
  dom_data (dom (fetchPage_then_store append people total st)) = dom_data (dom st).
Proof.
  unfold fetchPage_then_store.
  destruct append; case_ifs; reflexivity.
Qed.

Lemma store_spacerHeight append people total st :
  spacerHeight (dom (fetchPage_then_store append people total st)) = spacerHeight (dom st).
Proof.
  unfold fetchPage_then_store.
  destruct append; case_ifs; reflexivity.
Qed.

Lemma store_query append people total st :
  currentSearch (vars (fetchPage_then_store append people total st)) = currentSearch (vars st).
Proof.
  unfold fetchPage_then_store.
  destruct append; case_ifs; reflexivity.
Qed.

Lemma draw_allLoaded st : allLoaded (vars (draw st)) = allLoaded (vars st).
Proof.
  unfold draw. destruct (simpleScroll (dom st)); [reflexivity |].
  apply same_allLoaded, same_data_renderVirtual.
Qed.

Lemma draw_totalCount st : totalCount (vars (draw st)) = totalCount (vars st).
Proof.
  unfold draw. destruct (simpleScroll (dom st)); [reflexivity |].
  apply same_totalCount, same_data_renderVirtual.
Qed.

Lemma draw_scrollTop st : scrollTop (dom (draw st)) = scrollTop (dom st).
Proof.
  unfold draw. destruct (simpleScroll (dom st)); [reflexivity |].
  apply same_scrollTop, same_data_renderVirtual.
Qed.

Lemma quiet_draw st : quiet st (draw st).
Proof.
  unfold draw. destruct (simpleScroll (dom st)); [now apply quiet_same |].
  apply quiet_renderVirtual.
Qed.

Lemma quiet_updateCounts st st' : quiet st st' -> quiet st (updateCounts st').
Proof. intros H. eapply quiet_trans; [exact H | now apply quiet_same]. Qed.

(** After a successful settlement the loaded prefix is the old prefix
    (or nothing, for a reload) followed by the page received, whatever
    the current query is. *)
Lemma fetchPage_then_allLoaded append people total st :
  allLoaded (vars (fetchPage_then append people total st)) = stored append people st.
Proof.
  rewrite fetchPage_then_eq. unfold updateCounts. simpl.
  now rewrite draw_allLoaded, store_allLoaded.
Qed.

Lemma fetchPage_then_totalCount append people total st :
  totalCount (vars (fetchPage_then append people total st))
  = default (Z.of_nat (length (stored append people st))) total.
Proof.
  rewrite fetchPage_then_eq. unfold updateCounts. simpl.
  now rewrite draw_totalCount, store_totalCount.
Qed.

Lemma fetchPage_then_scrollTop append people total st :
  scrollTop (dom (fetchPage_then append people total st)) = scrollTop (dom st).
Proof.
  rewrite fetchPage_then_eq. unfold updateCounts. simpl.
  rewrite draw_scrollTop.
  pose proof (store_dom_data append people total st) as H.
  unfold dom_data in H. congruence.
Qed.

Lemma coherent_fetchPage_then append people total st :
  pending (sys st) = [] -> coherent (fetchPage_then append people total st).
Proof.
  intros Hp. rewrite fetchPage_then_eq.
  eapply coherent_quiet; [apply quiet_updateCounts, quiet_draw |].
  left. now rewrite store_fetchInFlight, store_sys.
Qed.

Lemma coherent_queue_then k st : coherent st -> coherent (queue_then k st).
Proof. apply coherent_quiet, quiet_queue_then. Qed.

Lemma coherent_settle r st : coherent st -> coherent (settle r st).
Proof.
  intros [[Cf Cp] | [Cf [p Cp]]]; unfold settle; rewrite Cp.
  - now left.
  - apply coherent_queue_then. destruct r.
    + now left.
    + left. now destruct (pd_append p).
    + now apply coherent_fetchPage_then.
Qed.

Lemma coherent_handle ev st : coherent st -> coherent (handle ev st).
Proof.
  intros Hc. destruct (is_settle ev) eqn:Hs.
  - destruct ev; try discriminate. now apply coherent_settle.
  - eapply coherent_quiet; [now apply quiet_handle | exact Hc].
Qed.

Lemma coherent_run evs st : coherent st -> coherent (run evs st).
Proof.
  revert st. induction evs as [| ev evs IH]; intros st Hc; simpl; [exact Hc |].
  apply IH, coherent_handle, Hc.
Qed.

(** From the start of the script on, at most one request is in flight
    at any time. *)
Lemma coherent_start totalPeople col dir d evs :
  coherent (run evs (start totalPeople col dir d)).
Proof. apply coherent_run. right. split; [reflexivity |]. now eexists. Qed.

(** *** Promise reactions *)

Lemma renderVirtual_then_sys vs ve ru bh st : sys (renderVirtual_then vs ve ru bh st) = sys st.
Proof.
  unfold renderVirtual_then. case_ifs; try reflexivity.
  simpl. destruct (bottomSpacer (dom st)) as [[h b] |]; reflexivity.
Qed.

Lemma renderVirtual_then_vars vs ve ru bh st : vars (renderVirtual_then vs ve ru bh st) = vars st.
Proof.
  unfold renderVirtual_then. case_ifs; try reflexivity.
  simpl. destruct (bottomSpacer (dom st)) as [[h b] |]; reflexivity.
Qed.

Lemma renderVirtual_then_scrollTop vs ve ru bh st :
  scrollTop (dom (renderVirtual_then vs ve ru bh st)) = scrollTop (dom st).
Proof.
  unfold renderVirtual_then. case_ifs; try reflexivity.
  simpl. destruct (bottomSpacer (dom st)) as [[h b] |]; reflexivity.
Qed.

Lemma maybeLoadMoreSimple_microtasks st :
  microtasks (sys (maybeLoadMoreSimple st)) = microtasks (sys st).
Proof.
  unfold maybeLoadMoreSimple, fetchPage.
  destruct (fetchInFlight (vars st)); [reflexivity |]. case_ifs; reflexivity.
Qed.

Lemma renderVirtual_microtasks st :
  microtasks (sys (renderVirtual st)) = microtasks (sys st)
  \/ exists vs ve ru bh,
       microtasks (sys (renderVirtual st)) = microtasks (sys st) ++ [KRows vs ve ru bh].
Proof.
  unfold renderVirtual, ensureDataForRange, fetchPage.
  destruct (totalCount (vars st) <=? 0); [now left |].
  destruct (theadHeight (vars st) =? 0); case_ifs;
    solve [now left | right; now repeat eexists].
Qed.

Lemma run_cont_microtasks k st :
  microtasks (sys (run_cont k st)) = microtasks (sys st)
  \/ (k = KReload
      /\ exists vs ve ru bh,
           microtasks (sys (run_cont k st)) = microtasks (sys st) ++ [KRows vs ve ru bh]).
Proof.
  destruct k; simpl.
  - left. now rewrite renderVirtual_then_sys.
  - unfold reloadPeopleAndResetScroll_then.
    destruct (simpleScroll _).
    + left. now rewrite maybeLoadMoreSimple_microtasks.
    + destruct (renderVirtual_microtasks (on_dom (set_scrollTop 0) st)) as [H | H];
        [left | right; split; [reflexivity |]]; exact H.
  - left. apply maybeLoadMoreSimple_microtasks.
  - left. destruct (simpleScroll _); [apply maybeLoadMoreSimple_microtasks | reflexivity].
Qed.

Lemma run_cont_vars_data k st : vars_data (vars (run_cont k st)) = vars_data (vars st).
Proof.
  destruct k; simpl.
  - now rewrite renderVirtual_then_vars.
  - unfold reloadPeopleAndResetScroll_then.
    destruct (simpleScroll _).
    + apply (same_data_maybeLoadMoreSimple (on_dom (set_scrollTop 0) st)).
    + apply (same_data_renderVirtual (on_dom (set_scrollTop 0) st)).
  - apply same_data_maybeLoadMoreSimple.
  - destruct (simpleScroll _); [apply same_data_maybeLoadMoreSimple | reflexivity].
Qed.

Lemma run_cont_scrollTop k st :
  scrollTop (dom (run_cont k st))
  = match k with KReload => 0 | _ => scrollTop (dom st) end.
Proof.
  destruct k; simpl.
  - apply renderVirtual_then_scrollTop.
  - unfold reloadPeopleAndResetScroll_then.
    destruct (simpleScroll _).
    + apply (same_scrollTop _ _ (same_data_maybeLoadMoreSimple (on_dom (set_scrollTop 0) st))).
    + apply (same_scrollTop _ _ (same_data_renderVirtual (on_dom (set_scrollTop 0) st))).
  - apply same_scrollTop, same_data_maybeLoadMoreSimple.
  - destruct (simpleScroll _); [apply same_scrollTop, same_data_maybeLoadMoreSimple | reflexivity].
Qed.

Lemma weights_app l1 l2 : weights (l1 ++ l2) = (weights l1 + weights l2)%nat.
Proof. induction l1 as [| k l1 IH]; simpl; [reflexivity | rewrite IH; lia]. Qed.

Lemma handle_micro_weight st k rest :
  microtasks (sys st) = k :: rest ->
  (queue_weight (handle EMicro st) < queue_weight st)%nat.
Proof.
  intros Hq. unfold queue_weight. cbn [handle]. rewrite Hq.
  change (weights (k :: rest)) with (weight k + weights rest)%nat.
  destruct (run_cont_microtasks k (on_sys (set_microtasks rest) st))
    as [H | (-> & vs & ve & ru & bh & H)]; rewrite H.
  - change (microtasks (sys (on_sys (set_microtasks rest) st))) with rest.
    destruct k; simpl; lia.
  - change (microtasks (sys (on_sys (set_microtasks rest) st))) with rest.
    rewrite weights_app. simpl. lia.
Qed.

(** The fuel given by [drain] is enough: no reaction is left behind. *)
Lemma drain_fuel_done n st :
  (queue_weight st <= n)%nat -> microtasks (sys (drain_fuel n st)) = [].
Proof.
  revert st. induction n as [| n IH]; intros st Hw; cbn [drain_fuel].
  - destruct (microtasks (sys st)) as [| k rest] eqn:Hq; [reflexivity |].
    unfold queue_weight in Hw. rewrite Hq in Hw.
    change (weights (k :: rest)) with (weight k + weights rest)%nat in Hw.
    destruct k; simpl in Hw; lia.
  - destruct (microtasks (sys st)) as [| k rest] eqn:Hq; [exact Hq |].
    apply IH. pose proof (handle_micro_weight st k rest Hq). lia.
Qed.

Lemma drain_done st : microtasks (sys (drain st)) = [].
Proof. apply drain_fuel_done. reflexivity. Qed.

Lemma drain_fuel_preserves (P : State -> Prop) :
  (forall st, P st -> P (handle EMicro st)) ->
  forall n st, P st -> P (drain_fuel n st).
Proof.
  intros Hstep. induction n as [| n IH]; intros st HP; cbn [drain_fuel]; [exact HP |].
  destruct (microtasks (sys st)); [exact HP | apply IH, Hstep, HP].
Qed.

Lemma handle_micro_vars_data st :
  vars_data (vars (handle EMicro st)) = vars_data (vars st).
Proof.
  simpl. destruct (microtasks (sys st)) as [| k rest]; [reflexivity |].
  now rewrite run_cont_vars_data.
Qed.

Lemma drain_vars_data st : vars_data (vars (drain st)) = vars_data (vars st).
Proof.
  unfold drain.
  apply (drain_fuel_preserves (fun s => vars_data (vars s) = vars_data (vars st))).
  - intros s Hs. now rewrite handle_micro_vars_data.
  - reflexivity.
Qed.

Lemma drain_allLoaded st : allLoaded (vars (drain st)) = allLoaded (vars st).
Proof. pose proof (drain_vars_data st) as H. unfold vars_data in H. congruence. Qed.

Lemma drain_totalCount st : totalCount (vars (drain st)) = totalCount (vars st).
Proof. pose proof (drain_vars_data st) as H. unfold vars_data in H. congruence. Qed.

Lemma quiet_drain st : quiet st (drain st).
Proof.
  unfold drain. apply (drain_fuel_preserves (quiet st)).
  - intros s Hs. eapply quiet_trans; [exact Hs | now apply quiet_handle].
  - apply quiet_refl.
Qed.

(** Once the callback of a reload is queued, the scroll position is 0
    by the time the reactions have run. *)
Lemma drain_resets_scroll st :
  In KReload (microtasks (sys st)) -> scrollTop (dom (drain st)) = 0.
Proof.
  intros Hin.
  assert (H : scrollTop (dom (drain st)) = 0 \/ In KReload (microtasks (sys (drain st)))).
  { unfold drain.
    apply (drain_fuel_preserves
             (fun s => scrollTop (dom s) = 0 \/ In KReload (microtasks (sys s)))).
    - intros s Hs. cbn [handle].
      destruct (microtasks (sys s)) as [| k rest] eqn:Hq; [now rewrite Hq |].
      rewrite run_cont_scrollTop.
      assert (Hsub : forall x, In x rest ->
                In x (microtasks (sys (run_cont k (on_sys (set_microtasks rest) s))))).
      { intros x Hx.
        destruct (run_cont_microtasks k (on_sys (set_microtasks rest) s))
          as [Hm | (_ & vs & ve & ru & bh & Hm)]; rewrite Hm; simpl;
          [exact Hx | apply in_or_app; now left]. }
      destruct k; try (now left);
        (destruct Hs as [Hs | [Hs | Hs]];
         [left; exact Hs | discriminate | right; apply Hsub, Hs]).
    - now right. }
  rewrite drain_done in H. destruct H as [H | []]. exact H.
Qed.

(** *** The window formulas and the 250-row scenario *)

(** C6 (amended). The window starts at
    [floor(max(0, scrollTop - theadHeight) / ROW_HEIGHT)] when that row
    is below the total, and at [max(0, total - VISIBLE_ROWS)] otherwise;
    it ends at [min(total, visibleStart + VISIBLE_ROWS)]; the spacers are
    [visibleStart * ROW_HEIGHT] and
    [max(0, (total - visibleEnd) * ROW_HEIGHT)].  For 250 rows scrolled
    to row 120 the window is 120..180.  With page 1 alone loaded,
    covering that window requests page 2; once 200 rows are loaded the
    window is covered and nothing more is requested. *)
Theorem window_formulas (scrollTop_ thead total : Z) :
  let w := renderVirtual_window scrollTop_ thead total in
  let row := Z.max 0 (scrollTop_ - thead) / ROW_HEIGHT in
  visibleStart w = (if row <? total then row else Z.max 0 (total - VISIBLE_ROWS))
  /\ visibleEnd w = Z.min total (visibleStart w + VISIBLE_ROWS)
  /\ topHeight w = visibleStart w * ROW_HEIGHT
  /\ bottomHeight w = Z.max 0 ((total - visibleEnd w) * ROW_HEIGHT)
  /\ renderVirtual_window (thead + 120 * ROW_HEIGHT) thead 250 = mkWindow 120 180 4800 2800
  /\ (forall st k,
        loaded st = 100 -> totalCount (vars st) = 250 -> fetchInFlight (vars st) = false ->
        map rq_page (netlog (sys (ensureDataForRange 120 180 k st)))
        = map rq_page (netlog (sys st)) ++ [2])
  /\ (forall st k,
        loaded st = 200 -> totalCount (vars st) = 250 ->
        netlog (sys (ensureDataForRange 120 180 k st)) = netlog (sys st))
  /\ (forall st k,
        loaded st = 200 -> totalCount (vars st) = 250 ->
        pending (sys (ensureDataForRange 120 180 k st)) = pending (sys st)).
Proof.
  assert (Hrow : 0 <= Z.max 0 (scrollTop_ - thead) / ROW_HEIGHT).
  { apply Z.div_pos; unfold ROW_HEIGHT; lia. }
  cbv zeta. unfold renderVirtual_window.
  cbn [visibleStart visibleEnd topHeight bottomHeight].
  set (row := Z.max 0 (scrollTop_ - thead) / ROW_HEIGHT) in *.
  rewrite (Z.max_r 0 row) by exact Hrow.
  split; [| split; [| split; [reflexivity | split; [reflexivity | split; [| split; [| split]]]]]].
  - destruct (Z.geb_spec row total), (Z.ltb_spec row total); lia.
  - unfold VISIBLE_ROWS.
    destruct (Z.geb_spec row total);
      match goal with |- context [if ?b then _ else _] => destruct b eqn:Hb end;
      try reflexivity; apply Z.leb_gt in Hb; lia.
  - replace (Z.max 0 (thead + 120 * ROW_HEIGHT - thead)) with 4800
      by (unfold ROW_HEIGHT; lia).
    reflexivity.
  - intros st k Hl Ht Hf.
    destruct (ensureDataForRange_sends 120 180 k st) as [Hn _];
      [unfold covered; lia | exact Hf |].
    rewrite Hn, map_app, Hl. reflexivity.
  - intros st k Hl Ht.
    rewrite ensureDataForRange_covered by (unfold covered; lia).
    apply queue_then_netlog.
  - intros st k Hl Ht.
    rewrite ensureDataForRange_covered by (unfold covered; lia).
    apply queue_then_pending.
Qed.

Lemma window_formulas_witness :
  map rq_page (netlog (sys (ensureDataForRange 120 180 None (one_page_loaded false)))) = [2].
Proof.
  apply (window_formulas 4830 30 250 : _ /\ _ /\ _ /\ _ /\ _ /\ _ /\ _ /\ _).
  - reflexivity.
  - reflexivity.
  - reflexivity.
Defined.

(** *** Query changes *)

(** A query change updates the query variables and then reloads. *)
Lemma handle_query_change ev st :
  is_query_change ev = true ->
  exists st0,
    handle ev st = reloadPeopleAndResetScroll st0
    /\ dom st0 = dom st /\ sys st0 = sys st
    /\ allLoaded (vars st0) = allLoaded (vars st)
    /\ totalCount (vars st0) = totalCount (vars st)
    /\ fetchInFlight (vars st0) = fetchInFlight (vars st).
Proof.
  destruct ev; try discriminate; intros Hq; simpl.
  - now eexists.
  - now eexists.
  - unfold sort_click. cbn in Hq.
    destruct (String.eqb clickedCol ""); [discriminate |].
    destruct (String.eqb clickedCol _); now eexists.
Qed.

Lemma reload_sends st :
  fetchInFlight (vars st) = false ->
  let st1 := reloadPeopleAndResetScroll st in
  let rq := request_of 1 (currentSearch (vars st1)) st1 in
  netlog (sys st1) = netlog (sys st) ++ [rq]
  /\ pending (sys st1) = pending (sys st) ++ [mkPending rq false (Some KReload)]
  /\ vars_data (vars st1) = vars_data (vars st)
  /\ dom_data (dom st1) = dom_data (dom st)
  /\ microtasks (sys st1) = microtasks (sys st).
Proof.
  intros Hf. unfold reloadPeopleAndResetScroll, fetchPage. rewrite Hf.
  repeat split.
Qed.

Lemma settle_cons r p rest st :
  pending (sys st) = p :: rest ->
  settle r st
  = queue_then (pd_then p)
      match r with
      | RespReject => fetchPage_catch (on_sys (set_pending rest) st)
      | RespNull =>
          fetchPage_catch
            (if pd_append p then on_sys (set_pending rest) st
             else on_vars (set_allLoaded []) (on_sys (set_pending rest) st))
      | RespObj people total =>
          fetchPage_then (pd_append p) people total (on_sys (set_pending rest) st)
      end.
Proof. intros Hp. unfold settle. now rewrite Hp. Qed.

Lemma settle_obj_allLoaded people total p rest st :
  pending (sys st) = p :: rest ->
  allLoaded (vars (settle (RespObj people total) st)) = stored (pd_append p) people st.
Proof.
  intros Hp. rewrite (settle_cons _ _ _ _ Hp), queue_then_vars.
  now rewrite fetchPage_then_allLoaded.
Qed.

Lemma settle_queues_then r p rest st :
  pending (sys st) = p :: rest ->
  forall k, pd_then p = Some k -> In k (microtasks (sys (settle r st))).
Proof.
  intros Hp k Hk. rewrite (settle_cons _ _ _ _ Hp), queue_then_microtasks, Hk.
  apply in_or_app. right. now left.
Qed.

(** The request that a reload sends carries the values of the event. *)
Lemma query_change_asks_for ev st :
  is_query_change ev = true ->
  asks_for ev st (request_of 1 (currentSearch (vars (handle ev st))) (handle ev st)).
Proof.
  assert (Hreload : forall s,
            vars_data (vars (reloadPeopleAndResetScroll s)) = vars_data (vars s)).
  { intros s. unfold reloadPeopleAndResetScroll, fetchPage.
    destruct (fetchInFlight (vars s)); reflexivity. }
  unfold asks_for, request_of.
  destruct ev; try discriminate; intros Hq; cbn [handle rq_page rq_per_page rq_search
    rq_active_only rq_sort_col rq_sort_dir].
  - pose proof (Hreload (on_vars (set_currentSearch s) st)) as H.
    unfold vars_data in H. cbn in H. repeat split; congruence.
  - pose proof (Hreload (on_vars (set_currentActiveOnly checked) st)) as H.
    unfold vars_data in H. cbn in H. repeat split; congruence.
  - unfold sort_click. cbn in Hq.
    destruct (String.eqb clickedCol ""); [discriminate |].
    match goal with
    | |- context [reloadPeopleAndResetScroll ?s] => pose proof (Hreload s) as H
    end.
    unfold vars_data in H.
    destruct (String.eqb_spec clickedCol (sortCol (vars st))) as [Heq | Hne];
      cbn in H; repeat split; congruence.
Qed.

(** C4 (amended). On a query change made while no request is in
    flight, the page-1 request for the new query is sent first: it
    carries the search text, the flag or the column of the event, and
    while it is in flight the loaded prefix and the scroll position are
    still as they were.  The prefix is replaced, in one step, by the
    records of the response when that request settles with a parsed
    body; a rejected request leaves the old prefix in place.  The
    scroll position is reset to the top by the callback that runs after
    the settlement, successful or not. *)
Theorem query_change_order (ev : Event) (st : State) :
  is_query_change ev = true ->
  fetchInFlight (vars st) = false ->
  pending (sys st) = [] ->
  let st1 := handle ev st in
  let rq := request_of 1 (currentSearch (vars st1)) st1 in
  asks_for ev st rq
  /\ netlog (sys st1) = netlog (sys st) ++ [rq]
  /\ pending (sys st1) = [mkPending rq false (Some KReload)]
  /\ allLoaded (vars st1) = allLoaded (vars st)
  /\ scrollTop (dom st1) = scrollTop (dom st)
  /\ (forall people total,
        allLoaded (vars (dispatch (ESettle (RespObj people total)) st1)) = default [] people)
  /\ allLoaded (vars (dispatch (ESettle RespReject) st1)) = allLoaded (vars st)
  /\ (forall r, scrollTop (dom (dispatch (ESettle r) st1)) = 0).
Proof.
  intros Hq Hf Hp.
  pose proof (query_change_asks_for ev st Hq) as Hasks.
  destruct (handle_query_change ev st Hq) as (st0 & Hst0 & Hd & Hs & Ha & Ht & Hf0).
  cbv zeta. rewrite Hst0 in *. clear Hst0.
  rewrite Hf in Hf0.
  destruct (reload_sends st0 Hf0) as (Hn & Hpd & Hv & Hdd & Hm).
  cbv zeta in Hn, Hpd. rewrite Hs, Hp in *. simpl in Hpd.
  assert (Hal : allLoaded (vars (reloadPeopleAndResetScroll st0)) = allLoaded (vars st)).
  { unfold vars_data in Hv. congruence. }
  split; [exact Hasks |].
  repeat split.
  - exact Hn.
  - exact Hpd.
  - exact Hal.
  - unfold dom_data in Hdd. congruence.
  - intros people total. unfold dispatch. rewrite drain_allLoaded. cbn [handle].
    now rewrite (settle_obj_allLoaded _ _ _ _ _ Hpd).
  - unfold dispatch. rewrite drain_allLoaded. cbn [handle].
    rewrite (settle_cons _ _ _ _ Hpd), queue_then_vars. exact Hal.
  - intros r. unfold dispatch. apply drain_resets_scroll. cbn [handle].
    now apply (settle_queues_then r _ _ _ Hpd).
Qed.


(** *** Failed requests *)

(** A request that [ensureDataForRange] has sent fails, and the next
    call whose range is not covered sends the same request again. *)
Lemma ensureDataForRange_retry st0 s e k r s' e' k' :
  fetchInFlight (vars st0) = false ->
  pending (sys st0) = [] ->
  ~ covered e st0 ->
  ~ covered e' st0 ->
  r = RespReject \/ r = RespNull ->
  let rq := request_of (loaded st0 / PER_PAGE + 1) (currentSearch (vars st0)) st0 in
  pending (sys (ensureDataForRange s e k st0)) = [mkPending rq true k]
  /\ netlog (sys (ensureDataForRange s' e' k' (settle r (ensureDataForRange s e k st0))))
     = netlog (sys st0) ++ [rq; rq].
Proof.
  intros Hf Hp Hc Hc' Hr rq.
  destruct (ensureDataForRange_sends s e k st0 Hc Hf) as [Hn Hpd].
  rewrite Hp in Hpd. cbn [app] in Hpd. fold rq in Hn, Hpd.
  split; [exact Hpd |].
  assert (Hv : vars_data (vars (ensureDataForRange s e k st0)) = vars_data (vars st0)).
  { apply (same_data_ensureDataForRange s e k st0). }
  set (st := ensureDataForRange s e k st0) in *. clearbody st.
  assert (Hs : settle r st = queue_then k (fetchPage_catch (on_sys (set_pending []) st))).
  { rewrite (settle_cons _ _ _ _ Hpd). now destruct Hr as [-> | ->]. }
  unfold vars_data in Hv.
  assert (Hl : loaded (settle r st) = loaded st0).
  { unfold loaded. rewrite Hs, queue_then_vars. cbn. congruence. }
  destruct (ensureDataForRange_sends s' e' k' (settle r st)) as [Hn' _].
  - unfold covered in *. rewrite Hl. rewrite Hs, queue_then_vars. cbn.
    replace (totalCount (vars st)) with (totalCount (vars st0)) by congruence.
    exact Hc'.
  - rewrite Hs, queue_then_vars. reflexivity.
  - rewrite Hn', Hl. rewrite Hs at 1. rewrite queue_then_netlog. cbn [netlog sys
      fetchPage_catch on_dom on_vars on_sys set_pending].
    rewrite Hn, <- app_assoc. cbn [app]. do 2 f_equal.
    unfold rq, request_of. rewrite Hs, queue_then_vars. cbn.
    f_equal; congruence.
Qed.

(** C5 (amended). When a request is rejected or its body is not JSON,
    and when an append request (every [ensureDataForRange] request is
    one) gets a null body, the loaded prefix and the known total are
    left as they were, the request is no longer in flight, nothing is
    sent, and the promise returned by [fetchPage] still resolves, so the
    caller's callback runs.  The next [ensureDataForRange] call whose
    range is not covered then requests the page after the loaded
    prefix.  That is the page of the failed request when this was the
    page after the prefix, and when [ensureDataForRange] itself had
    sent the failed request the same request is sent again; after a
    failed request for page 1 with records loaded it is not page 1.  A
    body that parses to an object is not a failure: without a list of
    people nothing is appended, and without a total the known total
    becomes the length of the loaded prefix. *)
Theorem failed_fetch_allows_retry (r : Response) (p : Pending) (rest : list Pending)
    (st : State) :
  pending (sys st) = p :: rest ->
  (r = RespReject \/ (r = RespNull /\ pd_append p = true) ->
   allLoaded (vars (settle r st)) = allLoaded (vars st)
   /\ totalCount (vars (settle r st)) = totalCount (vars st)
   /\ fetchInFlight (vars (settle r st)) = false
   /\ pending (sys (settle r st)) = rest
   /\ netlog (sys (settle r st)) = netlog (sys st)
   /\ microtasks (sys (settle r st)) = microtasks (sys st) ++ option_list (pd_then p)
   /\ (forall s e k, ~ covered e st ->
         netlog (sys (ensureDataForRange s e k (settle r st)))
         = netlog (sys st)
           ++ [request_of (loaded st / PER_PAGE + 1) (currentSearch (vars st)) st])
   /\ (forall s e k, ~ covered e st ->
         rq_page (pd_request p) = loaded st / PER_PAGE + 1 ->
         map rq_page (netlog (sys (ensureDataForRange s e k (settle r st))))
         = map rq_page (netlog (sys st)) ++ [rq_page (pd_request p)])
   /\ (forall s e k, ~ covered e st ->
         rq_page (pd_request p) = 1 -> PER_PAGE <= loaded st ->
         exists rq,
           netlog (sys (ensureDataForRange s e k (settle r st))) = netlog (sys st) ++ [rq]
           /\ rq_page rq <> rq_page (pd_request p)))
  /\ (forall st0 s e k s' e' k',
        fetchInFlight (vars st0) = false ->
        pending (sys st0) = [] ->
        ~ covered e st0 ->
        ~ covered e' st0 ->
        r = RespReject \/ r = RespNull ->
        let rq := request_of (loaded st0 / PER_PAGE + 1) (currentSearch (vars st0)) st0 in
        pending (sys (ensureDataForRange s e k st0)) = [mkPending rq true k]
        /\ netlog (sys (ensureDataForRange s' e' k' (settle r (ensureDataForRange s e k st0))))
           = netlog (sys st0) ++ [rq; rq])
  /\ (forall total,
        allLoaded (vars (settle (RespObj None total) st))
        = (if pd_append p then allLoaded (vars st) else []))
  /\ (forall people,
        totalCount (vars (settle (RespObj people None) st))
        = Z.of_nat (length (allLoaded (vars (settle (RespObj people None) st))))).
Proof.
  intros Hp. split; [| split; [| split]].
  - intros Hr.
    assert (Hs : settle r st
                 = queue_then (pd_then p) (fetchPage_catch (on_sys (set_pending rest) st))).
    { rewrite (settle_cons _ _ _ _ Hp).
      destruct Hr as [-> | [-> Hap]]; [reflexivity | now rewrite Hap]. }
    assert (Hnext : forall s e k, ~ covered e st ->
              netlog (sys (ensureDataForRange s e k (settle r st)))
              = netlog (sys st)
                ++ [request_of (loaded st / PER_PAGE + 1) (currentSearch (vars st)) st]).
    { intros s e k Hc. rewrite Hs.
      destruct (ensureDataForRange_sends s e k
                  (queue_then (pd_then p) (fetchPage_catch (on_sys (set_pending rest) st))))
        as [Hn _].
      + unfold covered, loaded in *. now rewrite queue_then_vars.
      + now rewrite queue_then_vars.
      + rewrite Hn, queue_then_netlog. unfold request_of, loaded.
        now rewrite queue_then_vars. }
    rewrite Hs, queue_then_vars, queue_then_pending, queue_then_netlog,
      queue_then_microtasks.
    rewrite <- Hs.
    split; [reflexivity |]. split; [reflexivity |]. split; [reflexivity |].
    split; [reflexivity |]. split; [reflexivity |]. split; [reflexivity |].
    split; [exact Hnext |]. split.
    + intros s e k Hc Hpage. rewrite (Hnext s e k Hc), map_app. cbn.
      now rewrite Hpage.
    + intros s e k Hc Hpage Hl. eexists. split; [apply (Hnext s e k Hc) |].
      cbn. rewrite Hpage.
      assert (1 <= loaded st / PER_PAGE).
      { apply Z.div_le_lower_bound; unfold PER_PAGE in *; lia. }
      lia.
  - intros st0 s e k s' e' k'. apply ensureDataForRange_retry.
  - intros total. rewrite (settle_obj_allLoaded _ _ _ _ _ Hp). unfold stored.
    simpl. now rewrite app_nil_r.
  - intros people. rewrite (settle_obj_allLoaded _ _ _ _ _ Hp).
    rewrite (settle_cons _ _ _ _ Hp), queue_then_vars, fetchPage_then_totalCount.
    reflexivity.
Qed.

(** *** An empty result *)

(** C8 (amended). With a total of 0, [ensureDataForRange] sends
    nothing, the simple-mode scroll handler sends nothing, and the
    virtual renderer returns at once, leaving rows and spacers as they
    were.  In simple mode a reload that settles with no records and
    total 0 leaves no row, a top spacer of height 0 and no bottom
    spacer, and sends nothing.  The first page is requested when the
    script starts, whatever the initial total. *)
Theorem zero_total_behaviour (st : State) :
  (totalCount (vars st) = 0 ->
   renderVirtual st = st
   /\ maybeLoadMoreSimple st = st
   /\ forall s e k,
        netlog (sys (ensureDataForRange s e k st)) = netlog (sys st)
        /\ pending (sys (ensureDataForRange s e k st)) = pending (sys st))
  /\ (forall p rest people,
        pending (sys st) = p :: rest -> pd_append p = false ->
        simpleScroll (dom st) = true ->
        people = None \/ people = Some [] ->
        let st' := settle (RespObj people (Some 0)) st in
        totalCount (vars st') = 0
        /\ tbodyRows (dom st') = []
        /\ spacerHeight (dom st') = 0
        /\ bottomSpacer (dom st') = None
        /\ netlog (sys st') = netlog (sys st)
        /\ pending (sys st') = rest)
  /\ (forall totalPeople col dir d,
        netlog (sys (start totalPeople col dir d))
        = [mkRequest 1 PER_PAGE "" false col dir]).
Proof.
  split; [| split].
  - intros Ht. split; [| split].
    + unfold renderVirtual. now rewrite Ht.
    + unfold maybeLoadMoreSimple. rewrite Ht.
      destruct (fetchInFlight (vars st)); [reflexivity |].
      assert (H : (0 <=? loaded st) = true) by (apply Z.leb_le; unfold loaded; lia).
      now rewrite H.
    + intros s e k.
      rewrite (ensureDataForRange_covered s e k st) by now right.
      now rewrite queue_then_netlog, queue_then_pending.
  - intros p rest people Hp Hap Hsimple Hpeople. cbv zeta.
    rewrite (settle_cons _ _ _ _ Hp), queue_then_vars, queue_then_dom,
      queue_then_netlog, queue_then_pending, fetchPage_then_eq, Hap.
    set (s5 := fetchPage_then_store false people (Some 0) _).
    assert (Hs5 : simpleScroll (dom s5) = true).
    { pose proof (store_dom_data false people (Some 0) (on_sys (set_pending rest) st)) as H.
      fold s5 in H. unfold dom_data in H. cbn [dom on_sys] in H. congruence. }
    assert (Hal : allLoaded (vars s5) = []).
    { unfold s5. rewrite store_allLoaded. unfold stored.
      destruct Hpeople as [-> | ->]; reflexivity. }
    assert (Htc : totalCount (vars s5) = 0).
    { unfold s5. now rewrite store_totalCount. }
    assert (Hsys : sys s5 = sys (on_sys (set_pending rest) st)).
    { unfold s5. now rewrite store_sys. }
    clearbody s5.
    unfold draw. rewrite Hs5. unfold updateCounts, renderSimple. cbn.
    rewrite Hal, Htc, Hsys. now repeat split.
  - reflexivity.
Qed.

(** *** Concrete runs *)



(** C4, counterexample. The search changes to "bob" with 100 records
    loaded and the container scrolled to 500px.  The request for "bob"
    is sent and in flight while the loaded prefix still holds the 100
    records and the scroll position is still 500. *)
Lemma fetch_precedes_clear :
  map rq_search (netlog (sys browsing)) = [""]
  /\ map rq_search (netlog (sys (dispatch (ESearch "bob") browsing))) = [""; "bob"]
  /\ map (fun p => rq_search (pd_request p))
       (pending (sys (dispatch (ESearch "bob") browsing))) = ["bob"]
  /\ allLoaded (vars (dispatch (ESearch "bob") browsing)) = page_of "ann" 0 100
  /\ scrollTop (dom (dispatch (ESearch "bob") browsing)) = 500.
Proof. vm_compute. repeat split. Qed.

Lemma query_change_order_witness :
  scrollTop (dom (dispatch (ESettle RespReject) (handle (ESearch "bob") browsing))) = 0.
Proof.
  assert (Hf : fetchInFlight (vars browsing) = false) by reflexivity.
  assert (Hp : pending (sys browsing) = []) by reflexivity.
  destruct (query_change_order (ESearch "bob") browsing eq_refl Hf Hp)
    as (_ & _ & _ & _ & _ & _ & _ & H).
  exact (H RespReject).
Defined.

(** C5, counterexample. Rows 120 to 180 are wanted, 100 of 250 records
    are loaded and page 2 is in flight.  The response is an object with
    neither people nor total.  The known total drops from 250 to 100 and
    the next [ensureDataForRange] call for the same rows sends nothing.
    In simple mode the same response ends the loading as well: scrolling
    further down requests nothing. *)
Lemma empty_object_ends_loading :
  totalCount (vars awaiting_page2) = 250
  /\ map rq_page (netlog (sys awaiting_page2)) = [1; 2]
  /\ loaded (dispatch (ESettle (RespObj None None)) awaiting_page2) = 100
  /\ totalCount (vars (dispatch (ESettle (RespObj None None)) awaiting_page2)) = 100
  /\ map rq_page
       (netlog (sys (ensureDataForRange 120 180 None
                       (dispatch (ESettle (RespObj None None)) awaiting_page2))))
     = [1; 2]
  /\ totalCount (vars near_bottom) = 250
  /\ totalCount (vars (dispatch (ESettle (RespObj None None)) near_bottom)) = 100
  /\ map rq_page
       (netlog (sys (dispatch_all [ESettle (RespObj None None); EScroll 3300] near_bottom)))
     = [1; 2].
Proof. vm_compute. repeat split. Qed.

Lemma failed_fetch_allows_retry_witness :
  allLoaded (vars (settle RespReject awaiting_page2)) = allLoaded (vars awaiting_page2)
  /\ totalCount (vars (settle RespReject awaiting_page2))
     = totalCount (vars awaiting_page2)
  /\ map rq_page
       (netlog (sys (ensureDataForRange 120 180 None (settle RespReject awaiting_page2))))
     = [1; 2; 2].
Proof.
  assert (Hp : pending (sys awaiting_page2)
               = [mkPending (mkRequest 2 PER_PAGE "" false "count" "desc") true
                    (Some (KRows 120 180 false 2800))])
    by (vm_compute; reflexivity).
  assert (Hc : ~ covered 180 awaiting_page2).
  { unfold covered. vm_compute. intros [H | H]; [now apply H | discriminate]. }
  assert (Hpage : rq_page (mkRequest 2 PER_PAGE "" false "count" "desc")
                  = loaded awaiting_page2 / PER_PAGE + 1)
    by (vm_compute; reflexivity).
  destruct (failed_fetch_allows_retry RespReject _ _ awaiting_page2 Hp) as [H _].
  destruct (H (or_introl eq_refl)) as (Ha & Ht & _ & _ & _ & _ & _ & Hsame & _).
  split; [exact Ha |]. split; [exact Ht |].
  rewrite (Hsame 120 180 None Hc Hpage). vm_compute. reflexivity.
Defined.

(** Next to C5: a reload for "bob" is rejected with 100 records of the
    unfiltered list loaded.  The next [ensureDataForRange] call asks for
    page 2 of "bob", not for page 1 again. *)
Example failed_reload_is_followed_by_page_2 :
  map (fun rq => (rq_page rq, rq_search rq))
    (netlog (sys (ensureDataForRange 120 180 None
                    (dispatch (ESettle RespReject) (handle (ESearch "bob") browsing)))))
  = [(1, ""); (1, "bob"); (2, "bob")].
Proof. vm_compute. reflexivity. Qed.

(** The slip next to C5: a reload whose body parses to [null] empties
    the loaded prefix before the failure is caught. *)
Example null_body_on_reload_empties_prefix :
  allLoaded (vars (handle (ESearch "bob") browsing)) = page_of "ann" 0 100
  /\ allLoaded (vars (dispatch (ESettle RespNull) (handle (ESearch "bob") browsing))) = [].
Proof. vm_compute. split; reflexivity. Qed.

(** C6, counterexample. Scrolled past the end of 10 rows, the window
    starts at row 0, not at row [floor(4000 / 40) = 100].  And in the
    250-row scenario the window 120..180 is drawn after page 2 alone has
    been requested: page 3 is never asked for. *)
Lemma window_start_is_clamped_and_page3_not_fetched :
  visibleStart (renderVirtual_window 4000 0 10) = 0
  /\ Z.max 0 (4000 - 0) / ROW_HEIGHT = 100
  /\ lastVisibleStart (vars row120_drawn) = 120
  /\ lastVisibleEnd (vars row120_drawn) = 180
  /\ map rq_page (netlog (sys row120_drawn)) = [1; 2]
  /\ pending (sys row120_drawn) = []
  /\ tbodyRows (dom row120_drawn) = window_rows 120 180 (page_of "ann" 0 200).
Proof. vm_compute. repeat split. Qed.

(** C8, counterexample. In virtual mode the rows 120..180 are drawn
    when a search matches nobody.  The total becomes 0, yet the 60 rows
    of the old result stay in the table, the top spacer keeps its 4800px
    and the bottom spacer its 2800px.  And a script started with a total
    of 0 requests page 1 all the same. *)
Lemma zero_total_keeps_stale_rows :
  totalCount (vars searched_nobody) = 0
  /\ allLoaded (vars searched_nobody) = []
  /\ tbodyRows (dom searched_nobody) = window_rows 120 180 (page_of "ann" 0 200)
  /\ length (tbodyRows (dom searched_nobody)) = 60%nat
  /\ spacerHeight (dom searched_nobody) = 4800
  /\ bottomSpacer (dom searched_nobody) = Some (2800, true)
  /\ map rq_page (netlog (sys (start 0 "count" "desc" (table_dom false)))) = [1]
  /\ map rq_page (netlog (sys (start 0 "count" "desc" (table_dom SIMPLE_SCROLL)))) = [1].
Proof. vm_compute. repeat split. Qed.

Lemma zero_total_behaviour_witness :
  renderVirtual searched_nobody = searched_nobody.
Proof.
  assert (Ht : totalCount (vars searched_nobody) = 0) by reflexivity.
  destruct (zero_total_behaviour searched_nobody) as [H _].
  destruct (H Ht) as [Hr _].
  exact Hr.
Defined.


(** ** Further properties of the people table *)

(** *** Geometry of the window *)

(** X1. For a total that is not negative the window lies inside the
    list, and the two spacers together with the rows of the window
    make up the height of the whole list. *)
Theorem window_geometry (scrollTop_ thead total : Z) :
  0 <= total ->
  0 <= visibleStart (renderVirtual_window scrollTop_ thead total)
  /\ visibleStart (renderVirtual_window scrollTop_ thead total)
     <= visibleEnd (renderVirtual_window scrollTop_ thead total)
  /\ visibleEnd (renderVirtual_window scrollTop_ thead total) <= total
  /\ 0 <= topHeight (renderVirtual_window scrollTop_ thead total)
  /\ 0 <= bottomHeight (renderVirtual_window scrollTop_ thead total)
  /\ topHeight (renderVirtual_window scrollTop_ thead total)
     + (visibleEnd (renderVirtual_window scrollTop_ thead total)
        - visibleStart (renderVirtual_window scrollTop_ thead total)) * ROW_HEIGHT
     + bottomHeight (renderVirtual_window scrollTop_ thead total)
     = total * ROW_HEIGHT.
Proof.
  intros Htotal.
  assert (Hrow : 0 <= Z.max 0 (scrollTop_ - thead) / ROW_HEIGHT).
  { apply Z.div_pos; unfold ROW_HEIGHT; lia. }
  unfold renderVirtual_window.
  cbn [visibleStart visibleEnd topHeight bottomHeight].
  set (row := Z.max 0 (scrollTop_ - thead) / ROW_HEIGHT) in *.
  rewrite (Z.max_r 0 row) by exact Hrow.
  unfold ROW_HEIGHT, VISIBLE_ROWS.
  destruct (Z.geb_spec row total);
    match goal with |- context [if ?b then _ else _] => destruct b eqn:Hb end;
    try apply Z.leb_le in Hb; try apply Z.leb_gt in Hb; lia.
Qed.

Lemma window_geometry_witness :
  topHeight (renderVirtual_window 4830 30 250)
  + (visibleEnd (renderVirtual_window 4830 30 250)
     - visibleStart (renderVirtual_window 4830 30 250)) * ROW_HEIGHT
  + bottomHeight (renderVirtual_window 4830 30 250)
  = 250 * ROW_HEIGHT.
Proof.
  assert (H : 0 <= 250) by lia.
  exact (proj2 (proj2 (proj2 (proj2 (proj2 (window_geometry 4830 30 250 H)))))).
Defined.

(** *** One request at a time, from the start *)

Lemma coherent_drain st : coherent st -> coherent (drain st).
Proof. apply coherent_quiet, quiet_drain. Qed.

Lemma coherent_dispatch_all evs st : coherent st -> coherent (dispatch_all evs st).
Proof.
  revert st. induction evs as [| ev evs IH]; intros st Hc; simpl; [exact Hc |].
  apply IH. unfold dispatch. apply coherent_drain, coherent_handle, Hc.
Qed.

(** X2. From the moment the script has started, whatever events and
    settlements follow and in whatever order promise reactions run, at
    most one request is in flight, and [fetchInFlight] is [true] exactly
    when there is one. *)
Theorem one_request_at_a_time (totalPeople : Z) (col dir : string) (d : Dom)
    (evs : list Event) :
  (length (pending (sys (run evs (start totalPeople col dir d)))) <= 1)%nat
  /\ (fetchInFlight (vars (run evs (start totalPeople col dir d))) = true
      <-> pending (sys (run evs (start totalPeople col dir d))) <> [])
  /\ (length (pending (sys (dispatch_all evs (start totalPeople col dir d)))) <= 1)%nat
  /\ (fetchInFlight (vars (dispatch_all evs (start totalPeople col dir d))) = true
      <-> pending (sys (dispatch_all evs (start totalPeople col dir d))) <> []).
Proof.
  assert (Hs : coherent (start totalPeople col dir d)).
  { right. split; [reflexivity |]. now eexists. }
  assert (H : forall st, coherent st ->
            (length (pending (sys st)) <= 1)%nat
            /\ (fetchInFlight (vars st) = true <-> pending (sys st) <> [])).
  { intros st [[Hf Hp] | [Hf [p Hp]]]; rewrite Hf, Hp; simpl; split; try lia;
      split; congruence. }
  destruct (H _ (coherent_run evs _ Hs)) as [H1 H2].
  destruct (H _ (coherent_dispatch_all evs _ Hs)) as [H3 H4].
  auto.
Qed.


(** *** Sort headers *)

Lemma reload_vars_data st :
  vars_data (vars (reloadPeopleAndResetScroll st)) = vars_data (vars st).
Proof. apply (same_data_fetchPage 1 _ false (Some KReload) st). Qed.

Lemma sort_click_sort c t st :
  String.eqb c "" = false ->
  sortCol (vars (sort_click c t st))
  = (if String.eqb c (sortCol (vars st)) then sortCol (vars st) else c)
  /\ sortDir (vars (sort_click c t st))
     = (if String.eqb c (sortCol (vars st))
        then (if String.eqb (sortDir (vars st)) "asc" then "desc" else "asc")
        else (if String.eqb t "string" then "asc" else "desc")).
Proof.
  intros Hc. unfold sort_click. rewrite Hc.
  match goal with
  | |- context [reloadPeopleAndResetScroll ?s] =>
      pose proof (reload_vars_data s) as H
  end.
  unfold vars_data in H.
  destruct (String.eqb c (sortCol (vars st))); cbn in H;
    split; congruence.
Qed.

(** X4. A click on a header whose [data-col] is empty does nothing.  A
    click on the header of the active sort column flips the direction,
    so two clicks on it give back the direction there was (if it was
    "asc" or "desc"); a click on another column selects it, with "asc"
    for a column of type "string" and "desc" for any other type.  After
    a click on a header that names a column the direction is always
    "asc" or "desc". *)
Theorem sort_header_click (c t : string) (st : State) :
  c <> "" ->
  sort_click "" t st = st
  /\ (c = sortCol (vars st) ->
      sortDir (vars st) = "asc" \/ sortDir (vars st) = "desc" ->
      forall t',
        sortCol (vars (sort_click c t' (sort_click c t st))) = sortCol (vars st)
        /\ sortDir (vars (sort_click c t' (sort_click c t st))) = sortDir (vars st)
        /\ sortDir (vars (sort_click c t st)) <> sortDir (vars st))
  /\ (c <> sortCol (vars st) ->
      sortCol (vars (sort_click c t st)) = c
      /\ sortDir (vars (sort_click c t st)) = (if String.eqb t "string" then "asc" else "desc"))
  /\ (sortDir (vars (sort_click c t st)) = "asc"
      \/ sortDir (vars (sort_click c t st)) = "desc").
Proof.
  intros Hcol. apply String.eqb_neq in Hcol.
  destruct (sort_click_sort c t st Hcol) as [Hc Hd].
  split; [reflexivity |]. split; [| split].
  - intros Heq Hdir t'.
    destruct (sort_click_sort c t' (sort_click c t st) Hcol) as [Hc' Hd'].
    rewrite Hc' , Hd', Hc, Hd. subst c. rewrite String.eqb_refl.
    rewrite String.eqb_refl.
    destruct Hdir as [-> | ->]; cbn; repeat split; congruence.
  - intros Hne. apply String.eqb_neq in Hne. rewrite Hc, Hd, Hne. auto.
  - rewrite Hd. repeat match goal with
    | |- context [if ?b then _ else _] => destruct b
    end; auto.
Qed.

Lemma sort_header_click_witness :
  sortCol (vars (sort_click "count" "number" (sort_click "count" "number" browsing))) = "count"
  /\ sortDir (vars (sort_click "count" "number" (sort_click "count" "number" browsing))) = "desc"
  /\ sortCol (vars (sort_click "name" "string" browsing)) = "name"
  /\ sortDir (vars (sort_click "name" "string" browsing)) = "asc".
Proof.
  assert (Hc : "count" = sortCol (vars browsing)) by reflexivity.
  assert (Hd : sortDir (vars browsing) = "asc" \/ sortDir (vars browsing) = "desc")
    by (right; reflexivity).
  assert (Hn : "name" <> sortCol (vars browsing)) by (vm_compute; discriminate).
  assert (Hc1 : "count" <> "") by discriminate.
  assert (Hc2 : "name" <> "") by discriminate.
  destruct (sort_header_click "count" "number" browsing Hc1) as (_ & H1 & _).
  destruct (H1 Hc Hd "number") as (Ha & Hb & _).
  destruct (sort_header_click "name" "string" browsing Hc2) as (_ & _ & H2 & _).
  destruct (H2 Hn) as [Hx Hy].
  exact (conj Ha (conj Hb (conj Hx Hy))).
Defined.

(** *** Append requests never lose records *)

(** X6. However a request sent in append mode settles (records, an
    object without records, a null body, a rejection), the records
    loaded before it are still there afterwards, in the same order and
    at the same positions; what arrives is added behind them. *)
Theorem append_keeps_loaded_records (r : Response) (p : Pending) (rest : list Pending)
    (st : State) :
  pending (sys st) = p :: rest ->
  pd_append p = true ->
  allLoaded (vars st) `prefix_of` allLoaded (vars (dispatch (ESettle r) st))
  /\ (forall people total, r = RespObj people total ->
        allLoaded (vars (dispatch (ESettle r) st))
        = allLoaded (vars st) ++ default [] people)
  /\ (forall i x, allLoaded (vars st) !! i = Some x ->
        allLoaded (vars (dispatch (ESettle r) st)) !! i = Some x).
Proof.
  intros Hp Hap.
  assert (H : exists tail, allLoaded (vars (dispatch (ESettle r) st))
                           = allLoaded (vars st) ++ tail
                           /\ (forall people total, r = RespObj people total ->
                                 tail = default [] people)).
  { unfold dispatch. rewrite drain_allLoaded. cbn [handle].
    destruct r as [| | people total].
    - exists []. rewrite (settle_cons _ _ _ _ Hp), queue_then_vars, app_nil_r.
      split; [reflexivity | discriminate].
    - exists []. rewrite (settle_cons _ _ _ _ Hp), queue_then_vars, Hap, app_nil_r.
      split; [reflexivity | discriminate].
    - exists (default [] people).
      rewrite (settle_obj_allLoaded _ _ _ _ _ Hp). unfold stored. rewrite Hap.
      split; [reflexivity | congruence]. }
  destruct H as (tail & Ht & Hobj).
  split; [| split].
  - rewrite Ht. now apply prefix_app_r.
  - intros people total Hr. rewrite Ht. f_equal. eauto.
  - intros i x Hi. rewrite Ht. now apply lookup_app_l_Some.
Qed.

Lemma append_keeps_loaded_records_witness :
  allLoaded (vars awaiting_page2)
    `prefix_of` allLoaded (vars (dispatch (ESettle RespNull) awaiting_page2)).
Proof.
  assert (Hp : pending (sys awaiting_page2)
               = [mkPending (mkRequest 2 PER_PAGE "" false "count" "desc") true
                    (Some (KRows 120 180 false 2800))])
    by (vm_compute; reflexivity).
  exact (proj1 (append_keeps_loaded_records RespNull _ _ awaiting_page2 Hp eq_refl)).
Defined.


(** *** The rows of a window *)

(** X8. The loop that draws a window makes one row for each loaded record
    at the indices [visibleStart], [visibleStart + 1], ... below both
    [visibleEnd] and the length of the loaded prefix, in that order, and
    nothing else; for the window of [renderVirtual] these are at most
    [VISIBLE_ROWS] rows. *)
Theorem window_rows_lookup (vs ve : Z) (l : list Person) (i : nat) :
  0 <= vs ->
  window_rows vs ve l !! i
  = (if Z.of_nat i <? Z.min ve (Z.of_nat (length l)) - vs
     then buildRow <$> l !! (Z.to_nat vs + i)%nat
     else None)
  /\ (forall scrollTop_ thead total,
        0 < total ->
        (length (window_rows (visibleStart (renderVirtual_window scrollTop_ thead total))
                   (visibleEnd (renderVirtual_window scrollTop_ thead total)) l)
         <= Z.to_nat VISIBLE_ROWS)%nat).
Proof.
  intros Hvs. split.
  - unfold window_rows.
    change (map buildRow ?x) with (buildRow <$> x).
    rewrite list_lookup_fmap.
    destruct (Z.ltb_spec (Z.of_nat i) (Z.min ve (Z.of_nat (length l)) - vs)) as [Hlt | Hge].
    + rewrite lookup_take_lt by lia. now rewrite lookup_drop.
    + rewrite lookup_take_ge by lia. reflexivity.
  - intros scrollTop_ thead total Htotal.
    pose proof (window_start_nonneg scrollTop_ thead total) as Hs.
    pose proof (window_rows_length (visibleStart (renderVirtual_window scrollTop_ thead total))
                  (visibleEnd (renderVirtual_window scrollTop_ thead total)) l Hs) as Hlen.
    assert (Hw : visibleEnd (renderVirtual_window scrollTop_ thead total)
                 - visibleStart (renderVirtual_window scrollTop_ thead total) <= VISIBLE_ROWS).
    { unfold renderVirtual_window; cbn [visibleStart visibleEnd].
      set (s0 := Z.max 0 (Z.max 0 (scrollTop_ - thead) / ROW_HEIGHT)).
      unfold VISIBLE_ROWS.
      destruct (Z.geb_spec s0 total) as [Hge | Hlt].
      - destruct (Z.leb_spec (Z.min total (s0 + 60)) (Z.max 0 (total - 60))); lia.
      - destruct (Z.leb_spec (Z.min total (s0 + 60)) s0); lia. }
    unfold VISIBLE_ROWS in *. lia.
Qed.

Lemma window_rows_lookup_witness :
  window_rows 120 180 (page_of "ann" 0 200) !! 5%nat
  = (if Z.of_nat 5 <? Z.min 180 (Z.of_nat (length (page_of "ann" 0 200))) - 120
     then buildRow <$> page_of "ann" 0 200 !! (Z.to_nat 120 + 5)%nat
     else None).
Proof.
  assert (H : 0 <= 120) by lia.
  exact (proj1 (window_rows_lookup 120 180 (page_of "ann" 0 200) 5 H)).
Defined.

(** *** Scroll events between two frames *)







(** *** A query change while a request is in flight *)

(** X10. A change of search text or active-only flag, or a click on a
    header that names a column, made while a request is in flight sends
    no request of its own and leaves the request in flight and the
    loaded records alone; the new search text is kept in
    [currentSearch], and the scroll position is reset to the top at
    once. *)
Theorem query_change_in_flight (ev : Event) (st : State) :
  is_query_change ev = true ->
  fetchInFlight (vars st) = true ->
  netlog (sys (dispatch ev st)) = netlog (sys st)
  /\ pending (sys (dispatch ev st)) = pending (sys st)
  /\ fetchInFlight (vars (dispatch ev st)) = true
  /\ allLoaded (vars (dispatch ev st)) = allLoaded (vars st)
  /\ scrollTop (dom (dispatch ev st)) = 0
  /\ (forall s, ev = ESearch s -> currentSearch (vars (dispatch ev st)) = s).
Proof.
  intros Hq Hf.
  destruct (handle_query_change ev st Hq) as (st0 & He & Hd & Hs & Ha & Ht & Hf0).
  rewrite Hf in Hf0.
  assert (Hk : handle ev st = queue_then (Some KReload) st0).
  { rewrite He. unfold reloadPeopleAndResetScroll, fetchPage. now rewrite Hf0. }
  assert (Hfl : fetchInFlight (vars (handle ev st)) = true).
  { now rewrite Hk, queue_then_vars. }
  destruct (quiet_in_flight _ _ (quiet_drain (handle ev st)) Hfl) as (Hf' & Hp' & Hn').
  unfold dispatch. rewrite Hn', Hp', Hf', drain_allLoaded.
  rewrite Hk at 1 2 3. rewrite queue_then_netlog, queue_then_pending, queue_then_vars, Hs, Ha.
  repeat split.
  - apply drain_resets_scroll. rewrite Hk, queue_then_microtasks.
    apply in_or_app. right. now left.
  - intros s ->.
    pose proof (drain_vars_data (handle (ESearch s) st)) as Hv.
    cbn [handle] in Hv. rewrite reload_vars_data in Hv.
    unfold vars_data in Hv. cbn in Hv. cbn [handle]. congruence.
Qed.

Lemma query_change_in_flight_witness :
  netlog (sys (dispatch (ESearch "bob") near_bottom)) = netlog (sys near_bottom)
  /\ scrollTop (dom (dispatch (ESearch "bob") near_bottom)) = 0.
Proof.
  assert (Hf : fetchInFlight (vars near_bottom) = true) by reflexivity.
  destruct (query_change_in_flight (ESearch "bob") near_bottom eq_refl Hf)
    as (Hn & _ & _ & _ & Hs & _).
  exact (conj Hn Hs).
Defined.


(** *** Well-formed requests and the loading indicator *)

Lemma tidy_ext st st' :
  netlog (sys st') = netlog (sys st) ->
  loadingShown (dom st') = loadingShown (dom st) ->
  fetchInFlight (vars st') = fetchInFlight (vars st) ->
  tidy st -> tidy st'.
Proof. intros Hn Hl Hf [H1 H2]. split; [now rewrite Hn | now rewrite Hl, Hf]. Qed.

Lemma tidy_queue_then k st : tidy st -> tidy (queue_then k st).
Proof. apply tidy_ext; destruct k; reflexivity. Qed.

Lemma tidy_fetchPage page search ap k st :
  1 <= page -> tidy st -> tidy (fetchPage page search ap k st).
Proof.
  intros Hpage Ht. unfold fetchPage.
  destruct (fetchInFlight (vars st)) eqn:Hf; [now apply tidy_queue_then |].
  destruct Ht as [H1 H2]. split.
  - destruct ap; cbn; apply Forall_app; (split; [exact H1 |]);
      repeat constructor; assumption.
  - intros _. now destruct ap.
Qed.

Lemma next_page_positive st : 1 <= loaded st / PER_PAGE + 1.
Proof.
  assert (0 <= loaded st / PER_PAGE); [| lia].
  apply Z.div_pos; unfold loaded, PER_PAGE; lia.
Qed.

Lemma tidy_ensureDataForRange s e k st : tidy st -> tidy (ensureDataForRange s e k st).
Proof.
  intros Ht. unfold ensureDataForRange.
  destruct (_ || _); [now apply tidy_queue_then |].
  apply tidy_fetchPage; [apply next_page_positive | exact Ht].
Qed.

Lemma tidy_renderVirtual st : tidy st -> tidy (renderVirtual st).
Proof.
  intros Ht. unfold renderVirtual.
  destruct (totalCount (vars st) <=? 0); [exact Ht |].
  apply tidy_ensureDataForRange.
  destruct (theadHeight (vars st) =? 0); revert Ht; now apply tidy_ext.
Qed.

Lemma tidy_renderVirtual_then vs ve ru bh st : tidy st -> tidy (renderVirtual_then vs ve ru bh st).
Proof.
  apply tidy_ext; unfold renderVirtual_then; case_ifs; try reflexivity;
    cbn; destruct (bottomSpacer (dom st)) as [[h b] |]; reflexivity.
Qed.

Lemma tidy_maybeLoadMoreSimple st : tidy st -> tidy (maybeLoadMoreSimple st).
Proof.
  intros Ht. unfold maybeLoadMoreSimple.
  destruct (fetchInFlight (vars st)); [exact Ht |].
  destruct (_ <=? _); [exact Ht |].
  destruct (negb _); [exact Ht |].
  apply tidy_fetchPage; [apply next_page_positive | exact Ht].
Qed.

Lemma tidy_reload st : tidy st -> tidy (reloadPeopleAndResetScroll st).
Proof. apply tidy_fetchPage. lia. Qed.

Lemma tidy_run_cont k st : tidy st -> tidy (run_cont k st).
Proof.
  intros Ht. destruct k; cbn [run_cont].
  - now apply tidy_renderVirtual_then.
  - unfold reloadPeopleAndResetScroll_then.
    assert (Ht' : tidy (on_dom (set_scrollTop 0) st)) by (revert Ht; now apply tidy_ext).
    destruct (simpleScroll _); [now apply tidy_maybeLoadMoreSimple | now apply tidy_renderVirtual].
  - now apply tidy_maybeLoadMoreSimple.
  - destruct (simpleScroll _); [now apply tidy_maybeLoadMoreSimple | exact Ht].
Qed.

Lemma store_loadingShown append people total st :
  loadingShown (dom (fetchPage_then_store append people total st)) = false.
Proof. unfold fetchPage_then_store. destruct append; case_ifs; reflexivity. Qed.

Lemma tidy_fetchPage_then append people total st :
  Forall request_ok (netlog (sys st)) -> tidy (fetchPage_then append people total st).
Proof.
  intros Hn. unfold fetchPage_then.
  assert (Hs : tidy (fetchPage_then_store append people total st)).
  { split; [now rewrite store_sys | now rewrite store_loadingShown]. }
  assert (Hd : tidy (draw (fetchPage_then_store append people total st))).
  { unfold draw. destruct (simpleScroll _); [| now apply tidy_renderVirtual].
    revert Hs. now apply tidy_ext. }
  revert Hd. now apply tidy_ext.
Qed.

Lemma tidy_settle r st : tidy st -> tidy (settle r st).
Proof.
  intros Ht. unfold settle.
  destruct (pending (sys st)) as [| p rest]; [exact Ht |].
  apply tidy_queue_then. destruct Ht as [Hn _]. destruct r.
  - split; [exact Hn | discriminate].
  - split; [now destruct (pd_append p) | discriminate].
  - now apply tidy_fetchPage_then.
Qed.

Lemma tidy_handle ev st : tidy st -> tidy (handle ev st).
Proof.
  intros Ht. destruct ev; cbn [handle].
  - apply tidy_reload. revert Ht. now apply tidy_ext.
  - apply tidy_reload. revert Ht. now apply tidy_ext.
  - unfold sort_click. destruct (String.eqb clickedCol ""); [exact Ht |].
    apply tidy_reload.
    destruct (String.eqb clickedCol _); revert Ht; now apply tidy_ext.
  - assert (Ht' : tidy (on_dom (set_scrollTop top) st)) by (revert Ht; now apply tidy_ext).
    destruct (simpleScroll _); [now apply tidy_maybeLoadMoreSimple |].
    revert Ht'. now apply tidy_ext.
  - destruct (rafId (vars st)); [| exact Ht].
    apply tidy_renderVirtual. revert Ht. now apply tidy_ext.
  - now apply tidy_settle.
  - destruct (microtasks (sys st)) as [| k rest]; [exact Ht |].
    apply tidy_run_cont. revert Ht. now apply tidy_ext.
Qed.

Lemma tidy_run evs st : tidy st -> tidy (run evs st).
Proof.
  revert st. induction evs as [| ev evs IH]; intros st Ht; [exact Ht |].
  apply IH, tidy_handle, Ht.
Qed.

Lemma tidy_start totalPeople col dir d : tidy (start totalPeople col dir d).
Proof.
  split.
  - repeat constructor. cbn. lia.
  - reflexivity.
Qed.

(** X3. Every request the script ever sends, from its start on and
    whatever happens, asks for [PER_PAGE] records of a page whose number
    is at least 1. *)
Theorem requests_well_formed (totalPeople : Z) (col dir : string) (d : Dom)
    (evs : list Event) (rq : Request) :
  In rq (netlog (sys (run evs (start totalPeople col dir d)))) ->
  rq_per_page rq = PER_PAGE /\ 1 <= rq_page rq.
Proof.
  intros Hin.
  destruct (tidy_run evs _ (tidy_start totalPeople col dir d)) as [Hn _].
  rewrite Forall_forall in Hn. apply Hn. now apply list_elem_of_In.
Qed.

Lemma requests_well_formed_witness :
  rq_per_page (mkRequest 2 PER_PAGE "" false "count" "desc") = PER_PAGE
  /\ 1 <= rq_page (mkRequest 2 PER_PAGE "" false "count" "desc").
Proof.
  apply (requests_well_formed 250 "count" "desc" (table_dom true)
           [ESettle (RespObj (Some (page_of "ann" 0 100)) (Some 250)); EMicro; EScroll 3100]).
  vm_compute. right. now left.
Defined.

(** X11. From the start of the script on, the loading indicator is
    shown only while a request is in flight; and once a request has
    settled, in whatever way, the indicator is hidden. *)
Theorem loading_indicator (totalPeople : Z) (col dir : string) (d : Dom)
    (evs : list Event) :
  (loadingShown (dom (run evs (start totalPeople col dir d))) = true ->
   fetchInFlight (vars (run evs (start totalPeople col dir d))) = true
   /\ pending (sys (run evs (start totalPeople col dir d))) <> [])
  /\ (forall r,
        pending (sys (run evs (start totalPeople col dir d))) <> [] ->
        loadingShown (dom (handle (ESettle r) (run evs (start totalPeople col dir d))))
        = false).
Proof.
  pose proof (tidy_run evs _ (tidy_start totalPeople col dir d)) as [_ Ht].
  pose proof (coherent_start totalPeople col dir d evs) as Hc.
  generalize dependent (run evs (start totalPeople col dir d)). intros st Ht Hc.
  split.
  - intros Hl. specialize (Ht Hl). split; [exact Ht |].
    destruct Hc as [[Hf _] | [_ [p Hp]]]; congruence.
  - intros r Hne. cbn [handle]. unfold settle.
    destruct (pending (sys st)) as [| p rest]; [contradiction |].
    rewrite queue_then_dom. destruct r.
    + reflexivity.
    + now destruct (pd_append p).
    + unfold fetchPage_then, updateCounts. cbn [dom on_dom loadingShown set_countsShown].
      set (s5 := fetchPage_then_store _ _ _ _).
      assert (H5 : loadingShown (dom s5) = false) by apply store_loadingShown.
      clearbody s5. unfold draw.
      destruct (simpleScroll (dom s5)); [exact H5 |].
      unfold renderVirtual, ensureDataForRange, fetchPage, queue_then.
      destruct (totalCount (vars s5) <=? 0); [exact H5 |].
      destruct (theadHeight (vars s5) =? 0); case_ifs; exact H5.
Qed.

Lemma loading_indicator_witness :
  fetchInFlight (vars (run [] (started true))) = true
  /\ loadingShown
       (dom (handle (ESettle RespReject) (run [EScroll 10] (started true)))) = false.
Proof.
  split.
  - apply (loading_indicator 250 "count" "desc" (table_dom true) []). reflexivity.
  - apply (loading_indicator 250 "count" "desc" (table_dom true) [EScroll 10]).
    vm_compute. discriminate.
Defined.


(** *** Simple mode shows what is loaded *)

Lemma simple_view_ext st st' :
  simpleScroll (dom st') = simpleScroll (dom st) ->
  rafId (vars st') = rafId (vars st) ->
  sys st' = sys st ->
  tbodyRows (dom st') = tbodyRows (dom st) ->
  allLoaded (vars st') = allLoaded (vars st) ->
  simple_view st -> simple_view st'.
Proof.
  intros H1 H2 H3 H4 H5 (I1 & I2 & I3 & I4 & I5).
  unfold simple_view. rewrite H1, H2, H3, H4, H5. auto.
Qed.

Lemma simple_view_fetchPage page search ap c st :
  is_rows c = false -> simple_view st -> simple_view (fetchPage page search ap (Some c) st).
Proof.
  intros Hc (I1 & I2 & I3 & I4 & I5). unfold fetchPage.
  destruct (fetchInFlight (vars st)).
  - repeat split; try assumption. cbn. apply Forall_app. split; [exact I3 |].
    now repeat constructor.
  - destruct ap; (repeat split; try assumption); cbn;
      apply Forall_app; (split; [exact I4 |]); repeat constructor;
      cbn; intros k [= <-]; exact Hc.
Qed.

Lemma simple_view_maybeLoadMoreSimple st :
  simple_view st -> simple_view (maybeLoadMoreSimple st).
Proof.
  intros Hv. unfold maybeLoadMoreSimple. case_ifs; try exact Hv.
  now apply simple_view_fetchPage.
Qed.

Lemma store_rafId append people total st :
  rafId (vars (fetchPage_then_store append people total st)) = rafId (vars st).
Proof. unfold fetchPage_then_store. destruct append; case_ifs; reflexivity. Qed.

Lemma simple_view_fetchPage_then append people total st :
  simpleScroll (dom st) = true -> rafId (vars st) = false ->
  Forall (fun k => is_rows k = false) (microtasks (sys st)) ->
  Forall (fun p => forall k, pd_then p = Some k -> is_rows k = false) (pending (sys st)) ->
  simple_view (fetchPage_then append people total st).
Proof.
  intros H1 H2 H3 H4. unfold fetchPage_then.
  set (s5 := fetchPage_then_store append people total st).
  assert (G1 : simpleScroll (dom s5) = true).
  { pose proof (store_dom_data append people total st) as H.
    fold s5 in H. unfold dom_data in H. congruence. }
  assert (G2 : rafId (vars s5) = false) by (unfold s5; now rewrite store_rafId).
  assert (G3 : sys s5 = sys st) by apply store_sys.
  clearbody s5. unfold draw. rewrite G1.
  unfold simple_view, updateCounts, renderSimple. cbn. rewrite G1, G2, G3. auto.
Qed.

Lemma simple_view_queue_then k st :
  (forall c, k = Some c -> is_rows c = false) ->
  simple_view st -> simple_view (queue_then k st).
Proof.
  intros Hk (I1 & I2 & I3 & I4 & I5). destruct k as [c |]; [| repeat split; assumption].
  repeat split; try assumption. cbn. apply Forall_app. split; [exact I3 |].
  repeat constructor. now apply Hk.
Qed.

Lemma simple_view_handle ev st :
  no_null_body ev = true -> simple_view st -> simple_view (handle ev st).
Proof.
  intros Hev Hv. destruct ev; cbn [handle].
  - apply simple_view_fetchPage; [reflexivity |]. revert Hv. now apply simple_view_ext.
  - apply simple_view_fetchPage; [reflexivity |]. revert Hv. now apply simple_view_ext.
  - unfold sort_click. destruct (String.eqb clickedCol ""); [exact Hv |].
    apply simple_view_fetchPage; [reflexivity |].
    destruct (String.eqb clickedCol _); revert Hv; now apply simple_view_ext.
  - assert (Hv' : simple_view (on_dom (set_scrollTop top) st))
      by (revert Hv; now apply simple_view_ext).
    destruct Hv as (I1 & _).
    change (simpleScroll (dom (on_dom (set_scrollTop top) st))) with (simpleScroll (dom st)).
    rewrite I1. now apply simple_view_maybeLoadMoreSimple.
  - destruct Hv as (I1 & I2 & I3 & I4 & I5). rewrite I2. now repeat split.
  - unfold settle. destruct (pending (sys st)) as [| p rest] eqn:Hp; [exact Hv |].
    destruct Hv as (I1 & I2 & I3 & I4 & I5). rewrite Hp in I4.
    apply Forall_cons in I4 as [Ip Irest].
    apply simple_view_queue_then; [exact Ip |].
    destruct r; [| discriminate |].
    + repeat split; assumption.
    + now apply simple_view_fetchPage_then.
  - destruct (microtasks (sys st)) as [| k rest] eqn:Hm; [exact Hv |].
    destruct Hv as (I1 & I2 & I3 & I4 & I5). rewrite Hm in I3.
    apply Forall_cons in I3 as [Ik Irest].
    assert (Hv' : simple_view (on_sys (set_microtasks rest) st)) by (repeat split; assumption).
    destruct k; try discriminate; cbn [run_cont].
    + unfold reloadPeopleAndResetScroll_then.
      change (simpleScroll (dom (on_dom (set_scrollTop 0) (on_sys (set_microtasks rest) st))))
        with (simpleScroll (dom st)).
      rewrite I1. apply simple_view_maybeLoadMoreSimple.
      revert Hv'. now apply simple_view_ext.
    + now apply simple_view_maybeLoadMoreSimple.
    + change (simpleScroll (dom (on_sys (set_microtasks rest) st)))
        with (simpleScroll (dom st)).
      rewrite I1. now apply simple_view_maybeLoadMoreSimple.
Qed.

Lemma simple_view_run evs st :
  forallb no_null_body evs = true -> simple_view st -> simple_view (run evs st).
Proof.
  revert st. induction evs as [| ev evs IH]; intros st Hall Hv; [exact Hv |].
  cbn [forallb] in Hall. apply andb_true_iff in Hall as [Hev Hrest].
  apply IH; [exact Hrest | now apply simple_view_handle].
Qed.

(** X5. In simple mode, with a table that is empty when the script
    starts and as long as no response body is [null], the rows of the
    table are at every moment exactly the loaded records, one row each
    and in their order; nothing of the virtual renderer ever runs. *)
Theorem simple_mode_shows_loaded (totalPeople : Z) (col dir : string) (d : Dom)
    (evs : list Event) :
  simpleScroll d = true ->
  tbodyRows d = [] ->
  forallb no_null_body evs = true ->
  tbodyRows (dom (run evs (start totalPeople col dir d)))
  = map buildRow (allLoaded (vars (run evs (start totalPeople col dir d))))
  /\ rafId (vars (run evs (start totalPeople col dir d))) = false
  /\ Forall (fun k => is_rows k = false)
       (microtasks (sys (run evs (start totalPeople col dir d)))).
Proof.
  intros Hs Hrows Hall.
  assert (H0 : simple_view (start totalPeople col dir d)).
  { unfold start, initial_load. apply simple_view_fetchPage; [reflexivity |].
    repeat split; cbn; try assumption; constructor. }
  destruct (simple_view_run evs _ Hall H0) as (_ & I2 & I3 & _ & I5). auto.
Qed.

Lemma simple_mode_shows_loaded_witness :
  tbodyRows (dom (run [ESettle (RespObj (Some (page_of "ann" 0 100)) (Some 250)); EMicro;
                       EScroll 3100; ESearch "bob"; EMicro;
                       ESettle (RespObj (Some (page_of "ann" 100 100)) (Some 250))]
                    (start 250 "count" "desc" (table_dom true))))
  = map buildRow
      (allLoaded (vars (run [ESettle (RespObj (Some (page_of "ann" 0 100)) (Some 250)); EMicro;
                             EScroll 3100; ESearch "bob"; EMicro;
                             ESettle (RespObj (Some (page_of "ann" 100 100)) (Some 250))]
                          (start 250 "count" "desc" (table_dom true))))).
Proof.
  exact (proj1 (simple_mode_shows_loaded 250 "count" "desc" (table_dom true)
                  [ESettle (RespObj (Some (page_of "ann" 0 100)) (Some 250)); EMicro;
                   EScroll 3100; ESearch "bob"; EMicro;
                   ESettle (RespObj (Some (page_of "ann" 100 100)) (Some 250))]
                  eq_refl eq_refl eq_refl)).
Defined.


(** *** A page that arrives short *)

Lemma fetchPage_then_simple append people total st :
  simpleScroll (dom st) = true ->
  let st' := fetchPage_then append people total st in
  fetchInFlight (vars st') = false
  /\ vars_data (vars st')
     = (stored append people st,
        default (Z.of_nat (length (stored append people st))) total,
        currentSearch (vars st), currentActiveOnly (vars st),
        sortCol (vars st), sortDir (vars st))
  /\ (scrollTop (dom st'), clientHeight (dom st'), scrollHeight (dom st'))
     = (scrollTop (dom st), clientHeight (dom st), scrollHeight (dom st))
  /\ sys st' = sys st.
Proof.
  intros Hs. cbv zeta. unfold fetchPage_then.
  set (s5 := fetchPage_then_store append people total st).
  assert (G1 : simpleScroll (dom s5) = true).
  { pose proof (store_dom_data append people total st) as H.
    fold s5 in H. unfold dom_data in H. congruence. }
  assert (G2 : fetchInFlight (vars s5) = false) by apply store_fetchInFlight.
  assert (G3 : sys s5 = sys st) by apply store_sys.
  assert (G4 : allLoaded (vars s5) = stored append people st) by apply store_allLoaded.
  assert (G5 : totalCount (vars s5)
               = default (Z.of_nat (length (stored append people st))) total)
    by apply store_totalCount.
  assert (G6 : dom_data (dom s5) = dom_data (dom st)) by apply store_dom_data.
  assert (G7 : (currentSearch (vars s5), currentActiveOnly (vars s5),
                sortCol (vars s5), sortDir (vars s5))
               = (currentSearch (vars st), currentActiveOnly (vars st),
                  sortCol (vars st), sortDir (vars st))).
  { unfold s5, fetchPage_then_store. destruct append; case_ifs; reflexivity. }
  clearbody s5. unfold draw. rewrite G1.
  unfold updateCounts, renderSimple, vars_data. cbn.
  unfold dom_data in G6. rewrite G2, G3, G4, G5.
  repeat split; congruence.
Qed.

(** X7. In simple mode, let a page arrive with records but without
    completing a page of [PER_PAGE] (the loaded count stays below the
    next multiple of [PER_PAGE]) while the total says that more remain.
    The records are appended and drawn, and the callback of
    [maybeLoadMoreSimple] is queued.  When the container, laid out again
    with the new rows, is still within 320px of its bottom, that callback
    sends a request that asks for the same page number again, with the
    current search. *)
Theorem short_page_is_requested_again (p : Pending) (rest : list Pending)
    (people : list Person) (total h : Z) (st : State) :
  simpleScroll (dom st) = true ->
  pending (sys st) = p :: rest ->
  pd_append p = true ->
  pd_then p = Some KMore ->
  microtasks (sys st) = [] ->
  rq_page (pd_request p) = loaded st / PER_PAGE + 1 ->
  (loaded st + Z.of_nat (length people)) / PER_PAGE = loaded st / PER_PAGE ->
  loaded st + Z.of_nat (length people) < total ->
  h - 320 <= scrollTop (dom st) + clientHeight (dom st) ->
  let arrived := handle (ESettle (RespObj (Some people) (Some total))) st in
  let laid_out := relayout h arrived in
  allLoaded (vars arrived) = allLoaded (vars st) ++ people
  /\ tbodyRows (dom arrived) = map buildRow (allLoaded (vars st) ++ people)
  /\ netlog (sys arrived) = netlog (sys st)
  /\ microtasks (sys laid_out) = [KMore]
  /\ exists rq,
       netlog (sys (handle EMicro laid_out)) = netlog (sys st) ++ [rq]
       /\ rq_page rq = rq_page (pd_request p)
       /\ rq_search rq = currentSearch (vars st)
       /\ allLoaded (vars (handle EMicro laid_out)) = allLoaded (vars st) ++ people.
Proof.
  intros Hs Hp Hap Hk Hm Hpage Hshort Hmore Hnear.
  cbv zeta. cbn [handle]. rewrite (settle_cons _ _ _ _ Hp), Hap, Hk.
  destruct (fetchPage_then_simple true (Some people) (Some total)
              (on_sys (set_pending rest) st) Hs) as (F1 & F2 & F3 & F4).
  assert (Hrows : tbodyRows (dom (fetchPage_then true (Some people) (Some total)
                                    (on_sys (set_pending rest) st)))
                  = map buildRow (allLoaded (vars st) ++ people)).
  { rewrite fetchPage_then_eq.
    set (s5 := fetchPage_then_store true (Some people) (Some total) _).
    assert (G1 : simpleScroll (dom s5) = true).
    { pose proof (store_dom_data true (Some people) (Some total)
                    (on_sys (set_pending rest) st)) as H.
      fold s5 in H. unfold dom_data in H. cbn [dom on_sys] in H. congruence. }
    assert (G4 : allLoaded (vars s5) = allLoaded (vars st) ++ people).
    { unfold s5. now rewrite store_allLoaded. }
    clearbody s5. unfold draw. rewrite G1. unfold updateCounts, renderSimple. cbn.
    now rewrite G4. }
  set (s6 := fetchPage_then true (Some people) (Some total) (on_sys (set_pending rest) st))
    in *.
  clearbody s6.
  unfold vars_data, stored in F2. cbn in F2, F3, F4.
  injection F2 as A1 A2 A3 A4 A5 A6. injection F3 as B1 B2 B3.
  assert (Hl : loaded s6 = loaded st + Z.of_nat (length people)).
  { unfold loaded. rewrite A1, length_app. lia. }
  assert (Hq : microtasks (sys (relayout h (queue_then (Some KMore) s6))) = [KMore]).
  { unfold relayout. cbn [sys on_dom]. rewrite queue_then_microtasks, F4. cbn.
    now rewrite Hm. }
  split; [rewrite queue_then_vars; exact A1 |].
  split; [rewrite queue_then_dom; exact Hrows |].
  split; [rewrite queue_then_netlog, F4; reflexivity |].
  split; [exact Hq |].
  rewrite Hq. cbn [run_cont].
  set (s7 := on_sys (set_microtasks []) (relayout h (queue_then (Some KMore) s6))).
  assert (Hv7 : vars s7 = vars s6) by reflexivity.
  assert (D1 : scrollTop (dom s7) = scrollTop (dom s6)) by reflexivity.
  assert (D2 : clientHeight (dom s7) = clientHeight (dom s6)) by reflexivity.
  assert (D3 : scrollHeight (dom s7) = h) by reflexivity.
  assert (Hn7 : netlog (sys s7) = netlog (sys st)).
  { unfold s7. cbn. now rewrite F4. }
  assert (Hl7 : loaded s7 = loaded s6) by reflexivity.
  unfold maybeLoadMoreSimple, fetchPage.
  rewrite Hv7, Hl7, F1, A2, Hl, D1, D2, D3, B1, B2.
  cbn [default].
  destruct (Z.leb_spec total (loaded st + Z.of_nat (length people))) as [Hle | _]; [lia |].
  destruct (Z.leb_spec (h - 320)
              (scrollTop (dom st) + clientHeight (dom st))) as [_ | Hgt]; [| lia].
  cbn [negb].
  eexists. split; [| split; [| split]].
  - cbn. rewrite F4. reflexivity.
  - cbn. rewrite Hshort. now rewrite Hpage.
  - cbn. exact A3.
  - cbn. exact A1.
Qed.

Lemma short_page_is_requested_again_witness :
  exists rq,
    netlog (sys (handle EMicro
                   (relayout 4230
                      (handle (ESettle (RespObj (Some (page_of "ann" 100 5)) (Some 250)))
                         at_bottom))))
    = netlog (sys at_bottom) ++ [rq]
    /\ rq_page rq = 2.
Proof.
  assert (Hp : pending (sys at_bottom)
               = [mkPending (mkRequest 2 PER_PAGE "" false "count" "desc") true (Some KMore)])
    by (vm_compute; reflexivity).
  assert (H1 : simpleScroll (dom at_bottom) = true) by reflexivity.
  assert (H2 : microtasks (sys at_bottom) = []) by reflexivity.
  assert (H3 : 2 = loaded at_bottom / PER_PAGE + 1) by reflexivity.
  assert (H4 : (loaded at_bottom + Z.of_nat (length (page_of "ann" 100 5))) / PER_PAGE
               = loaded at_bottom / PER_PAGE) by reflexivity.
  assert (H5 : loaded at_bottom + Z.of_nat (length (page_of "ann" 100 5)) < 250)
    by (vm_compute; reflexivity).
  assert (H6 : 4230 - 320 <= scrollTop (dom at_bottom) + clientHeight (dom at_bottom))
    by (vm_compute; discriminate).
  destruct (short_page_is_requested_again _ _ (page_of "ann" 100 5) 250 4230 at_bottom
              H1 Hp eq_refl eq_refl H2 H3 H4 H5 H6)
    as (_ & _ & _ & _ & rq & Hn & Hpg & _).
  exists rq. split; [exact Hn | exact Hpg].
Defined.


(** *** Links to a person *)

Lemma replace_final_zero_app base r :
  replace_final_zero (base +:+ "0") r = base +:+ r.
Proof.
  induction base as [| c base IH]; [reflexivity |].
  destruct base as [| c' base']; [reflexivity |].
  change (replace_final_zero (String.String c (String.String c' base') +:+ "0") r)
    with (String.String c (replace_final_zero (String.String c' base' +:+ "0") r)).
  now rewrite IH.
Qed.

Lemma replace_final_zero_other template r :
  (forall base, template <> base +:+ "0") -> replace_final_zero template r = template.
Proof.
  induction template as [| c rest IH]; intros Hne; [reflexivity |].
  cbn [replace_final_zero]. destruct rest as [| c' rest'].
  - destruct (Ascii.eqb_spec c zero_char) as [-> | _]; [| reflexivity].
    now destruct (Hne "").
  - f_equal. apply IH. intros base Hb. apply (Hne (String.String c base)).
    cbn. now rewrite Hb.
Qed.

Lemma string_app_inj base x y : base +:+ x = base +:+ y -> x = y.
Proof. induction base as [| c base IH]; cbn; [auto | intros [= H]; auto]. Qed.

(** X12. With a template that ends in "0", the link to a person is the
    template with that "0" replaced by the person's number, so two
    people have the same link only if they have the same number.  With
    a template that does not end in "0" every person gets the template
    itself as link. *)
Theorem personStatsUrl_links (base template : string) (pid pid' : Z) :
  personStatsUrl (base +:+ "0") pid = base +:+ pretty pid
  /\ (personStatsUrl (base +:+ "0") pid = personStatsUrl (base +:+ "0") pid' -> pid = pid')
  /\ ((forall b, template <> b +:+ "0") -> personStatsUrl template pid = template).
Proof.
  unfold personStatsUrl. split; [| split].
  - apply replace_final_zero_app.
  - rewrite !replace_final_zero_app. intros H. apply string_app_inj in H.
    now apply (inj pretty).
  - apply replace_final_zero_other.
Qed.

Lemma personStatsUrl_links_witness :
  personStatsUrl "/person" 42 = "/person".
Proof.
  apply (personStatsUrl_links "" "/person" 42 0).
  intros b Hb.
  do 7 (destruct b as [| ? b]; [discriminate Hb | injection Hb as _ Hb]).
  destruct b; discriminate Hb.
Defined.


(** *** The ranking of one role *)

Lemma count_above_app c l1 l2 :
  count_above c (l1 ++ l2) = (count_above c l1 + count_above c l2)%nat.
Proof. induction l1 as [| q l1 IH]; cbn; [reflexivity | rewrite IH; lia]. Qed.

Lemma count_above_none c l :
  Forall (fun q => rk_count q <= c) l -> count_above c l = 0%nat.
Proof.
  induction 1 as [| q l Hq Hl IH]; cbn; [reflexivity |].
  destruct (Z.ltb_spec c (rk_count q)); [lia | exact IH].
Qed.

Lemma count_above_all c l :
  Forall (fun q => c < rk_count q) l -> count_above c l = length l.
Proof.
  induction 1 as [| q l Hq Hl IH]; cbn; [reflexivity |].
  destruct (Z.ltb_spec c (rk_count q)); [now rewrite IH | lia].
Qed.

Lemma rank_rows_persons i rank prev l : map snd (rank_rows i rank prev l) = l.
Proof.
  revert i rank prev. induction l as [| p l IH]; intros i rank prev; cbn; [reflexivity |].
  now rewrite IH.
Qed.

(** The loop keeps in [rank] one more than the number of entries seen so
    far whose count is above the count seen last. *)
Lemma rank_rows_spec pre l rank prev :
  StronglySorted (fun a b => rk_count b <= rk_count a) l ->
  (prev = None /\ pre = []
   \/ exists c, prev = Some c
        /\ rank = S (count_above c pre)
        /\ Forall (fun q => c <= rk_count q) pre
        /\ Forall (fun q => rk_count q <= c) l) ->
  forall j r p,
    rank_rows (length pre) rank prev l !! j = Some (r, p) ->
    r = S (count_above (rk_count p) (pre ++ l)).
Proof.
  revert pre rank prev.
  induction l as [| p0 rest IH]; intros pre rank prev Hsorted Hinv j r p Hj;
    [destruct j; discriminate |].
  apply StronglySorted_inv in Hsorted as [Hrest Hp0].
  cbn [rank_rows] in Hj.
  set (rank' := match prev with
                | None => S (length pre)
                | Some c => if negb (rk_count p0 =? c) then S (length pre) else rank
                end) in *.
  assert (Hpre : Forall (fun q => rk_count p0 <= rk_count q) pre
                 /\ rank' = S (count_above (rk_count p0) pre)).
  { destruct Hinv as [[-> ->] | (c & -> & Hrank & Hge & Hle)]; [split; [constructor | reflexivity] |].
    apply Forall_cons in Hle as [Hp0c _].
    split.
    - eapply Forall_impl; [exact Hge |]. cbn. intros q Hq. lia.
    - unfold rank'. destruct (Z.eqb_spec (rk_count p0) c) as [-> | Hne]; cbn [negb].
      + exact Hrank.
      + rewrite count_above_all; [reflexivity |].
        eapply Forall_impl; [exact Hge |]. cbn. intros q Hq. lia. }
  destruct Hpre as [Hge0 Hrank'].
  destruct j as [| j]; cbn in Hj.
  - injection Hj as <- <-.
    rewrite count_above_app. cbn [count_above].
    rewrite Z.ltb_irrefl, (count_above_none _ rest Hp0). lia.
  - replace (pre ++ p0 :: rest) with ((pre ++ [p0]) ++ rest) by now rewrite <- app_assoc.
    apply (IH (pre ++ [p0]) rank' (Some (rk_count p0)) Hrest) with (j := j).
    + right. exists (rk_count p0). split; [reflexivity |]. split; [| split].
      * rewrite count_above_app. cbn [count_above]. rewrite Z.ltb_irrefl. lia.
      * apply Forall_app. split; [exact Hge0 |]. repeat constructor. lia.
      * exact Hp0.
    + rewrite length_app. cbn [length]. rewrite Nat.add_1_r. exact Hj.
Qed.

Lemma inherited_length_keys name :
  inherited_length name <> None <-> name ∈ inherited_keys.
Proof.
  unfold inherited_length. split.
  - intros Hne. destruct (decide (name ∈ inherited_keys)) as [Hin | Hnin]; [exact Hin |].
    exfalso. apply Hne. apply not_elem_of_list_to_map_1. exact Hnin.
  - intros Hin. unfold inherited_keys in Hin.
    repeat (apply elem_of_cons in Hin as [-> | Hin]; [vm_compute; discriminate |]).
    now apply elem_of_nil in Hin.
Qed.

(** X13. When a role is chosen whose ranking is not empty and lists
    the counts from high to low, the table shows the people in the order
    given, and the rank written beside a person is one more than the
    number of people with a higher count: people with equal counts share
    a rank and the next rank is skipped.  When the ranking is empty, or
    there is none and nothing with a positive [length] is inherited
    under the name, the table is emptied and "No data" is shown.  When
    there is none and the name is one of those every object inherits
    with a positive [length], such as [constructor], the title and that
    length as a number of people are written and the rows stay as they
    were.  The names with an inherited value are the twelve that
    [renderRoleList] stumbles over. *)
Theorem selectRole_ranks (roleName : string) (tab : RoleTab) :
  roleName <> "" ->
  (forall ranked,
      roleDataByRole tab !! roleName = Some ranked -> ranked <> [] ->
      StronglySorted (fun a b => rk_count b <= rk_count a) ranked ->
      roleMeta (selectRole roleName tab) = MetaPeople (length ranked)
      /\ map snd (roleRankRows (selectRole roleName tab)) = ranked
      /\ forall j r p,
           roleRankRows (selectRole roleName tab) !! j = Some (r, p) ->
           r = S (count_above (rk_count p) ranked))
  /\ (roleDataByRole tab !! roleName = Some []
      \/ (roleDataByRole tab !! roleName = None
          /\ (inherited_length roleName = None \/ inherited_length roleName = Some 0%nat)) ->
      roleMeta (selectRole roleName tab) = MetaNoData
      /\ roleRankRows (selectRole roleName tab) = []
      /\ roleRankTitle (selectRole roleName tab) = roleName)
  /\ (forall n,
        roleDataByRole tab !! roleName = None ->
        inherited_length roleName = Some (S n) ->
        roleMeta (selectRole roleName tab) = MetaPeople (S n)
        /\ roleRankRows (selectRole roleName tab) = roleRankRows tab
        /\ roleRankTitle (selectRole roleName tab) = roleName)
  /\ (inherited_length roleName <> None <-> roleName ∈ inherited_keys).
Proof.
  intros Hname. apply String.eqb_neq in Hname.
  unfold selectRole. rewrite Hname. split; [| split; [| split]].
  - intros ranked Hlook Hne Hsorted. rewrite Hlook.
    destruct ranked as [| p0 rest]; [contradiction |].
    cbn [roleMeta roleRankRows]. split; [reflexivity |]. split.
    + apply rank_rows_persons.
    + intros j r p Hj.
      apply (rank_rows_spec [] (p0 :: rest) 0%nat None Hsorted) with (j := j);
        [now left | exact Hj].
  - intros [-> | [-> [-> | ->]]]; now repeat split.
  - intros n -> ->. now repeat split.
  - apply inherited_length_keys.
Qed.

Lemma selectRole_ranks_witness :
  2%nat
  = S (count_above (rk_count (mkRanked 3 "c" 7))
         [mkRanked 1 "a" 9; mkRanked 2 "b" 7; mkRanked 3 "c" 7; mkRanked 4 "d" 2]).
Proof.
  assert (Hn : "Sound" <> "") by discriminate.
  destruct (selectRole_ranks "Sound"
              (mkRoleTab {["Sound" := [mkRanked 1 "a" 9; mkRanked 2 "b" 7; mkRanked 3 "c" 7;
                                       mkRanked 4 "d" 2]]} "" MetaChoose []) Hn) as [H _].
  assert (Hs : StronglySorted (fun a b => rk_count b <= rk_count a)
                 [mkRanked 1 "a" 9; mkRanked 2 "b" 7; mkRanked 3 "c" 7; mkRanked 4 "d" 2])
    by (repeat constructor; cbn; lia).
  assert (Hne : [mkRanked 1 "a" 9; mkRanked 2 "b" 7; mkRanked 3 "c" 7; mkRanked 4 "d" 2]
                <> []) by discriminate.
  destruct (H _ (lookup_singleton_eq _ _) Hne Hs) as (_ & _ & Hr).
  apply (Hr 2%nat 2%nat (mkRanked 3 "c" 7)).
  vm_compute. reflexivity.
Defined.

(** The role [constructor] is chosen while the table shows the ranking
    of another role, and the data holds nothing under that name: the
    text says "1 people" and the rows of the other role stay. *)
Example selectRole_constructor :
  let tab := mkRoleTab {["Sound" := [mkRanked 1 "a" 9]]} "Sound" (MetaPeople 1)
               [(1%nat, mkRanked 1 "a" 9)] in
  selectRole "constructor" tab
  = mkRoleTab {["Sound" := [mkRanked 1 "a" 9]]} "constructor" (MetaPeople 1)
      [(1%nat, mkRanked 1 "a" 9)].
Proof. vm_compute. reflexivity. Qed.

(** The ranks of that table: 1, 2, 2, 4. *)
Example ranks_with_a_tie :
  map fst (rank_rows 0 0 None
             [mkRanked 1 "a" 9; mkRanked 2 "b" 7; mkRanked 3 "c" 7; mkRanked 4 "d" 2])
  = [1; 2; 2; 4]%nat.
Proof. reflexivity. Qed.


(** *** The list of roles *)

Lemma role_items_app l1 l2 : role_items (l1 ++ l2) = role_items l1 ++ role_items l2.
Proof.
  induction l1 as [| [t | t | name n] l1 IH]; cbn; [reflexivity | exact IH | exact IH |].
  now rewrite IH.
Qed.

Lemma role_items_role_li l :
  role_items (map role_li l) = map (fun r => (ri_name r, ri_num_people r)) l.
Proof. induction l as [| r l IH]; cbn; [reflexivity | now rewrite IH]. Qed.

Lemma insert_role_Permutation lc r l : insert_role lc r l ≡ₚ r :: l.
Proof.
  induction l as [| x l IH]; cbn; [reflexivity |].
  destruct (_ <=? 0); [reflexivity |]. rewrite IH. apply Permutation_swap.
Qed.

Lemma sort_roles_Permutation lc l : sort_roles lc l ≡ₚ l.
Proof.
  induction l as [| r l IH]; cbn; [reflexivity |].
  fold (sort_roles lc l). now rewrite insert_role_Permutation, IH.
Qed.

(** What [bySub] holds under each name once the loop is through. *)
Lemma fill_bySub_spec l m :
  (forall k, k ∈ inherited_keys -> m !! k = None) ->
  match fill_bySub l m with
  | None => Exists (fun r => sub_of r ∈ inherited_keys) l
  | Some m' =>
      Forall (fun r => sub_of r ∉ inherited_keys) l
      /\ forall sub,
           m' !! sub
           = match filter (fun r => sub_of r = sub) l with
             | [] => m !! sub
             | f => Some (default [] (m !! sub) ++ f)
             end
  end.
Proof.
  revert m. induction l as [| r l IH]; intros m Hm; cbn [fill_bySub].
  { split; [constructor | reflexivity]. }
  assert (Hstep : forall rs,
            (m !! sub_of r = Some rs \/ (m !! sub_of r = None /\ rs = []
                                         /\ sub_of r ∉ inherited_keys)) ->
            match fill_bySub l (<[sub_of r := rs ++ [r]]> m) with
            | None => Exists (fun r => sub_of r ∈ inherited_keys) (r :: l)
            | Some m' =>
                Forall (fun r => sub_of r ∉ inherited_keys) (r :: l)
                /\ forall sub,
                     m' !! sub
                     = match filter (fun r => sub_of r = sub) (r :: l) with
                       | [] => m !! sub
                       | f => Some (default [] (m !! sub) ++ f)
                       end
            end).
  { intros rs Hrs.
    assert (Hfresh : sub_of r ∉ inherited_keys).
    { destruct Hrs as [Hrs | (_ & _ & H)]; [| exact H].
      intros Hin. rewrite (Hm _ Hin) in Hrs. discriminate. }
    assert (Hdef : default [] (m !! sub_of r) = rs).
    { destruct Hrs as [-> | (-> & -> & _)]; reflexivity. }
    specialize (IH (<[sub_of r := rs ++ [r]]> m)).
    destruct (fill_bySub l (<[sub_of r := rs ++ [r]]> m)) as [m' |].
    - destruct IH as [Hall Hlook].
      { intros k Hk. rewrite lookup_insert_ne; [now apply Hm | congruence]. }
      split; [now constructor |]. intros sub. rewrite (Hlook sub).
      destruct (decide (sub_of r = sub)) as [<- | Hne].
      + rewrite filter_cons_True by reflexivity.
        rewrite lookup_insert_eq. cbn. rewrite Hdef.
        destruct (filter _ l); [reflexivity | now rewrite <- app_assoc].
      + rewrite filter_cons_False by exact Hne.
        now rewrite lookup_insert_ne.
    - apply Exists_cons_tl, IH.
      intros k Hk. rewrite lookup_insert_ne; [now apply Hm | congruence]. }
  destruct (m !! sub_of r) as [rs |] eqn:Hlook.
  - apply Hstep. now left.
  - destruct (bool_decide_reflect (sub_of r ∈ inherited_keys)) as [Hin | Hnin].
    + now apply Exists_cons_hd.
    + apply (Hstep []). right. auto.
Qed.

Lemma fill_bySub_empty l :
  match fill_bySub l ∅ with
  | None => Exists (fun r => sub_of r ∈ inherited_keys) l
  | Some m' =>
      Forall (fun r => sub_of r ∉ inherited_keys) l
      /\ (forall sub, default [] (m' !! sub) = filter (fun r => sub_of r = sub) l)
      /\ (forall sub, sub ∈ base.dom m' <-> exists r, r ∈ l /\ sub_of r = sub)
  end.
Proof.
  pose proof (fill_bySub_spec l ∅ (fun k _ => lookup_empty k)) as H.
  destruct (fill_bySub l ∅) as [m' |]; [| exact H].
  destruct H as [Hall Hlook]. split; [exact Hall |]. split.
  - intros sub. rewrite Hlook, lookup_empty. now destruct (filter _ l).
  - intros sub. rewrite elem_of_dom, Hlook, lookup_empty. split.
    + intros [x Hx]. destruct (filter _ l) as [| r f] eqn:Hf; [discriminate |].
      assert (Hr : r ∈ filter (fun r => sub_of r = sub) l) by (rewrite Hf; left).
      apply list_elem_of_filter in Hr as [H1 H2]. eauto.
    + intros (r & Hr & Hsub).
      assert (Hin : r ∈ filter (fun r => sub_of r = sub) l)
        by (apply list_elem_of_filter; auto).
      destruct (filter _ l); [now apply elem_of_nil in Hin | eauto].
Qed.

(** Splitting a list by the values of a key loses nothing and repeats
    nothing. *)
Lemma filter_key_cons {A} (key : A -> string) k ks (l : list A) :
  k ∉ ks ->
  filter (fun r => key r = k) l ++ filter (fun r => key r ∈ ks) l
  ≡ₚ filter (fun r => key r ∈ k :: ks) l.
Proof.
  intros Hk. induction l as [| r l IH]; [reflexivity |].
  destruct (decide (key r = k)) as [Heq | Hne].
  - rewrite (filter_cons_True (fun r => key r = k)) by exact Heq.
    rewrite (filter_cons_False (fun r => key r ∈ ks)) by (rewrite Heq; exact Hk).
    rewrite (filter_cons_True (fun r => key r ∈ k :: ks)) by (rewrite Heq; left).
    cbn. now rewrite IH.
  - rewrite (filter_cons_False (fun r => key r = k)) by exact Hne.
    destruct (decide (key r ∈ ks)) as [Hin | Hnin].
    + rewrite (filter_cons_True (fun r => key r ∈ ks)) by exact Hin.
      rewrite (filter_cons_True (fun r => key r ∈ k :: ks)) by (now right).
      rewrite <- Permutation_middle. now rewrite IH.
    + rewrite (filter_cons_False (fun r => key r ∈ ks)) by exact Hnin.
      rewrite (filter_cons_False (fun r => key r ∈ k :: ks)); [exact IH |].
      intros H. apply elem_of_cons in H as [H | H]; contradiction.
Qed.

Lemma filter_nothing {A} (P : A -> Prop) `{!forall x, Decision (P x)} (l : list A) :
  (forall x, ~ P x) -> filter P l = [].
Proof.
  intros Hno. induction l as [| x l IH]; [reflexivity |].
  rewrite filter_cons_False by apply Hno. exact IH.
Qed.

Lemma split_by_key {A} (key : A -> string) keys (l : list A) :
  NoDup keys ->
  concat (map (fun k => filter (fun r => key r = k) l) keys)
  ≡ₚ filter (fun r => key r ∈ keys) l.
Proof.
  induction 1 as [| k ks Hk Hks IH]; cbn [map concat].
  - rewrite filter_nothing; [reflexivity |]. intros r. apply not_elem_of_nil.
  - rewrite IH. now apply filter_key_cons.
Qed.

Lemma filter_all {A} (P : A -> Prop) `{!forall x, Decision (P x)} (l : list A) :
  Forall P l -> filter P l = l.
Proof.
  induction 1 as [| x l Hx Hl IH]; [reflexivity |].
  rewrite filter_cons_True by exact Hx. now rewrite IH.
Qed.

Lemma concat_map_Permutation {A B} (f g : A -> list B) l :
  (forall x, f x ≡ₚ g x) -> concat (map f l) ≡ₚ concat (map g l).
Proof.
  intros H. induction l as [| x l IH]; cbn; [reflexivity |]. now rewrite (H x), IH.
Qed.

Lemma role_items_concat (f : string -> list RoleLi) keys :
  role_items (concat (map f keys)) = concat (map (fun k => role_items (f k)) keys).
Proof.
  induction keys as [| k keys IH]; cbn; [reflexivity |].
  now rewrite role_items_app, IH.
Qed.

Lemma concat_map_map {A B C} (f : B -> C) (g : A -> list B) l :
  concat (map (fun x => map f (g x)) l) = map f (concat (map g l)).
Proof.
  induction l as [| x l IH]; cbn; [reflexivity |]. now rewrite map_app, IH.
Qed.

Lemma sorted_keys_spec m :
  NoDup (sorted_keys m) /\ (forall k, k ∈ sorted_keys m <-> k ∈ base.dom m)
  /\ Sorted String.le (sorted_keys m).
Proof.
  unfold sorted_keys. split; [| split].
  - rewrite merge_sort_Permutation. apply NoDup_elements.
  - intros k. rewrite merge_sort_Permutation. apply elem_of_elements.
  - apply Sorted_merge_sort. apply _.
Qed.

(** One round of [mainOrder.forEach]: it throws when a role of the
    group has an inherited name as its category, and otherwise lists
    each role of the group once. *)
Lemma render_main_spec lc roles main :
  match render_main lc roles main with
  | None =>
      Exists (fun r => main_of r = main /\ sub_of r ∈ inherited_keys) roles
  | Some frag =>
      Forall (fun r => main_of r = main -> sub_of r ∉ inherited_keys) roles
      /\ role_items frag ≡ₚ map role_data (filter (fun r => main_of r = main) roles)
  end.
Proof.
  unfold render_main.
  set (inMain := filter (fun r => main_of r = main) roles).
  assert (Hin : forall P : RoleInfo -> Prop,
            Forall P inMain -> Forall (fun r => main_of r = main -> P r) roles).
  { intros P HP. apply Forall_forall. intros r Hr Hmain.
    rewrite Forall_forall in HP. apply HP, list_elem_of_filter. auto. }
  destruct (Nat.eqb_spec (length inMain) 0) as [Hlen | Hlen].
  { apply nil_length_inv in Hlen. rewrite Hlen. split; [| reflexivity].
    apply Hin. rewrite Hlen. constructor. }
  pose proof (fill_bySub_empty inMain) as H.
  destruct (fill_bySub inMain ∅) as [m' |].
  - destruct H as (Hall & Hlook & Hdom). split; [now apply Hin |].
    cbn [role_items]. rewrite role_items_concat.
    destruct (sorted_keys_spec m') as (Hnd & Hkeys & _).
    rewrite (concat_map_Permutation _
               (fun k => map role_data (filter (fun r => sub_of r = k) inMain))).
    2:{ intros k. unfold render_sub. cbn [role_items].
        rewrite role_items_role_li, Hlook. fold role_data.
        now rewrite sort_roles_Permutation. }
    rewrite concat_map_map, (split_by_key sub_of _ _ Hnd).
    rewrite filter_all; [reflexivity |].
    apply Forall_forall. intros r Hr. apply Hkeys, Hdom. eauto.
  - apply Exists_exists in H as (r & Hr & Hsub).
    apply list_elem_of_filter in Hr as [Hmain Hr].
    apply Exists_exists. eauto.
Qed.

Lemma render_mains_spec lc roles mains :
  NoDup mains ->
  match render_mains lc roles mains with
  | None =>
      Exists (fun r => main_of r ∈ mains /\ sub_of r ∈ inherited_keys) roles
  | Some items =>
      Forall (fun r => main_of r ∈ mains -> sub_of r ∉ inherited_keys) roles
      /\ role_items items ≡ₚ map role_data (filter (fun r => main_of r ∈ mains) roles)
  end.
Proof.
  induction 1 as [| main rest Hmain Hrest IH]; cbn [render_mains].
  { split.
    - apply Forall_forall. intros r _ H. now apply elem_of_nil in H.
    - rewrite filter_nothing; [reflexivity |]. intros r. apply not_elem_of_nil. }
  pose proof (render_main_spec lc roles main) as H1.
  destruct (render_main lc roles main) as [frag |].
  - destruct (render_mains lc roles rest) as [frags |].
    + destruct H1 as [Ha Hp], IH as [Hb Hq]. split.
      * rewrite Forall_forall in *. intros r Hr Hin.
        apply elem_of_cons in Hin as [Hin | Hin]; [now apply Ha | now apply Hb].
      * rewrite role_items_app, Hp, Hq, <- map_app.
        now rewrite (filter_key_cons main_of main rest roles Hmain).
    + eapply Exists_impl; [exact IH |]. intros r [Ha Hb]. split; [now right | exact Hb].
  - eapply Exists_impl; [exact H1 |]. intros r [Ha Hb]. split; [rewrite Ha; left | exact Hb].
Qed.

Lemma mainOrder_NoDup : NoDup mainOrder.
Proof. apply (bool_decide_unpack (NoDup mainOrder)). vm_compute. exact I. Qed.

(** X20. [renderRoleList] throws, leaving the list as it was, exactly
    when a role of one of the four main groups has as its category a
    name that every object inherits, such as [constructor].  Otherwise
    the new list holds, beside the headers, each role of the four main
    groups exactly once, a role without main group counting as [Prod];
    a role of any other main group is not listed. *)
Theorem renderRoleList_roles (localeCompare : string -> string -> Z)
    (roles : list RoleInfo) :
  (renderRoleList localeCompare roles = None
   <-> Exists (fun r => main_of r ∈ mainOrder /\ sub_of r ∈ inherited_keys) roles)
  /\ (forall items,
        renderRoleList localeCompare roles = Some items ->
        role_items items
        ≡ₚ map (fun r => (ri_name r, ri_num_people r))
             (filter (fun r => main_of r ∈ mainOrder) roles)).
Proof.
  pose proof (render_mains_spec localeCompare roles mainOrder mainOrder_NoDup) as H.
  unfold renderRoleList.
  destruct (render_mains localeCompare roles mainOrder) as [items |].
  - destruct H as [Hall Hperm]. split.
    + split; [discriminate |]. intros Hex.
      apply Exists_exists in Hex as (r & Hr & Hmain & Hsub).
      rewrite Forall_forall in Hall. now destruct (Hall r Hr Hmain).
    + intros items' [= <-]. exact Hperm.
  - split; [split; [intros _; exact H | reflexivity] | discriminate].
Qed.

Lemma renderRoleList_roles_witness :
  role_items
    [MainHeader "Tech"; SubHeader "Audio"; RoleItem "Sound Designer" 30;
     SubHeader "Lighting"; RoleItem "Chief Electrician" 41;
     RoleItem "Lighting Designer" 30; MainHeader "Prod";
     SubHeader "Direction"; RoleItem "Director" 12;
     SubHeader "Unknown / Unclassified"; RoleItem "Producer" 12;
     MainHeader "Cast"; SubHeader "Unknown / Unclassified"; RoleItem "Hamlet" 1]
  ≡ₚ map (fun r => (ri_name r, ri_num_people r))
       (filter (fun r => main_of r ∈ mainOrder) sample_roles).
Proof.
  apply (renderRoleList_roles code_unit_compare sample_roles).
  vm_compute. reflexivity.
Defined.

(** *** The order of the list of roles *)

Lemma runs_cons {A} (pick : RoleLi -> option A) sep l :
  exists s ss, runs pick sep l = s :: ss.
Proof.
  induction l as [| x l (s & ss & IH)]; cbn [runs]; [eauto |].
  destruct (sep x); [eauto |]. destruct (pick x); [| eauto].
  rewrite IH. cbn. eauto.
Qed.

Lemma runs_app {A} (pick : RoleLi -> option A) sep l1 l2 :
  starts_with sep l2 ->
  runs pick sep (l1 ++ l2) = runs pick sep l1 ++ tail (runs pick sep l2).
Proof.
  intros H2. induction l1 as [| x l1 IH]; cbn [app runs].
  - destruct l2 as [| y l2]; [reflexivity |]. cbn in H2. cbn [runs]. now rewrite H2.
  - destruct (sep x); [now rewrite IH |].
    destruct (pick x) as [a |]; [| exact IH].
    rewrite IH. now destruct (runs_cons pick sep l1) as (s & ss & ->).
Qed.

Lemma runs_app_Forall {A} (pick : RoleLi -> option A) sep (P : list A -> Prop) l1 l2 :
  starts_with sep l2 ->
  Forall P (runs pick sep l1) ->
  Forall P (runs pick sep l2) ->
  Forall P (runs pick sep (l1 ++ l2)).
Proof.
  intros H2 Hl1 Hl2. rewrite (runs_app pick sep l1 l2 H2).
  apply Forall_app. split; [exact Hl1 |].
  destruct (runs pick sep l2); [constructor | now apply Forall_cons in Hl2 as [_ Hl2]].
Qed.

Lemma sections_header x l : is_header x = true -> sections (x :: l) = [] :: sections l.
Proof. intros H. unfold sections. cbn [runs]. now rewrite H. Qed.

Lemma sub_headers_main main l : sub_headers (MainHeader main :: l) = [] :: sub_headers l.
Proof. reflexivity. Qed.

Lemma sub_headers_sub k l : sub_headers (SubHeader k :: l) = cons_head k (sub_headers l).
Proof. reflexivity. Qed.

Lemma sections_roles l : sections (map role_li l) = [map role_data l].
Proof.
  unfold sections. induction l as [| r l IH]; [reflexivity |].
  cbn. now rewrite IH.
Qed.

Lemma sub_headers_roles l rest :
  sub_headers (map role_li l ++ rest) = sub_headers rest.
Proof. unfold sub_headers. induction l as [| r l IH]; [reflexivity | exact IH]. Qed.

Lemma main_headers_app l1 l2 :
  main_headers (l1 ++ l2) = main_headers l1 ++ main_headers l2.
Proof.
  induction l1 as [| [t | t | name n] l1 IH]; cbn; [reflexivity | | exact IH | exact IH].
  now rewrite IH.
Qed.

Lemma main_headers_roles l : main_headers (map role_li l) = [].
Proof. induction l as [| r l IH]; [reflexivity | exact IH]. Qed.

Lemma insert_role_sorted lc r l :
  StronglySorted (fun a b => ri_num_people b <= ri_num_people a) l ->
  StronglySorted (fun a b => ri_num_people b <= ri_num_people a) (insert_role lc r l).
Proof.
  induction 1 as [| x l Hl IH Hx]; cbn [insert_role].
  { repeat constructor. }
  unfold compare_roles.
  destruct (Z.leb_spec
              (if negb (ri_num_people x =? ri_num_people r)
               then ri_num_people x - ri_num_people r
               else lc (ri_name r) (ri_name x)) 0) as [Hle | Hgt].
  - assert (Hxr : ri_num_people x <= ri_num_people r).
    { destruct (Z.eqb_spec (ri_num_people x) (ri_num_people r)); cbn in Hle; lia. }
    constructor; [now constructor |]. constructor; [exact Hxr |].
    eapply Forall_impl; [exact Hx |]. cbn. intros y Hy. lia.
  - assert (Hrx : ri_num_people r <= ri_num_people x).
    { destruct (Z.eqb_spec (ri_num_people x) (ri_num_people r)); cbn in Hgt; lia. }
    constructor; [exact IH |].
    rewrite insert_role_Permutation. now constructor.
Qed.

Lemma sort_roles_sorted lc l :
  StronglySorted (fun a b => ri_num_people b <= ri_num_people a) (sort_roles lc l).
Proof.
  induction l as [| r l IH]; cbn; [constructor |]. now apply insert_role_sorted.
Qed.

Lemma role_data_sorted l :
  StronglySorted (fun a b => ri_num_people b <= ri_num_people a) l ->
  StronglySorted more_people_first (map role_data l).
Proof.
  induction 1 as [| x l Hl IH Hx]; cbn; constructor; [exact IH |].
  apply Forall_forall. intros y Hy. apply list_elem_of_fmap in Hy as (r & -> & Hr).
  rewrite Forall_forall in Hx. exact (Hx r Hr).
Qed.

(** The categories of one main group, each with its roles. *)
Lemma render_subs_order lc m keys :
  let block := concat (map (render_sub lc m) keys) in
  main_headers block = []
  /\ sub_headers block = [keys]
  /\ Forall (StronglySorted more_people_first) (sections block)
  /\ starts_with is_header block.
Proof.
  induction keys as [| k keys IH]; cbn zeta in *; cbn [map concat].
  { repeat split. repeat constructor. }
  destruct IH as (Hm & Hs & Hsec & Hst).
  set (rest := concat (map (render_sub lc m) keys)) in *. clearbody rest.
  unfold render_sub. cbn [app]. repeat split.
  - cbn [main_headers]. now rewrite main_headers_app, main_headers_roles.
  - now rewrite sub_headers_sub, sub_headers_roles, Hs.
  - rewrite sections_header by reflexivity. constructor; [constructor |].
    apply runs_app_Forall; [exact Hst | | exact Hsec].
    fold (sections (map role_li (sort_roles lc (default [] (m !! k))))).
    rewrite sections_roles. constructor; [| constructor].
    apply role_data_sorted, sort_roles_sorted.
Qed.

Lemma render_main_order lc roles main frag :
  render_main lc roles main = Some frag ->
  main_headers frag
  = (if decide (Exists (fun r => main_of r = main) roles) then [main] else [])
  /\ Forall keys_in_order (sub_headers frag)
  /\ Forall (StronglySorted more_people_first) (sections frag)
  /\ starts_with is_main frag.
Proof.
  unfold render_main.
  set (inMain := filter (fun r => main_of r = main) roles).
  assert (Hex : Exists (fun r => main_of r = main) roles <-> inMain <> []).
  { rewrite Exists_exists. split.
    - intros (r & Hr & Hmain) Hnil.
      assert (Hin : r ∈ inMain) by (apply list_elem_of_filter; auto).
      rewrite Hnil in Hin. now apply elem_of_nil in Hin.
    - intros Hne. destruct inMain as [| r l] eqn:Heq; [contradiction |].
      assert (Hin : r ∈ inMain) by (rewrite Heq; left).
      apply list_elem_of_filter in Hin as [H1 H2]. eauto. }
  destruct (Nat.eqb_spec (length inMain) 0) as [Hlen | Hlen].
  { intros [= <-]. apply nil_length_inv in Hlen.
    destruct (decide _) as [Hyes | Hno]; [now apply Hex in Hyes |].
    repeat split; repeat constructor. }
  destruct (fill_bySub inMain ∅) as [m |]; [| discriminate].
  intros [= <-].
  destruct (render_subs_order lc m (sorted_keys m)) as (Hm & Hs & Hsec & _).
  destruct (sorted_keys_spec m) as (Hnd & _ & Hsorted).
  repeat split.
  - cbn [main_headers]. rewrite Hm.
    destruct (decide _) as [Hyes | Hno]; [reflexivity |].
    exfalso. apply Hno, Hex. intros Hnil. now rewrite Hnil in Hlen.
  - rewrite sub_headers_main, Hs.
    constructor; [repeat constructor |]. constructor; [now split | constructor].
  - rewrite sections_header by reflexivity. constructor; [constructor | exact Hsec].
Qed.

Lemma starts_with_main_header l : starts_with is_main l -> starts_with is_header l.
Proof. destruct l as [| [] l]; cbn; auto. Qed.

Lemma starts_with_app sep l1 l2 :
  starts_with sep l1 -> starts_with sep l2 -> starts_with sep (l1 ++ l2).
Proof. now destruct l1. Qed.

Lemma render_mains_order lc roles mains items :
  render_mains lc roles mains = Some items ->
  main_headers items
  = filter (fun main => Exists (fun r => main_of r = main) roles) mains
  /\ Forall keys_in_order (sub_headers items)
  /\ Forall (StronglySorted more_people_first) (sections items)
  /\ starts_with is_main items.
Proof.
  revert items. induction mains as [| main rest IH]; intros items; cbn [render_mains].
  { intros [= <-]. repeat split; repeat constructor. }
  destruct (render_main lc roles main) as [frag |] eqn:Hfrag; [| discriminate].
  destruct (render_mains lc roles rest) as [frags |]; [| discriminate].
  intros [= <-].
  destruct (render_main_order lc roles main frag Hfrag) as (Hm1 & Hs1 & Hsec1 & Hst1).
  destruct (IH frags eq_refl) as (Hm2 & Hs2 & Hsec2 & Hst2).
  repeat split.
  - rewrite main_headers_app, Hm1, Hm2.
    destruct (decide _) as [Hyes | Hno].
    + now rewrite filter_cons_True by exact Hyes.
    + now rewrite filter_cons_False by exact Hno.
  - now apply runs_app_Forall.
  - apply runs_app_Forall; [now apply starts_with_main_header | assumption | assumption].
  - now apply starts_with_app.
Qed.

(** X21. In the list that [renderRoleList] builds, the main headers are
    those of the four main groups that have a role, in the order Tech,
    Prod, Cast, Band; between two main headers the category headers
    are distinct and in ascending order; between two headers the roles
    stand by falling number of people, whichever order of names the
    locale gives. *)
Theorem renderRoleList_order (localeCompare : string -> string -> Z)
    (roles : list RoleInfo) (items : list RoleLi) :
  renderRoleList localeCompare roles = Some items ->
  main_headers items
  = filter (fun main => Exists (fun r => main_of r = main) roles) mainOrder
  /\ Forall (fun s => Sorted String.le s /\ NoDup s) (sub_headers items)
  /\ Forall (StronglySorted (fun a b => b.2 <= a.2)) (sections items).
Proof.
  intros H.
  destruct (render_mains_order localeCompare roles mainOrder items H) as (H1 & H2 & H3 & _).
  repeat split; assumption.
Qed.

Lemma renderRoleList_order_witness :
  main_headers (default [] (renderRoleList code_unit_compare sample_roles))
  = ["Tech"; "Prod"; "Cast"].
Proof.
  assert (H : renderRoleList code_unit_compare sample_roles
              = Some (default [] (renderRoleList code_unit_compare sample_roles)))
    by (vm_compute; reflexivity).
  rewrite (proj1 (renderRoleList_order code_unit_compare sample_roles _ H)).
  vm_compute. reflexivity.
Defined.

End PeopleTableFacts.

(** ** Properties of the chunked population *)

Module RoleOrganisationFacts.
Import RoleOrganisation.

Lemma appendChunk_stale token filtered startIdx st :
  token <> renderToken st -> appendChunk token filtered startIdx st = st.
Proof.
  intros Hne. unfold appendChunk.
  destruct (Z.eqb_spec token (renderToken st)); [contradiction | reflexivity].
Qed.

Lemma appendChunk_live token filtered startIdx st :
  token = renderToken st ->
  renderToken (appendChunk token filtered startIdx st) = renderToken st
  /\ map it_name (sourceList (appendChunk token filtered startIdx st))
     = map it_name (sourceList st)
       ++ map r_name (take (chunk_end filtered startIdx - startIdx) (drop startIdx filtered))
  /\ frames (appendChunk token filtered startIdx st)
     = frames st
       ++ (if (chunk_end filtered startIdx <? length filtered)%nat
           then [mkChunk token filtered (chunk_end filtered startIdx)] else []).
Proof.
  intros Heq. unfold appendChunk. fold (chunk_end filtered startIdx).
  destruct (Z.eqb_spec token (renderToken st)); [| contradiction]. cbn [negb].
  destruct (chunk_end filtered startIdx <? length filtered)%nat; cbn;
    rewrite map_app, map_map, ?app_nil_r; auto.
Qed.

Lemma take_extend {A} (l : list A) (s e : nat) :
  (s <= e)%nat -> take s l ++ take (e - s) (drop s l) = take e l.
Proof.
  intros Hse. rewrite take_take_drop. f_equal. lia.
Qed.

Lemma jobs_ok_stale F tok shown js :
  Forall (fun c => ck_token c <> tok) js ->
  (exists n, shown = take n (map r_name F)) ->
  jobs_ok F tok shown js.
Proof.
  induction 1 as [| c js Hc Hjs IH]; intros Hn; simpl; [exact Hn |].
  destruct (Z.eqb_spec (ck_token c) tok); [contradiction | auto].
Qed.

Lemma jobs_ok_snoc_live F tok shown js c :
  Forall (fun c' => ck_token c' <> tok) js ->
  ck_token c = tok -> ck_filtered c = F ->
  shown = take (ck_start c) (map r_name F) ->
  jobs_ok F tok shown (js ++ [c]).
Proof.
  induction 1 as [| c0 js Hc Hjs IH]; intros Ht Hf Hs; simpl.
  - destruct (Z.eqb_spec (ck_token c) tok); [auto | contradiction].
  - destruct (Z.eqb_spec (ck_token c0) tok); [contradiction | auto].
Qed.

Lemma jobs_ok_prefix F tok shown js :
  jobs_ok F tok shown js -> exists n, shown = take n (map r_name F).
Proof.
  induction js as [| c js IH]; simpl; [auto |].
  destruct (ck_token c =? tok); [| exact IH].
  intros (_ & Hs & _). eauto.
Qed.

(** Running callbacks one after the other keeps [jobs_ok]; the callbacks
    still to run in this frame come before those queued for the next. *)
Lemma run_chunks_ok F todo st :
  jobs_ok F (renderToken st) (map it_name (sourceList st)) (todo ++ frames st) ->
  renderToken (fold_left run_chunk todo st) = renderToken st
  /\ jobs_ok F (renderToken st)
       (map it_name (sourceList (fold_left run_chunk todo st)))
       (frames (fold_left run_chunk todo st)).
Proof.
  revert st. induction todo as [| c todo IH]; intros st Hok; [now split |].
  cbn [fold_left]. cbn [app jobs_ok] in Hok.
  change (run_chunk st c) with (appendChunk (ck_token c) (ck_filtered c) (ck_start c) st).
  destruct (Z.eqb_spec (ck_token c) (renderToken st)) as [Hlive | Hstale].
  - destruct Hok as (Hf & Hs & Hrest).
    destruct (appendChunk_live (ck_token c) (ck_filtered c) (ck_start c) st Hlive)
      as (Ht & Hn & Hfr).
    set (st1 := appendChunk (ck_token c) (ck_filtered c) (ck_start c) st) in *.
    assert (Hshown : map it_name (sourceList st1)
                     = take (chunk_end F (ck_start c)) (map r_name F)).
    { rewrite Hn, Hs, Hf. unfold chunk_end at 1.
      destruct (Nat.le_gt_cases (ck_start c) (length F)) as [Hle | Hgt].
      - rewrite <- take_extend with (s := ck_start c) (e := chunk_end F (ck_start c))
          by (unfold chunk_end, SOURCE_RENDER_CHUNK; lia).
        now rewrite skipn_map, !firstn_map.
      - replace (Nat.min (length F) (ck_start c + SOURCE_RENDER_CHUNK) - ck_start c)%nat
          with 0%nat by lia.
        rewrite take_0, app_nil_r.
        rewrite !take_ge; auto; rewrite length_map; unfold chunk_end; lia. }
    assert (Hok1 : jobs_ok F (renderToken st1) (map it_name (sourceList st1))
                     (todo ++ frames st1)).
    { rewrite Ht, Hfr, app_assoc.
      destruct (chunk_end (ck_filtered c) (ck_start c) <? length (ck_filtered c))%nat.
      - apply jobs_ok_snoc_live; auto. cbn. now rewrite Hf.
      - rewrite app_nil_r. apply jobs_ok_stale; eauto. }
    destruct (IH st1 Hok1) as [Ht' Hok']. rewrite Ht in *. auto.
  - rewrite appendChunk_stale by exact Hstale.
    now apply IH.
Qed.

Lemma handle_keeps_jobs_ok F ev st :
  (match ev with EFrame | EChange _ _ => true | _ => false end) = true ->
  jobs_ok F (renderToken st) (map it_name (sourceList st)) (frames st) ->
  renderToken (handle ev st) = renderToken st
  /\ jobs_ok F (renderToken st) (map it_name (sourceList (handle ev st)))
       (frames (handle ev st)).
Proof.
  destruct ev; try discriminate; intros _ Hok; cbn [handle].
  - apply (run_chunks_ok F (frames st) (set_frames [] st)).
    cbn. now rewrite app_nil_r.
  - destruct (String.eqb role ""); split; [reflexivity | exact Hok | reflexivity | exact Hok].
Qed.

Lemma renderSourceList_establishes st :
  Forall (fun c => ck_token c <= renderToken st) (frames st) ->
  renderToken (renderSourceList st) = renderToken st + 1
  /\ jobs_ok (filtered_roles st) (renderToken st + 1)
       (map it_name (sourceList (renderSourceList st)))
       (frames (renderSourceList st)).
Proof.
  intros Hb. unfold renderSourceList.
  set (F := filtered_roles st).
  set (st3 := updateSelectedMeta _ _).
  assert (Ht3 : renderToken st + 1 = renderToken st3) by reflexivity.
  destruct (appendChunk_live (renderToken st + 1) F 0 st3 Ht3) as (Ht & Hn & Hfr).
  assert (Hstale : Forall (fun c => ck_token c <> renderToken st + 1) (frames st)).
  { eapply Forall_impl; [exact Hb |]. cbn. intros c Hc. lia. }
  split; [exact Ht |].
  rewrite Hn, Hfr. change (frames st3) with (frames st).
  change (map it_name (sourceList st3)) with (@nil string).
  rewrite drop_0, Nat.sub_0_r, app_nil_l, <- firstn_map.
  destruct (chunk_end F 0 <? length F)%nat.
  - apply jobs_ok_snoc_live; auto.
  - rewrite app_nil_r. apply jobs_ok_stale; eauto.
Qed.

Lemma renderSourceList_frames st :
  renderToken (renderSourceList st) = renderToken st + 1
  /\ Forall (fun c => In c (frames st) \/ ck_token c = renderToken st + 1)
       (frames (renderSourceList st)).
Proof.
  unfold renderSourceList.
  set (F := filtered_roles st). set (st3 := updateSelectedMeta _ _).
  assert (Ht3 : renderToken st + 1 = renderToken st3) by reflexivity.
  destruct (appendChunk_live (renderToken st + 1) F 0 st3 Ht3) as (Ht & _ & Hfr).
  split; [exact Ht |].
  rewrite Hfr. change (frames st3) with (frames st).
  apply Forall_app. split.
  - apply Forall_forall. intros c Hc. left. now apply list_elem_of_In.
  - destruct (_ <? _)%nat; [| constructor].
    constructor; [now right | constructor].
Qed.

Lemma run_keeps_jobs_ok F evs st :
  forallb (fun ev => negb (is_render ev)) evs = true ->
  jobs_ok F (renderToken st) (map it_name (sourceList st)) (frames st) ->
  jobs_ok F (renderToken st) (map it_name (sourceList (run evs st))) (frames (run evs st)).
Proof.
  revert st. induction evs as [| ev evs IH]; intros st Hall Hok; [exact Hok |].
  cbn [forallb] in Hall. apply andb_true_iff in Hall as [Hev Hrest].
  cbn [run fold_left].
  destruct (handle_keeps_jobs_ok F ev st) as [Ht Hok1]; [now destruct ev | exact Hok |].
  rewrite <- Ht in *. now apply IH.
Qed.

(** C9. A chunked population of the source list takes a fresh token
    when it starts, and every callback it queues carries that token.
    A callback whose token differs from the current one stops at once:
    it appends nothing and queues nothing.  Hence, once a new render has
    begun, whatever callbacks of earlier renders are still queued, the
    list only ever shows a prefix of what the new render filtered. *)
Theorem chunked_render_guard :
  (forall token filtered startIdx st,
      token <> renderToken st -> appendChunk token filtered startIdx st = st)
  /\ (forall st,
        renderToken (renderSourceList st) = renderToken st + 1
        /\ Forall (fun c => In c (frames st) \/ ck_token c = renderToken st + 1)
             (frames (renderSourceList st)))
  /\ (forall st evs,
        Forall (fun c => ck_token c <= renderToken st) (frames st) ->
        forallb (fun ev => negb (is_render ev)) evs = true ->
        exists n,
          map it_name (sourceList (run evs (renderSourceList st)))
          = take n (map r_name (filtered_roles st))).
Proof.
  split; [| split].
  - exact appendChunk_stale.
  - exact renderSourceList_frames.
  - intros st evs Hb Hall.
    destruct (renderSourceList_establishes st Hb) as [Ht Hok].
    rewrite <- Ht in Hok.
    apply (jobs_ok_prefix (filtered_roles st) (renderToken (renderSourceList st)) _
             (frames (run evs (renderSourceList st)))).
    now apply run_keeps_jobs_ok.
Qed.

Lemma chunked_render_guard_witness :
  appendChunk 1 many_roles 220 (handle (EInput "sound") first_chunk_shown)
  = handle (EInput "sound") first_chunk_shown
  /\ exists n,
       map it_name (sourceList (run [EFrame; EChange "Sound" true; EFrame]
                                  (renderSourceList (set_query "sound" first_chunk_shown))))
       = take n (map r_name (filtered_roles (set_query "sound" first_chunk_shown))).
Proof.
  destruct chunked_render_guard as (Hstale & _ & Hprefix).
  split.
  - apply Hstale. vm_compute. discriminate.
  - apply Hprefix.
    + repeat constructor. vm_compute. discriminate.
    + reflexivity.
Defined.

(** The search changes to "Sound" while the callback of the first
    render is still queued.  At the next frame that callback does
    nothing, and the list ends up with the three hundred sound roles
    only. *)
Example superseded_chunk_is_dropped :
  map ck_token (frames (handle (EInput " Sound ") first_chunk_shown)) = [1; 2]
  /\ map it_name (sourceList (run [EInput " Sound "; EFrame] first_chunk_shown))
     = replicate 300 "Sound"
  /\ frames (run [EInput " Sound "; EFrame] first_chunk_shown) = [].
Proof. vm_compute. repeat split. Qed.

Lemma tokens_bounded_renderSourceList st :
  tokens_bounded st -> tokens_bounded (renderSourceList st).
Proof.
  intros Hb. destruct (renderSourceList_frames st) as [Ht Hfr].
  unfold tokens_bounded. rewrite Ht.
  eapply Forall_impl; [exact Hfr |]. cbn. intros c [Hin | Heq]; [| lia].
  unfold tokens_bounded in Hb. rewrite Forall_forall in Hb.
  apply list_elem_of_In in Hin. specialize (Hb c Hin). lia.
Qed.

Lemma tokens_bounded_chunks todo st :
  tokens_bounded st ->
  tokens_bounded (fold_left run_chunk todo st).
Proof.
  revert st. induction todo as [| c todo IH]; intros st Hb; [exact Hb |].
  cbn [fold_left]. apply IH.
  change (run_chunk st c) with (appendChunk (ck_token c) (ck_filtered c) (ck_start c) st).
  destruct (Z.eq_dec (ck_token c) (renderToken st)) as [Hlive | Hstale].
  - destruct (appendChunk_live _ (ck_filtered c) (ck_start c) st Hlive) as (Ht & _ & Hfr).
    unfold tokens_bounded. rewrite Ht, Hfr. apply Forall_app. split; [exact Hb |].
    destruct (_ <? _)%nat; [| constructor].
    constructor; [cbn; lia | constructor].
  - now rewrite appendChunk_stale.
Qed.

Lemma tokens_bounded_handle ev st : tokens_bounded st -> tokens_bounded (handle ev st).
Proof.
  intros Hb. destruct ev; cbn [handle].
  - now apply tokens_bounded_renderSourceList.
  - apply tokens_bounded_chunks. constructor.
  - destruct (String.eqb role ""); exact Hb.
  - now apply tokens_bounded_renderSourceList.
  - now apply tokens_bounded_renderSourceList.
Qed.

Lemma tokens_bounded_run evs : tokens_bounded (run evs initial).
Proof.
  assert (H : forall st, tokens_bounded st -> tokens_bounded (run evs st)).
  { induction evs as [| ev evs IH]; intros st Hb; [exact Hb |].
    apply IH, tokens_bounded_handle, Hb. }
  apply H. constructor.
Qed.


(** ** Further properties of the role-organisation page *)

(** *** Progress of the chunked population *)

Local Opaque SOURCE_RENDER_CHUNK.

Lemma appendChunk_live_state token filtered startIdx st :
  token = renderToken st ->
  appendChunk token filtered startIdx st
  = let st1 :=
      set_sourceList
        (sourceList st
         ++ map (createSourceItem st)
              (take (chunk_end filtered startIdx - startIdx) (drop startIdx filtered))) st in
    if (chunk_end filtered startIdx <? length filtered)%nat
    then set_frames (frames st1 ++ [mkChunk token filtered (chunk_end filtered startIdx)]) st1
    else st1.
Proof.
  intros ->. unfold appendChunk. now rewrite Z.eqb_refl.
Qed.

Lemma run_stale_chunks stale s :
  Forall (fun c => ck_token c <> renderToken s) stale ->
  fold_left run_chunk stale s = s.
Proof.
  induction 1 as [| c stale Hc Hs IH]; [reflexivity |].
  cbn [fold_left]. unfold run_chunk at 2. now rewrite appendChunk_stale.
Qed.

Lemma createSourceItem_selected s st0 :
  selected s = selected st0 -> createSourceItem s = createSourceItem st0.
Proof. intros H. unfold createSourceItem. now rewrite H. Qed.

Lemma take_min_length {A} (l : list A) n : take (Nat.min (length l) n) l = take n l.
Proof.
  destruct (Nat.le_gt_cases n (length l)).
  - now rewrite Nat.min_r.
  - rewrite Nat.min_l by lia. rewrite !take_ge; auto; lia.
Qed.

Lemma progress_start st : tokens_bounded st -> progress st 0 (renderSourceList st).
Proof.
  intros Hb. unfold renderSourceList.
  set (F := filtered_roles st). set (st3 := updateSelectedMeta _ _).
  assert (Ht3 : renderToken st + 1 = renderToken st3) by reflexivity.
  rewrite (appendChunk_live_state _ F 0 st3 Ht3). cbv zeta.
  unfold progress. fold F.
  replace (SOURCE_RENDER_CHUNK * (0 + 1))%nat with SOURCE_RENDER_CHUNK by lia.
  assert (Hce : chunk_end F 0 = Nat.min (length F) SOURCE_RENDER_CHUNK) by reflexivity.
  assert (Hstale : Forall (fun c => ck_token c <> renderToken st + 1) (frames st)).
  { eapply Forall_impl; [exact Hb |]. cbn. intros c Hc. lia. }
  assert (Hsl : sourceList st3 ++ map (createSourceItem st3) (take (chunk_end F 0 - 0) (drop 0 F))
                = map (createSourceItem st) (take SOURCE_RENDER_CHUNK F)).
  { change (sourceList st3) with (@nil Item).
    rewrite (createSourceItem_selected st3 st eq_refl).
    now rewrite drop_0, Nat.sub_0_r, Hce, take_min_length. }
  destruct (Nat.ltb_spec (chunk_end F 0) (length F)) as [Hlt | Hge];
    destruct (Nat.ltb_spec SOURCE_RENDER_CHUNK (length F)) as [Hc | Hc];
    try (rewrite Hce in *; lia).
  - split; [reflexivity |]. split; [reflexivity |]. split; [exact Hsl |].
    exists (frames st). split; [exact Hstale |]. split; [lia |].
    rewrite Hce, Nat.min_r by lia. reflexivity.
  - split; [reflexivity |]. split; [reflexivity |]. split; [exact Hsl |].
    exists (frames st). split; [exact Hstale |]. split; [lia |].
    now rewrite app_nil_r.
Qed.

Lemma progress_frame st0 k s : progress st0 k s -> progress st0 (S k) (handle EFrame s).
Proof.
  intros (Ht & Hsel & Hsl & stale & Hstale & _ & Hfr).
  set (F := filtered_roles st0) in *. set (tok := renderToken st0 + 1) in *.
  set (pos := (SOURCE_RENDER_CHUNK * (k + 1))%nat) in *.
  cbn [handle]. rewrite Hfr. unfold fold_left at 1. fold (fold_left run_chunk).
  rewrite fold_left_app.
  rewrite (run_stale_chunks stale (set_frames [] s))
    by (eapply Forall_impl; [exact Hstale |]; cbn; intros c Hc; now rewrite Ht).
  assert (Hpos' : (SOURCE_RENDER_CHUNK * (S k + 1))%nat = (pos + SOURCE_RENDER_CHUNK)%nat)
    by (unfold pos; lia).
  unfold progress. fold F tok. rewrite Hpos'.
  destruct (Nat.ltb_spec pos (length F)) as [Hlt | Hge].
  - cbn [fold_left]. unfold run_chunk. cbn [ck_token ck_filtered ck_start].
    rewrite (appendChunk_live_state tok F pos (set_frames [] s)) by (now rewrite <- Ht).
    cbv zeta.
    assert (Hsl' : sourceList (set_frames [] s)
                   ++ map (createSourceItem (set_frames [] s))
                        (take (chunk_end F pos - pos) (drop pos F))
                   = map (createSourceItem st0) (take (pos + SOURCE_RENDER_CHUNK) F)).
    { change (sourceList (set_frames [] s)) with (sourceList s).
      rewrite (createSourceItem_selected (set_frames [] s) st0 Hsel), Hsl, <- map_app.
      f_equal. rewrite take_extend by (unfold chunk_end; lia).
      unfold chunk_end. apply take_min_length. }
    destruct (Nat.ltb_spec (chunk_end F pos) (length F)) as [Hlt' | Hge'];
      destruct (Nat.ltb_spec (pos + SOURCE_RENDER_CHUNK) (length F)) as [Hc | Hc];
      try (unfold chunk_end in *; lia).
    + split; [exact Ht |]. split; [exact Hsel |]. split; [exact Hsl' |].
      exists []. split; [constructor |]. split; [reflexivity |].
      unfold chunk_end. rewrite Nat.min_r by lia. reflexivity.
    + split; [exact Ht |]. split; [exact Hsel |]. split; [exact Hsl' |].
      exists []. split; [constructor |]. split; reflexivity.
  - destruct (Nat.ltb_spec (pos + SOURCE_RENDER_CHUNK) (length F)) as [Hc | Hc]; [lia |].
    cbn [fold_left].
    split; [exact Ht |]. split; [exact Hsel |]. split.
    + change (sourceList (set_frames [] s)) with (sourceList s). rewrite Hsl.
      f_equal. rewrite !take_ge; auto; lia.
    + exists []. split; [constructor |]. split; reflexivity.
Qed.

Lemma progress_frames st0 n k s :
  progress st0 k s -> progress st0 (k + n) (run (replicate n EFrame) s).
Proof.
  revert k s. induction n as [| n IH]; intros k s Hp.
  - now rewrite Nat.add_0_r.
  - cbn [replicate run fold_left]. fold (run (replicate n EFrame) (handle EFrame s)).
    replace (k + S n)%nat with (S k + n)%nat by lia.
    now apply IH, progress_frame.
Qed.

(** X14. After a render has started, [n] animation frames in a row
    leave in the list exactly the first [SOURCE_RENDER_CHUNK * (n + 1)]
    filtered roles, each once, in order and with its checkbox as the
    selection says; so the list is complete once that number reaches the
    number of filtered roles, and after a first frame nothing is left
    queued then.  Callbacks of earlier renders that are still queued
    change nothing of this. *)
Theorem chunked_render_progress (st : State) (n : nat) :
  Forall (fun c => ck_token c <= renderToken st) (frames st) ->
  sourceList (run (replicate n EFrame) (renderSourceList st))
  = map (createSourceItem st) (take (SOURCE_RENDER_CHUNK * (n + 1)) (filtered_roles st))
  /\ ((length (filtered_roles st) <= SOURCE_RENDER_CHUNK * (n + 1))%nat ->
      sourceList (run (replicate n EFrame) (renderSourceList st))
      = map (createSourceItem st) (filtered_roles st)
      /\ ((0 < n)%nat -> frames (run (replicate n EFrame) (renderSourceList st)) = [])).
Proof.
  intros Hb.
  destruct (progress_frames st n 0 _ (progress_start st Hb))
    as (_ & _ & Hsl & stale & _ & Hempty & Hfr).
  cbn [Nat.add] in *. split; [exact Hsl |].
  intros Hlen. split.
  - rewrite Hsl. now rewrite take_ge.
  - intros Hn. rewrite Hfr, (Hempty Hn).
    destruct (Nat.ltb_spec (SOURCE_RENDER_CHUNK * (n + 1)) (length (filtered_roles st)));
      [lia | reflexivity].
Qed.

Local Transparent SOURCE_RENDER_CHUNK.

Lemma chunked_render_progress_witness :
  sourceList (run (replicate 1 EFrame)
                (renderSourceList (set_query "sound" first_chunk_shown)))
  = map (createSourceItem (set_query "sound" first_chunk_shown))
      (filtered_roles (set_query "sound" first_chunk_shown)).
Proof.
  assert (Hb : Forall (fun c => ck_token c <= renderToken (set_query "sound" first_chunk_shown))
                 (frames (set_query "sound" first_chunk_shown))).
  { repeat constructor. vm_compute. discriminate. }
  destruct (chunked_render_progress (set_query "sound" first_chunk_shown) 1 Hb) as [_ H].
  assert (Hl : length (filtered_roles (set_query "sound" first_chunk_shown)) = 300%nat)
    by (vm_compute; reflexivity).
  apply H. rewrite Hl. unfold SOURCE_RENDER_CHUNK. lia.
Defined.


(** *** What the filter keeps *)

Lemma prefix_spec q s : String.prefix q s = true <-> exists post, s = q +:+ post.
Proof.
  revert s. induction q as [| a q IH]; intros s.
  - split; [intros _; now exists s | intros _; now destruct s].
  - destruct s as [| b s]; cbn.
    + split; [discriminate | intros [post H]; discriminate].
    + destruct (Ascii.ascii_dec a b) as [-> | Hne].
      * rewrite IH. split; intros [post H]; exists post; [now rewrite H | now injection H].
      * split; [discriminate | intros [post H]; injection H as H1 H2; congruence].
Qed.

Lemma includes_spec q s :
  includes q s = true <-> exists pre post, s = pre +:+ (q +:+ post).
Proof.
  induction s as [| c s IH].
  - cbn [includes]. rewrite orb_false_r, prefix_spec. split.
    + intros [post H]. now exists "", post.
    + intros (pre & post & H). destruct pre; [now exists post | discriminate].
  - cbn [includes]. rewrite orb_true_iff, prefix_spec, IH. split.
    + intros [[post H] | (pre & post & H)].
      * now exists "", post.
      * exists (String.String c pre), post. cbn. now rewrite H.
    + intros (pre & post & H). destruct pre as [| c' pre].
      * left. now exists post.
      * right. exists pre, post. cbn in H. now injection H.
Qed.

Lemma trim_start_all_space s : all_space s = true -> trim_start s = "".
Proof.
  induction s as [| c s IH]; cbn; [reflexivity |].
  intros H. apply andb_true_iff in H as [Hc Hs]. now rewrite Hc, IH.
Qed.

Lemma filter_everything (l : list Role) (P : Role -> Prop) `{!forall r, Decision (P r)} :
  (forall r, P r) -> filter P l = l.
Proof.
  intros HP. induction l as [| r l IH]; [reflexivity |].
  rewrite filter_cons_True by apply HP. now rewrite IH.
Qed.

(** X15. For a search text and role names of ASCII characters, the
    roles listed for the search are the role options, in their order,
    whose name in lower case contains the search text, trimmed and in
    lower case, as a substring; a search text that is empty or white
    space only lists every role option. *)
Theorem filtered_roles_spec (st : State) :
  is_ascii (query st) = true ->
  Forall (fun r => is_ascii (r_name r) = true) (roleOptions st) ->
  (forall r,
      r ∈ filtered_roles st
      <-> r ∈ roleOptions st
          /\ (toLowerCase (trim (query st)) = ""
              \/ exists pre post,
                   toLowerCase (r_name r)
                   = pre +:+ (toLowerCase (trim (query st)) +:+ post)))
  /\ filtered_roles st `sublist_of` roleOptions st
  /\ (all_space (query st) = true -> filtered_roles st = roleOptions st).
Proof.
  intros _ _. split; [| split].
  - intros r. unfold filtered_roles. rewrite list_elem_of_filter.
    unfold roleMatchesQuery.
    destruct (String.eqb_spec (toLowerCase (trim (query st))) "") as [Hq | Hq].
    + rewrite Hq. split; [intros [_ H]; auto | intros [H _]; auto].
    + rewrite includes_spec. split.
      * intros [H1 H2]. auto.
      * intros [H1 [H2 | H2]]; [contradiction | auto].
  - apply sublist_filter.
  - intros Hsp. unfold filtered_roles, trim.
    rewrite (trim_start_all_space _ Hsp). cbn.
    now apply filter_everything.
Qed.

Lemma filtered_roles_spec_witness :
  filtered_roles (set_query "   " first_chunk_shown)
  = roleOptions (set_query "   " first_chunk_shown).
Proof.
  assert (Hq : is_ascii (query (set_query "   " first_chunk_shown)) = true) by reflexivity.
  assert (Hr : Forall (fun r => is_ascii (r_name r) = true)
                 (roleOptions (set_query "   " first_chunk_shown))).
  { change (roleOptions (set_query "   " first_chunk_shown)) with many_roles.
    unfold many_roles. apply Forall_app. split; apply Forall_replicate; reflexivity. }
  apply (filtered_roles_spec (set_query "   " first_chunk_shown) Hq Hr). reflexivity.
Defined.

(** *** The count of selected roles *)

Lemma appendChunk_selection token filtered startIdx st :
  selected (appendChunk token filtered startIdx st) = selected st
  /\ selectedMeta (appendChunk token filtered startIdx st) = selectedMeta st.
Proof.
  unfold appendChunk. destruct (negb _); [now split |].
  destruct (_ <? _)%nat; now split.
Qed.

Lemma run_chunks_selection todo st :
  selected (fold_left run_chunk todo st) = selected st
  /\ selectedMeta (fold_left run_chunk todo st) = selectedMeta st.
Proof.
  revert st. induction todo as [| c todo IH]; intros st; [now split |].
  cbn [fold_left]. destruct (IH (run_chunk st c)) as [H1 H2].
  destruct (appendChunk_selection (ck_token c) (ck_filtered c) (ck_start c) st) as [H3 H4].
  unfold run_chunk in *. split; congruence.
Qed.

Lemma renderSourceList_selection st :
  selected (renderSourceList st) = selected st
  /\ selectedMeta (renderSourceList st)
     = (size (selected st), Some (length (filtered_roles st), length (roleOptions st))).
Proof.
  unfold renderSourceList.
  match goal with
  | |- context [appendChunk ?t ?f ?i ?s] =>
      destruct (appendChunk_selection t f i s) as [H1 H2]; rewrite H1, H2
  end.
  now split.
Qed.

(** X16. From the first state of the page on and after any events, the
    number in the line under the list is the number of selected roles;
    right after a render the line also tells how many roles are listed
    and how many options there are. *)
Theorem selectedMeta_counts (evs : list Event) :
  (selectedMeta (run evs initial)).1 = size (selected (run evs initial))
  /\ (forall st,
        (selectedMeta (renderSourceList st)).2
        = Some (length (filtered_roles st), length (roleOptions st))).
Proof.
  split.
  - assert (H : forall st,
              (selectedMeta st).1 = size (selected st) ->
              (selectedMeta (run evs st)).1 = size (selected (run evs st))).
    { induction evs as [| ev evs IH]; intros st Hst; [exact Hst |].
      cbn [run fold_left]. apply IH. destruct ev; cbn [handle].
      - destruct (renderSourceList_selection (set_query value st)) as [H1 H2].
        now rewrite H1, H2.
      - destruct (run_chunks_selection (frames st) (set_frames [] st)) as [H1 H2].
        now rewrite H1, H2.
      - destruct (String.eqb role ""); [exact Hst | reflexivity].
      - unfold applyPayload.
        destruct (renderSourceList_selection (set_roleOptions available_roles st)) as [H1 H2].
        now rewrite H1, H2.
      - unfold applyPayload.
        destruct (renderSourceList_selection
                    (set_roleOptions available_roles (set_selected ∅ st))) as [H1 H2].
        now rewrite H1, H2. }
    apply H. reflexivity.
  - intros st. destruct (renderSourceList_selection st) as [_ H]. now rewrite H.
Qed.


(** *** Saving a consolidation *)

Lemma selectedValues_elem st x :
  x ∈ selectedValues st
  <-> x ∈ selected st /\ exists r, r ∈ roleOptions st /\ r_name r = x.
Proof.
  unfold selectedValues. rewrite list_elem_of_fmap. split.
  - intros (r & -> & Hr). apply list_elem_of_filter in Hr as [H1 H2]. eauto.
  - intros (Hx & r & Hr & <-). exists r. split; [reflexivity |].
    apply list_elem_of_filter. auto.
Qed.

Lemma selectedValues_sublist st :
  selectedValues st `sublist_of` map r_name (roleOptions st).
Proof. unfold selectedValues. apply (fmap_sublist r_name), sublist_filter. Qed.

Lemma trim_all_space s : all_space s = true -> trim s = "".
Proof. intros H. unfold trim. now rewrite (trim_start_all_space _ H). Qed.

Lemma applyPayload_page roles st :
  selected (applyPayload roles st) = selected st
  /\ roleOptions (applyPayload roles st) = roles.
Proof.
  unfold applyPayload.
  destruct (renderSourceList_selection (set_roleOptions roles st)) as [H _].
  split; [now rewrite H |].
  unfold renderSourceList, appendChunk.
  destruct (negb _); [reflexivity |]. now destruct (_ <? _)%nat.
Qed.

(** X17. For a target box that holds ASCII characters and whatever
    else the form holds, a body that [consolidate] posts has a
    target that is the trimmed text of the target box and is not empty,
    and a non-empty list of sources, which are the selected names among
    the role options, in the order of the options; the button is then
    disabled.  With no such source, or with a target box that is empty
    or white space only, nothing is posted. *)
Theorem consolidate_posts (f : Form) (p : Post) :
  is_ascii (targetInput f) = true ->
  p ∈ posted (consolidate f) ->
  (selectedValues (page f) = [] \/ all_space (targetInput f) = true ->
   p ∈ posted f)
  /\ (p ∈ posted f
      \/ (targetRole p = trim (targetInput f)
          /\ targetRole p <> ""
          /\ sourceRoles p <> []
          /\ (forall x,
                x ∈ sourceRoles p
                <-> x ∈ selected (page f)
                    /\ exists r, r ∈ roleOptions (page f) /\ r_name r = x)
          /\ sourceRoles p `sublist_of` map r_name (roleOptions (page f))
          /\ disabled (consolidate f) = true)).
Proof.
  intros _. unfold consolidate.
  destruct (Nat.eqb_spec (length (selectedValues (page f))) 0) as [Hlen | Hlen].
  { intros Hp. cbn in Hp. auto. }
  destruct (String.eqb_spec (trim (targetInput f)) "") as [Ht | Ht].
  { intros Hp. cbn in Hp. auto. }
  cbn. intros Hp. apply elem_of_app in Hp as [Hp | Hp].
  { auto. }
  apply list_elem_of_singleton in Hp. subst p. cbn. split.
  - intros [Hs | Hs].
    + rewrite Hs in Hlen. now contradict Hlen.
    + now rewrite (trim_all_space _ Hs) in Ht.
  - right. split; [reflexivity |]. split; [exact Ht |].
    split; [intros Hs; rewrite Hs in Hlen; now contradict Hlen |].
    split; [intros x; apply selectedValues_elem |].
    split; [apply selectedValues_sublist | reflexivity].
Qed.

Lemma consolidate_posts_witness :
  targetRole (mkPost "Lighting Designer" (replicate 300 "Lighting")) = "Lighting Designer"
  /\ disabled (consolidate ready_to_save) = true.
Proof.
  assert (Hp : mkPost "Lighting Designer" (replicate 300 "Lighting")
               ∈ posted (consolidate ready_to_save)).
  { vm_compute. apply list_elem_of_singleton. reflexivity. }
  assert (Ha : is_ascii (targetInput ready_to_save) = true) by reflexivity.
  destruct (consolidate_posts ready_to_save _ Ha Hp) as [_ [Hold | H]].
  - vm_compute in Hold. now apply elem_of_nil in Hold.
  - split; [reflexivity | apply H].
Defined.

Lemma consolidate_sends f :
  selectedValues (page f) <> [] ->
  trim (targetInput f) <> "" ->
  consolidate f
  = set_posted (posted f ++ [mkPost (trim (targetInput f)) (selectedValues (page f))])
      (set_disabled true f).
Proof.
  intros Hs Ht. unfold consolidate.
  destruct (Nat.eqb_spec (length (selectedValues (page f))) 0) as [Hlen | Hlen].
  { destruct (selectedValues (page f)); [contradiction | discriminate]. }
  destruct (String.eqb_spec (trim (targetInput f)) ""); [contradiction | reflexivity].
Qed.

Lemma selectedValues_empty st : selected st = ∅ -> selectedValues st = [].
Proof.
  intros H. unfold selectedValues. rewrite H.
  induction (roleOptions st) as [| r l IH]; [reflexivity |].
  rewrite filter_cons_False by set_solver. exact IH.
Qed.

Lemma consolidate_no_source f :
  selectedValues (page f) = [] ->
  consolidate f = setFeedback "Select at least one source role." true f.
Proof. intros H. unfold consolidate. now rewrite H. Qed.

(** X18. A save and its answer, for a target box that holds ASCII
    characters.  When [consolidate] posts, the button
    is disabled until the answer and enabled after it, whatever the
    answer.  After a rejected request, a body that does not parse, or a
    body without [ok], the page and the target box are as before, the
    feedback line carries the error class, and a second [consolidate]
    posts the same body again.  After a body with [ok] the selection
    and the target box are empty and the role options are those of the
    body, so a second [consolidate] posts nothing and asks for a source
    role. *)
Theorem save_round_trip (f : Form) (a : Answer) :
  is_ascii (targetInput f) = true ->
  selectedValues (page f) <> [] ->
  trim (targetInput f) <> "" ->
  let p := mkPost (trim (targetInput f)) (selectedValues (page f)) in
  let f1 := consolidate f in
  let f2 := consolidate_settle a f1 in
  posted f1 = posted f ++ [p]
  /\ disabled f1 = true
  /\ disabled f2 = false
  /\ posted f2 = posted f1
  /\ match a with
     | Body (mkPayload true _ _ roles) =>
         selected (page f2) = ∅
         /\ targetInput f2 = ""
         /\ roleOptions (page f2) = roles
         /\ (feedback f2).2 = false
         /\ posted (consolidate f2) = posted f2
         /\ feedback (consolidate f2) = ("Select at least one source role.", true)
     | _ =>
         page f2 = page f
         /\ targetInput f2 = targetInput f
         /\ (feedback f2).2 = true
         /\ posted (consolidate f2) = posted f ++ [p; p]
     end.
Proof.
  intros _ Hs Ht p f1 f2. subst f1 f2.
  rewrite (consolidate_sends f Hs Ht). fold p.
  split; [reflexivity |]. split; [reflexivity |].
  split; [now destruct a |].
  split; [destruct a as [| [[] ? ? ?]]; reflexivity |].
  assert (Hretry : forall msg,
            posted (consolidate
                      (set_disabled false
                         (setFeedback msg true
                            (set_posted (posted f ++ [p]) (set_disabled true f)))))
            = posted f ++ [p; p]).
  { intros msg. rewrite consolidate_sends by assumption. cbn.
    now rewrite <- app_assoc. }
  destruct a as [| [[] err changed roles]]; cbn -[consolidate applyPayload trim].
  - repeat split. apply Hretry.
  - destruct (applyPayload_page roles (set_selected ∅ (page f))) as [H1 H2].
    cbn in H1. repeat split; try assumption.
    + rewrite consolidate_no_source; [reflexivity |].
      apply selectedValues_empty. exact H1.
    + rewrite consolidate_no_source; [reflexivity |].
      apply selectedValues_empty. exact H1.
  - repeat split. apply Hretry.
Qed.


Lemma save_round_trip_witness :
  disabled (consolidate_settle Failed (consolidate ready_to_save)) = false
  /\ posted (consolidate (consolidate_settle Failed (consolidate ready_to_save)))
     = [mkPost "Lighting Designer" (replicate 300 "Lighting");
        mkPost "Lighting Designer" (replicate 300 "Lighting")].
Proof.
  assert (Hs : selectedValues (page ready_to_save) <> []) by (vm_compute; discriminate).
  assert (Ht : trim (targetInput ready_to_save) <> "") by (vm_compute; discriminate).
  assert (Ha : is_ascii (targetInput ready_to_save) = true) by reflexivity.
  pose proof (save_round_trip ready_to_save Failed Ha Hs Ht) as H.
  cbv zeta in H. destruct H as (_ & _ & H3 & _ & _ & _ & _ & H8).
  split; [exact H3 |]. rewrite H8. vm_compute. reflexivity.
Defined.

(** X19. When no two role options share a name, the bodies posted by
    [consolidate] never list more sources than the count shown under
    the list, which is the size of the selection; the two agree when
    every selected name is still a role option. *)
Theorem sources_within_selection (st : State) :
  NoDup (map r_name (roleOptions st)) ->
  (length (selectedValues st) <= size (selected st))%nat
  /\ ((forall x, x ∈ selected st -> exists r, r ∈ roleOptions st /\ r_name r = x) ->
      length (selectedValues st) = size (selected st)).
Proof.
  intros Hnd.
  assert (Hsv : NoDup (selectedValues st)).
  { eapply sublist_NoDup; [exact Hnd | apply selectedValues_sublist]. }
  assert (Hsub : list_to_set (selectedValues st) ⊆ selected st).
  { intros x Hx. apply elem_of_list_to_set in Hx.
    now apply selectedValues_elem in Hx as [Hx _]. }
  rewrite <- (size_list_to_set (C := gset string) _ Hsv). split.
  - now apply subseteq_size.
  - intros Hall. f_equal. apply set_eq. intros x. split; [apply Hsub |].
    intros Hx. apply elem_of_list_to_set, selectedValues_elem. auto.
Qed.

Lemma sources_within_selection_witness :
  (length (selectedValues stale_selection) <= size (selected stale_selection))%nat.
Proof.
  apply (sources_within_selection stale_selection).
  vm_compute. repeat constructor. intros H. inversion H.
Defined.

(** The bound is strict on the page of [stale_selection]: one role is
    counted as selected and [consolidate] finds no source. *)
Example stale_selection_counts :
  (selectedMeta stale_selection).1 = 1%nat /\ selectedValues stale_selection = [].
Proof. split; vm_compute; reflexivity. Qed.

End RoleOrganisationFacts.
